(** * jd-crawler: the crawl engine, embedded and checked against its specification

    The development follows the Python sources of the crawler:
    - [src/config.py]      retry constants;
    - [src/db.py]          bookkeeping writes on [crawl_targets] and the
                           upsert on [job_postings];
    - [src/crawler.py]     [fetch_url], [compute_hash], [crawl_target], [crawl_all];
    - [src/parsers/*.py]   the parser registry and the three API adapters.

    How Python is read here.
    - A [str] is a [string] whose characters are the code points U+0000 to
      U+00FF. A key that a dict may lack is an [option]; [d.get(k, v)] is
      [default v]. The payloads of the vendors are records of the keys the
      crawler reads, so a payload of another shape (a list where a dict is
      expected, a number where a string is) is outside the model. The three
      [_compute_list_hash] are given a second time on dicts of decoded
      values ([decoded]), where a number or a boolean may stand for an id.
    - The store is two finite maps, [crawl_targets] by id and [job_postings]
      by [original_url], with the log of the requests sent to it. Its calls
      do not fail.
    - The network and the clock are oracles: the n-th HTTP call and the n-th
      reading of the clock get the answer the environment has for that n.
    - Effects are threaded through a monad over the world, with
      exceptions; [print] is left out.
    - Of the libraries: [hashlib.sha256] and [json.dumps] are written out;
      [tenacity] retries as its version 8 does (the wait after attempt n is
      [multiplier * 2^(n-1)], clamped); [raise_for_status] of [httpx] raises
      outside 2xx and that of [requests] from 400 to 599; BeautifulSoup
      stays abstract behind the parser interface. *)

From Stdlib Require Import ZArith List Ascii String Lia Bool Permutation Sorted.
From stdpp Require Import base gmap strings list sorting pretty.

Local Open Scope string_scope.
Local Open Scope Z_scope.

(** ** SHA-256 ([hashlib.sha256], FIPS 180-4) *)

Module Sha256.

Definition mask32 : Z := 4294967295.
Definition wrap (x : Z) : Z := Z.land x mask32.
Definition plus32 (x y : Z) : Z := wrap (x + y).

Definition rotr (n x : Z) : Z :=
  Z.lor (Z.shiftr x n) (wrap (Z.shiftl x (32 - n))).

Definition choose (e f g : Z) : Z :=
  Z.lxor (Z.land e f) (Z.land (Z.lxor e mask32) g).
Definition majority (a b c : Z) : Z :=
  Z.lxor (Z.lxor (Z.land a b) (Z.land a c)) (Z.land b c).

Definition big_sigma0 (x : Z) : Z := Z.lxor (Z.lxor (rotr 2 x) (rotr 13 x)) (rotr 22 x).
Definition big_sigma1 (x : Z) : Z := Z.lxor (Z.lxor (rotr 6 x) (rotr 11 x)) (rotr 25 x).
Definition small_sigma0 (x : Z) : Z := Z.lxor (Z.lxor (rotr 7 x) (rotr 18 x)) (Z.shiftr x 3).
Definition small_sigma1 (x : Z) : Z := Z.lxor (Z.lxor (rotr 17 x) (rotr 19 x)) (Z.shiftr x 10).

(** The round constants and the initial state are the leading 32 fraction
    bits of the cube roots, respectively square roots, of the first primes;
    they are computed here from that definition. *)
Definition first_primes : list Z :=
  [2; 3; 5; 7; 11; 13; 17; 19; 23; 29; 31; 37; 41; 43; 47; 53;
   59; 61; 67; 71; 73; 79; 83; 89; 97; 101; 103; 107; 109; 113; 127; 131;
   137; 139; 149; 151; 157; 163; 167; 173; 179; 181; 191; 193; 197; 199;
   211; 223; 227; 229; 233; 239; 241; 251; 257; 263; 269; 271; 277; 281;
   283; 293; 307; 311].

(** Integer cube root, one result bit at a time from bit [bits - 1] down. *)
Fixpoint cube_root_bits (bits : nat) (n acc : Z) : Z :=
  match bits with
  | O => acc
  | S b =>
      let cand := acc + Z.shiftl 1 (Z.of_nat b) in
      cube_root_bits b n (if cand * cand * cand <=? n then cand else acc)
  end.

Definition round_constants : list Z :=
  Eval vm_compute in
    List.map (fun p => wrap (cube_root_bits 36 (p * 2 ^ 96) 0)) first_primes.

Definition initial_state : list Z :=
  Eval vm_compute in
    List.map (fun p => wrap (Z.sqrt (p * 2 ^ 64))) (firstn 8 first_primes).

(** Padding: a 1 bit, zeros up to 56 modulo 64, the bit length on 8 bytes. *)
Definition be_bytes (count : nat) (x : Z) : list Z :=
  List.map (fun i => Z.land (Z.shiftr x (8 * Z.of_nat i)) 255) (rev (seq 0 count)).

Definition pad (msg : list Z) : list Z :=
  let len := Z.of_nat (List.length msg) in
  let zeros := Z.to_nat ((55 - len) mod 64) in
  msg ++ 128 :: repeat 0 zeros ++ be_bytes 8 (8 * len).

Fixpoint be_words (count : nat) (bytes : list Z) : list Z :=
  match count, bytes with
  | S c, b0 :: b1 :: b2 :: b3 :: rest =>
      (Z.shiftl b0 24 + Z.shiftl b1 16 + Z.shiftl b2 8 + b3) :: be_words c rest
  | _, _ => []
  end.

(** The message schedule, most recent word first. *)
Fixpoint extend (steps : nat) (recent : list Z) : list Z :=
  match steps with
  | O => recent
  | S s =>
      let w := plus32 (plus32 (small_sigma1 (nth 1 recent 0)) (nth 6 recent 0))
                      (plus32 (small_sigma0 (nth 14 recent 0)) (nth 15 recent 0)) in
      extend s (w :: recent)
  end.

Definition schedule (block : list Z) : list Z :=
  rev (extend 48 (rev (be_words 16 block))).

Record regs := Regs { ra : Z; rb : Z; rc : Z; rd : Z; re : Z; rf : Z; rg : Z; rh : Z }.

Definition round (s : regs) (kw : Z * Z) : regs :=
  let t1 := plus32 (plus32 (plus32 (rh s) (big_sigma1 (re s)))
                           (plus32 (choose (re s) (rf s) (rg s)) (fst kw))) (snd kw) in
  let t2 := plus32 (big_sigma0 (ra s)) (majority (ra s) (rb s) (rc s)) in
  Regs (plus32 t1 t2) (ra s) (rb s) (rc s) (plus32 (rd s) t1) (re s) (rf s) (rg s).

Definition regs_of (l : list Z) : regs :=
  Regs (nth 0 l 0) (nth 1 l 0) (nth 2 l 0) (nth 3 l 0)
       (nth 4 l 0) (nth 5 l 0) (nth 6 l 0) (nth 7 l 0).
Definition list_of (s : regs) : list Z :=
  [ra s; rb s; rc s; rd s; re s; rf s; rg s; rh s].

Definition compress (h : list Z) (block : list Z) : list Z :=
  let s := fold_left round (combine round_constants (schedule block)) (regs_of h) in
  List.map (fun p => plus32 (fst p) (snd p)) (combine h (list_of s)).

Fixpoint blocks (count : nat) (bytes : list Z) (h : list Z) : list Z :=
  match count with
  | O => h
  | S c => blocks c (skipn 64 bytes) (compress h (firstn 64 bytes))
  end.

Definition digest (msg : list Z) : list Z :=
  let padded := pad msg in
  let h := blocks (Nat.div (List.length padded) 64) padded initial_state in
  concat (List.map (be_bytes 4) h).

Definition hex_digit (d : Z) : ascii :=
  if d <? 10 then ascii_of_N (Z.to_N (48 + d)) else ascii_of_N (Z.to_N (87 + d)).

Fixpoint hex_of_bytes (bytes : list Z) : string :=
  match bytes with
  | [] => ""
  | b :: rest =>
      String (hex_digit (Z.shiftr b 4)) (String (hex_digit (Z.land b 15)) (hex_of_bytes rest))
  end.

Definition hexdigest (msg : list Z) : string := hex_of_bytes (digest msg).

End Sha256.

(** [str.encode("utf-8")] on code points below U+0100. *)
Definition utf8_of_char (c : ascii) : list Z :=
  let n := Z.of_N (N_of_ascii c) in
  if n <? 128 then [n] else [Z.lor 192 (Z.shiftr n 6); Z.lor 128 (Z.land n 63)].

Fixpoint encode_utf8 (s : string) : list Z :=
  match s with
  | EmptyString => []
  | String c rest => utf8_of_char c ++ encode_utf8 rest
  end.

(** ** [json.dumps] with its default settings, on a list of pairs of [str]

    [ensure_ascii] is on: a quote or a backslash is escaped with a backslash,
    the five control characters with a letter have their short form, and every
    other character outside the range from space to tilde is written as a
    [\u] escape with four lower-case hex digits. Items are separated by a comma
    and a space. *)

Module Json.

Definition quote : ascii := "034"%char.

Definition escape_char (c : ascii) : string :=
  let n := Z.of_N (N_of_ascii c) in
  if n =? 34 then String "\" (String quote "")
  else if n =? 92 then "\\"
  else if n =? 8 then "\b"
  else if n =? 12 then "\f"
  else if n =? 10 then "\n"
  else if n =? 13 then "\r"
  else if n =? 9 then "\t"
  else if (32 <=? n) && (n <=? 126) then String c ""
  else "\u00" +:+ String (Sha256.hex_digit (Z.shiftr n 4))
                    (String (Sha256.hex_digit (Z.land n 15)) "").

Fixpoint escape (s : string) : string :=
  match s with
  | EmptyString => ""
  | String c rest => escape_char c +:+ escape rest
  end.

Definition dumps_str (s : string) : string :=
  String quote (escape s +:+ String quote "").

Definition dumps_pair (p : string * string) : string :=
  "[" +:+ dumps_str p.1 +:+ ", " +:+ dumps_str p.2 +:+ "]".

Fixpoint join (items : list string) : string :=
  match items with
  | [] => ""
  | [item] => item
  | item :: rest => item +:+ ", " +:+ join rest
  end.

Definition dumps_pairs (pairs : list (string * string)) : string :=
  "[" +:+ join (List.map dumps_pair pairs) +:+ "]".

End Json.

(** ** [sorted] on 2-tuples of [str]

    A tuple is smaller when it is smaller at the first component where the two
    differ; [str] compares code point by code point. [sorted] is a stable
    merge sort that only asks whether the later element is smaller than the
    earlier one. The order is total, so that there is one sorted list for
    the elements given ([sorted_permutation] below) and the way of merging
    does not show. *)

Definition tuple_lt (p q : string * string) : bool :=
  if String.eqb p.1 q.1 then String.ltb p.2 q.2 else String.ltb p.1 q.1.

Definition stays_before (p q : string * string) : Prop := tuple_lt q p = false.

Global Instance stays_before_dec : RelDecision stays_before :=
  fun p q => decide (tuple_lt q p = false).

Definition sorted (pairs : list (string * string)) : list (string * string) :=
  merge_sort stays_before pairs.

(** The part the three [_compute_list_hash] share: sort the pairs, dump them,
    hash the UTF-8 bytes. [list_content] is the text that is hashed. *)
Definition list_content (pairs : list (string * string)) : string :=
  Json.dumps_pairs (sorted pairs).

Definition hash_pairs (pairs : list (string * string)) : string :=
  Sha256.hexdigest (encode_utf8 (list_content pairs)).

(** ** Exceptions and the monad of effects *)

(** The exception classes that reach a handler of the crawler. *)
Inductive exn_class : Type :=
| HttpxTransportError        (* httpx: connection and read failures *)
| HttpxTimeoutException
| HttpxHTTPStatusError       (* raised by httpx's raise_for_status *)
| HttpxInvalidURL            (* not an httpx.HTTPError *)
| RequestsConnectionError
| RequestsTimeout
| RequestsHTTPError          (* raised by requests' raise_for_status *)
| RequestsJSONDecodeError    (* requests.JSONDecodeError: also a json.JSONDecodeError *)
| JSONDecodeError            (* json.JSONDecodeError itself *)
| ValueError
| OtherException.

Record exn : Type := Exn { exn_type : exn_class; exn_str : string }.

Definition is_httpx_HTTPError (e : exn) : bool :=
  match exn_type e with
  | HttpxTransportError | HttpxTimeoutException | HttpxHTTPStatusError => true
  | _ => false
  end.

Definition is_httpx_TimeoutException (e : exn) : bool :=
  match exn_type e with HttpxTimeoutException => true | _ => false end.

Definition is_RequestException (e : exn) : bool :=
  match exn_type e with
  | RequestsConnectionError | RequestsTimeout | RequestsHTTPError
  | RequestsJSONDecodeError => true
  | _ => false
  end.

Definition is_JSONDecodeError (e : exn) : bool :=
  match exn_type e with RequestsJSONDecodeError | JSONDecodeError => true | _ => false end.

Definition is_ValueError (e : exn) : bool :=
  match exn_type e with
  | ValueError | JSONDecodeError | RequestsJSONDecodeError => true
  | _ => false
  end.

(** What a call comes to: a value, an exception, or no end (a loop that
    outlives its fuel). *)
Inductive outcome (A : Type) : Type :=
| Return (a : A)
| Raise (e : exn)
| Diverge.
Arguments Return {A} a.
Arguments Raise {A} e.
Arguments Diverge {A}.

(** ** Rows of the two tables *)

Record CrawlTarget : Type := {
  t_id : Z;
  t_name : option string;
  t_company_name : option string;
  t_list_url : string;
  t_parser_type : option string;               (* None: the key is absent *)
  t_parser_config : option (list (string * string));
  t_is_active : bool;
  t_last_list_hash : option string;
  t_last_checked_at : option string;
  t_last_error : option string }.

Record JobPosting : Type := {
  p_crawl_target_id : Z;
  p_title : string;
  p_company_name : string;
  p_content_raw : string;
  p_original_url : string;
  p_analysis_result : option string;
  p_created_at : string;
  p_updated_at : string }.

(** The requests the crawler sends to the store. *)
Inductive db_request : Type :=
| SelectPosting (original_url : string)
| UpdatePosting (original_url title company_name content_raw updated_at : string)
| InsertPosting (row : JobPosting)
| UpdateTargetChecked (target_id : Z) (last_checked_at : string)
| UpdateTargetHash (target_id : Z) (last_list_hash last_checked_at : string)
| UpdateTargetError (target_id : Z) (last_error : string).

Definition is_posting_request (r : db_request) : bool :=
  match r with SelectPosting _ | UpdatePosting _ _ _ _ _ | InsertPosting _ => true | _ => false end.

Definition is_write (r : db_request) : bool :=
  match r with SelectPosting _ => false | _ => true end.

(** The world a pass runs in. [job_postings] is keyed by [original_url], on
    which the table carries the UNIQUE constraint that
    [scripts/test_toss_upsert.py] asks for, and [crawl_targets] by its primary
    key. [db_log] holds the requests sent so far, oldest first. *)
Record World : Type := {
  crawl_targets : gmap Z CrawlTarget;
  job_postings : gmap string JobPosting;
  db_log : list db_request;
  clock_reads : nat;
  http_calls : nat;
  sleeps : list Z }.

Definition M (A : Type) : Type := World → outcome A * World.

Global Instance M_ret : MRet M := λ A a w, (Return a, w).

Global Instance M_bind : MBind M := λ A B f m w,
  match m w with
  | (Return a, w') => f a w'
  | (Raise e, w') => (Raise e, w')
  | (Diverge, w') => (Diverge, w')
  end.

Definition raise {A} (e : exn) : M A := λ w, (Raise e, w).
Definition diverge {A} : M A := λ w, (Diverge, w).

(** A pure call that may raise. *)
Definition call {A} (r : exn + A) : M A :=
  λ w, match r with inl e => (Raise e, w) | inr a => (Return a, w) end.

(** [try: body  except ...: handler]. [handlers e] is the body of the first
    [except] clause that matches [e], if any. What the body did to the world
    before it raised stays done. *)
Definition try_except {A} (body : M A) (handlers : exn → option (M A)) : M A :=
  λ w, match body w with
       | (Raise e, w') =>
           match handlers e with
           | Some handler => handler w'
           | None => (Raise e, w')
           end
       | res => res
       end.

(** ** Counters *)

Inductive stat_key : Type := NEW | UPDATED | SKIP | ERROR.

Record Stats : Type := { s_NEW : Z; s_UPDATED : Z; s_SKIP : Z; s_ERROR : Z }.

Definition no_stats : Stats := {| s_NEW := 0; s_UPDATED := 0; s_SKIP := 0; s_ERROR := 0 |}.

(** [stats[k] += 1] *)
Definition incr (k : stat_key) (s : Stats) : Stats :=
  match k with
  | NEW => {| s_NEW := s_NEW s + 1; s_UPDATED := s_UPDATED s; s_SKIP := s_SKIP s; s_ERROR := s_ERROR s |}
  | UPDATED => {| s_NEW := s_NEW s; s_UPDATED := s_UPDATED s + 1; s_SKIP := s_SKIP s; s_ERROR := s_ERROR s |}
  | SKIP => {| s_NEW := s_NEW s; s_UPDATED := s_UPDATED s; s_SKIP := s_SKIP s + 1; s_ERROR := s_ERROR s |}
  | ERROR => {| s_NEW := s_NEW s; s_UPDATED := s_UPDATED s; s_SKIP := s_SKIP s; s_ERROR := s_ERROR s + 1 |}
  end.

(** [for key in total: total[key] += stats[key]] *)
Definition add_stats (total stats : Stats) : Stats :=
  {| s_NEW := s_NEW total + s_NEW stats;
     s_UPDATED := s_UPDATED total + s_UPDATED stats;
     s_SKIP := s_SKIP total + s_SKIP stats;
     s_ERROR := s_ERROR total + s_ERROR stats |}.

(** ** Upstream payloads, as [response.json()] decodes them *)

Record MetaEntry : Type := { me_name : option string; me_value : option string }.

(** A job object of the Toss feed (a non-empty dict). *)
Record TossJob : Type := {
  tj_id : option string;
  tj_updated_at : option string;
  tj_absolute_url : option string;
  tj_title : option string;
  tj_metadata : option (list MetaEntry) }.

(** [tg_primary_job] is [None] when the key is absent, null or an empty dict:
    the three are falsy alike. *)
Record TossGroup : Type := { tg_title : option string; tg_primary_job : option TossJob }.

Record TossPayload : Type := {
  tp_resultType : option string;
  tp_success : option (list TossGroup) }.

(** Greenhouse numbers its jobs. *)
Record DaangnJob : Type := {
  dj_id : option Z;
  dj_updated_at : option string;
  dj_title : option string;
  dj_metadata : option (list MetaEntry) }.

Record DaangnPayload : Type := { dp_jobs : option (list DaangnJob) }.

Record KakaoJob : Type := {
  kj_realId : option string;
  kj_uptDate : option string;
  kj_jobOfferTitle : option string;
  kj_companyName : option string }.

Record KakaoPage : Type := {
  kp_jobList : option (list KakaoJob);
  kp_totalPage : option Z }.

(** ** Parsers ([src/parsers/base.py]) *)

Record JobItem : Type := { ji_title : string; ji_url : string; ji_company_name : string }.

(** The interface of [BaseParser]. The bodies are BeautifulSoup code and stay
    abstract; [parse_list] and [parse_detail] may raise. *)
Record Parser : Type := {
  parse_list : string → exn + list JobItem;
  parse_detail : string → exn + string;
  normalize_html : string → string }.

(** ** The environment of a pass *)

(** Answer of [httpx.Client.get]. *)
Inductive httpx_answer : Type :=
| HttpxResponse (status_code : Z) (text : string)
| HttpxFailure (e : exn).

(** Answer of [requests.get] followed by [response.json()]. *)
Inductive requests_answer (P : Type) : Type :=
| RequestsResponse (status_code : Z) (json : exn + P)
| RequestsFailure (e : exn).
Arguments RequestsResponse {P} status_code json.
Arguments RequestsFailure {P} e.

(** Everything the crawler takes from outside: the clock, the servers, the
    BeautifulSoup parser and the [json.dumps] of a whole job object. The
    first argument of an oracle counts the readings, respectively the HTTP
    calls, made before this one. *)
Record Env : Type := {
  utc_now_isoformat : nat → string;
  httpx_get : nat → string → httpx_answer;
  toss_get : nat → string → requests_answer TossPayload;
  daangn_get : nat → string → requests_answer DaangnPayload;
  kakao_get : nat → string → string → Z → requests_answer KakaoPage;
  GenericParser : list (string * string) → Parser;
  toss_content_raw : TossGroup → TossJob → gmap string (option string) → exn + string;
  daangn_content_raw : DaangnJob → gmap string (option string) → exn + string;
  kakao_content_raw : KakaoJob → exn + string }.

(** ** [src/config.py] *)

Module config.
Definition REQUEST_TIMEOUT : Z := 30.
Definition MAX_RETRIES : Z := 3.
Definition RETRY_DELAY : Z := 2.
End config.

(** ** [src/db.py] *)

Module db.
Section with_env.
Context (env : Env).

(** [datetime.now(timezone.utc).isoformat()] *)
Definition now : M string := λ w,
  (Return (utc_now_isoformat env (clock_reads w)),
   {| crawl_targets := crawl_targets w; job_postings := job_postings w;
      db_log := db_log w; clock_reads := S (clock_reads w);
      http_calls := http_calls w; sleeps := sleeps w |}).

Definition set_checked (ts : string) (t : CrawlTarget) : CrawlTarget :=
  {| t_id := t_id t; t_name := t_name t; t_company_name := t_company_name t;
     t_list_url := t_list_url t; t_parser_type := t_parser_type t;
     t_parser_config := t_parser_config t; t_is_active := t_is_active t;
     t_last_list_hash := t_last_list_hash t;
     t_last_checked_at := Some ts;
     t_last_error := t_last_error t |}.

Definition set_hash (h ts : string) (t : CrawlTarget) : CrawlTarget :=
  {| t_id := t_id t; t_name := t_name t; t_company_name := t_company_name t;
     t_list_url := t_list_url t; t_parser_type := t_parser_type t;
     t_parser_config := t_parser_config t; t_is_active := t_is_active t;
     t_last_list_hash := Some h;
     t_last_checked_at := Some ts;
     t_last_error := t_last_error t |}.

Definition set_error (msg : string) (t : CrawlTarget) : CrawlTarget :=
  {| t_id := t_id t; t_name := t_name t; t_company_name := t_company_name t;
     t_list_url := t_list_url t; t_parser_type := t_parser_type t;
     t_parser_config := t_parser_config t; t_is_active := t_is_active t;
     t_last_list_hash := t_last_list_hash t;
     t_last_checked_at := t_last_checked_at t;
     t_last_error := Some msg |}.

Definition set_content (title company_name content_raw updated_at : string)
    (p : JobPosting) : JobPosting :=
  {| p_crawl_target_id := p_crawl_target_id p;
     p_title := title;
     p_company_name := company_name;
     p_content_raw := content_raw;
     p_original_url := p_original_url p;
     p_analysis_result := p_analysis_result p;
     p_created_at := p_created_at p;
     p_updated_at := updated_at |}.

(** What a request does to the tables: [.update(...).eq(key, k)] rewrites
    the row under [k] when there is one, [.insert(row)] adds the row. *)
Definition apply_targets (r : db_request) (ts : gmap Z CrawlTarget) : gmap Z CrawlTarget :=
  match r with
  | UpdateTargetChecked i at_ => alter (set_checked at_) i ts
  | UpdateTargetHash i h at_ => alter (set_hash h at_) i ts
  | UpdateTargetError i msg => alter (set_error msg) i ts
  | _ => ts
  end.

Definition apply_postings (r : db_request) (ps : gmap string JobPosting) : gmap string JobPosting :=
  match r with
  | UpdatePosting url title company content at_ => alter (set_content title company content at_) url ps
  | InsertPosting row => <[p_original_url row := row]> ps
  | _ => ps
  end.

(** [.execute()] *)
Definition execute (r : db_request) : M unit := λ w,
  (Return tt,
   {| crawl_targets := apply_targets r (crawl_targets w);
      job_postings := apply_postings r (job_postings w);
      db_log := (db_log w ++ [r])%list;
      clock_reads := clock_reads w; http_calls := http_calls w; sleeps := sleeps w |}).

(** [.select("id, content_raw").eq("original_url", url).execute()]: the
    rows found, at most one. *)
Definition select_posting (url : string) : M (option JobPosting) := λ w,
  (Return (job_postings w !! url),
   {| crawl_targets := crawl_targets w; job_postings := job_postings w;
      db_log := (db_log w ++ [SelectPosting url])%list;
      clock_reads := clock_reads w; http_calls := http_calls w; sleeps := sleeps w |}).

Definition update_target_checked (target_id : Z) : M unit :=
  last_checked_at ← now;
  execute (UpdateTargetChecked target_id last_checked_at).

Definition update_target_hash (target_id : Z) (new_hash : string) : M unit :=
  last_checked_at ← now;
  execute (UpdateTargetHash target_id new_hash last_checked_at).

(** Modelled from the spec: [update_target_error], which the three API
    adapters import from [src.db] and which [src/db.py] does not define. The
    spec lists [updateTargetError(id, message)] in the store interface and
    has a failure "record the target's last-error field": the message is
    written to [last_error] of the row of that id, and nothing else is. *)
Definition update_target_error (target_id : Z) (error_msg : string) : M unit :=
  execute (UpdateTargetError target_id error_msg).

Definition upsert_job_posting (target_id : Z)
    (title company_name content_raw original_url : string) : M stat_key :=
  existing ← select_posting original_url;
  now_ ← now;
  match existing with
  | Some row =>
      let old_content := p_content_raw row in
      if String.eqb old_content content_raw then mret SKIP
      else
        execute (UpdatePosting original_url title company_name content_raw now_);;
        mret UPDATED
  | None =>
      execute (InsertPosting
                 {| p_crawl_target_id := target_id;
                    p_title := title;
                    p_company_name := company_name;
                    p_content_raw := content_raw;
                    p_original_url := original_url;
                    p_analysis_result := None;
                    p_created_at := now_;
                    p_updated_at := now_ |});;
      mret NEW
  end.

End with_env.
End db.

(** ** Python idioms shared by the adapters *)

(** Truth value of a [str]. *)
Definition nonempty (s : string) : bool := negb (String.eqb s "").

(** [for x in items: ...] over a loop-carried value. *)
Fixpoint for_each {A S : Type} (items : list A) (body : A → S → M S) (s : S) : M S :=
  match items with
  | [] => mret s
  | x :: rest => s' ← body x s; for_each rest body s'
  end.

(** [_meta_to_dict], the same in the Toss and the Daangn adapter. *)
Definition _meta_to_dict (metadata : option (list MetaEntry)) : gmap string (option string) :=
  fold_left
    (λ result m,
       match me_name m with
       | Some name => if nonempty name then <[name := me_value m]> result else result
       | None => result
       end)
    (default [] metadata) ∅.

(** [requests.get(...)], [response.raise_for_status()], [response.json()]:
    the try body of the API adapters. *)
Definition requests_get_json {P : Type} (server : nat → requests_answer P) (url : string) : M P :=
  λ w,
    let w' := {| crawl_targets := crawl_targets w; job_postings := job_postings w;
                 db_log := db_log w; clock_reads := clock_reads w;
                 http_calls := S (http_calls w); sleeps := sleeps w |} in
    match server (http_calls w) with
    | RequestsFailure e => (Raise e, w')
    | RequestsResponse status_code json =>
        if (400 <=? status_code) && (status_code <? 600)
        then (Raise (Exn RequestsHTTPError (pretty status_code +:+ " Error for url: " +:+ url)), w')
        else match json with
             | inl e => (Raise e, w')
             | inr payload => (Return payload, w')
             end
    end.

(** ** [src/parsers/toss_job_groups_api.py] *)

Module toss_job_groups_api.
Section with_env.
Context (env : Env).

(** The generator that [_compute_list_hash] hands to [sorted]. *)
Definition pairs (jobs : list TossJob) : list (string * string) :=
  List.map (λ j, (default "" (tj_id j), default "" (tj_updated_at j))) jobs.

Definition _compute_list_hash (jobs : list TossJob) : string :=
  hash_pairs (pairs jobs).

Definition _build_company_name (meta : gmap string (option string)) : string :=
  match mjoin (meta !! "포지션의 소속 자회사를 선택해 주세요.") with
  | Some subsidiary => if nonempty subsidiary then "Toss / " +:+ subsidiary else "Toss"
  | None => "Toss"
  end.

(** The body of [for group in groups]. *)
Definition process_group (target_id : Z) (group : TossGroup) (stats : Stats) : M Stats :=
  match tg_primary_job group with
  | None => mret stats
  | Some job =>
      match tj_absolute_url job with
      | None => mret stats
      | Some original_url =>
          if negb (nonempty original_url) then mret stats
          else
            try_except
              (let meta := _meta_to_dict (tj_metadata job) in
               let company_name := _build_company_name meta in
               content_raw ← call (toss_content_raw env group job meta);
               let title := default "Untitled" (tj_title job) in
               result ← db.upsert_job_posting env target_id title company_name
                          content_raw original_url;
               mret (incr result stats))
              (λ e, Some (mret (incr ERROR stats)))
      end
  end.

Definition crawl_toss_api (target : CrawlTarget) : M Stats :=
  let stats := no_stats in
  let target_id := t_id target in
  let api_url := t_list_url target in
  let last_list_hash := t_last_list_hash target in
  fetched ←
    try_except
      (payload ← requests_get_json (λ n, toss_get env n api_url) api_url;
       mret (inr payload))
      (λ e,
         if is_RequestException e then
           Some (let error_msg := "Failed to fetch API: " +:+ exn_str e in
                 db.update_target_error target_id error_msg;;
                 mret (inl (incr ERROR stats)))
         else if is_JSONDecodeError e then
           Some (let error_msg := "Invalid JSON response: " +:+ exn_str e in
                 db.update_target_error target_id error_msg;;
                 mret (inl (incr ERROR stats)))
         else None);
  match fetched with
  | inl stats => mret stats
  | inr payload =>
      if negb (bool_decide (tp_resultType payload = Some "SUCCESS")) then
        let error_msg :=
          "API returned non-SUCCESS: " +:+ default "None" (tp_resultType payload) in
        db.update_target_error target_id error_msg;;
        mret (incr ERROR stats)
      else
        let groups := default [] (tp_success payload) in
        match groups with
        | [] => db.update_target_checked env target_id;; mret stats
        | _ =>
            let primary_jobs := omap tg_primary_job groups in
            let current_hash := _compute_list_hash primary_jobs in
            if bool_decide (Some current_hash = last_list_hash) then
              db.update_target_checked env target_id;; mret stats
            else
              stats ← for_each groups (process_group target_id) stats;
              db.update_target_hash env target_id current_hash;;
              mret stats
        end
  end.

End with_env.
End toss_job_groups_api.

(** ** [src/parsers/daangn_greenhouse_api.py] *)

Module daangn_greenhouse_api.
Section with_env.
Context (env : Env).

(** The generator that [_compute_list_hash] hands to [sorted]; [str()] of
    the default [""] is [""]. *)
Definition pairs (jobs : list DaangnJob) : list (string * string) :=
  List.map (λ j, (match dj_id j with Some i => pretty i | None => "" end,
                  default "" (dj_updated_at j))) jobs.

Definition _compute_list_hash (jobs : list DaangnJob) : string :=
  hash_pairs (pairs jobs).

Definition _build_company_name (meta : gmap string (option string)) : string :=
  match mjoin (meta !! "Corporate") with
  | Some corporate =>
      if nonempty corporate && negb (String.eqb corporate "당근마켓")
      then "당근 / " +:+ corporate
      else "당근"
  | None => "당근"
  end.

(** The body of [for job in jobs]. *)
Definition process_job (target_id : Z) (job : DaangnJob) (stats : Stats) : M Stats :=
  match dj_id job with
  | None => mret stats
  | Some job_id =>
      if job_id =? 0 then mret stats
      else
        let original_url := "https://about.daangn.com/jobs/" +:+ pretty job_id +:+ "/" in
        try_except
          (let meta := _meta_to_dict (dj_metadata job) in
           let company_name := _build_company_name meta in
           content_raw ← call (daangn_content_raw env job meta);
           let title := default "Untitled" (dj_title job) in
           result ← db.upsert_job_posting env target_id title company_name
                      content_raw original_url;
           mret (incr result stats))
          (λ e, Some (mret (incr ERROR stats)))
  end.

Definition crawl_daangn_api (target : CrawlTarget) : M Stats :=
  let stats := no_stats in
  let target_id := t_id target in
  let api_url := t_list_url target in
  let last_list_hash := t_last_list_hash target in
  fetched ←
    try_except
      (payload ← requests_get_json (λ n, daangn_get env n api_url) api_url;
       mret (inr payload))
      (λ e,
         if is_RequestException e then
           Some (let error_msg := "Failed to fetch API: " +:+ exn_str e in
                 db.update_target_error target_id error_msg;;
                 mret (inl (incr ERROR stats)))
         else if is_JSONDecodeError e then
           Some (let error_msg := "Invalid JSON response: " +:+ exn_str e in
                 db.update_target_error target_id error_msg;;
                 mret (inl (incr ERROR stats)))
         else None);
  match fetched with
  | inl stats => mret stats
  | inr payload =>
      let jobs := default [] (dp_jobs payload) in
      match jobs with
      | [] => db.update_target_checked env target_id;; mret stats
      | _ =>
          let current_hash := _compute_list_hash jobs in
          if bool_decide (Some current_hash = last_list_hash) then
            db.update_target_checked env target_id;; mret stats
          else
            stats ← for_each jobs (process_job target_id) stats;
            db.update_target_hash env target_id current_hash;;
            mret stats
      end
  end.

End with_env.
End daangn_greenhouse_api.

(** ** [src/parsers/kakao_api.py] *)

Module kakao_api.
Section with_env.
Context (env : Env).

Definition JOB_PARTS : list string := ["TECHNOLOGY"; "BUSINESS_SERVICES"; "STAFF"; "DESIGN"].

(** The generator that [_compute_list_hash] hands to [sorted]. *)
Definition pairs (jobs : list KakaoJob) : list (string * string) :=
  List.map (λ j, (default "" (kj_realId j), default "" (kj_uptDate j))) jobs.

Definition _compute_list_hash (jobs : list KakaoJob) : string :=
  hash_pairs (pairs jobs).

(** [while True] over the pages of one part. Nothing bounds the loop but the
    [totalPage] the server reports, so it runs on [fuel]. *)
Fixpoint fetch_pages (fuel : nat) (base_url part : string) (page : Z)
    (all_jobs : list KakaoJob) : M (list KakaoJob) :=
  match fuel with
  | O => diverge
  | S fuel' =>
      payload ← requests_get_json (λ n, kakao_get env n base_url part page) base_url;
      let job_list := default [] (kp_jobList payload) in
      let all_jobs := (all_jobs ++ job_list)%list in
      let total_page := default 1 (kp_totalPage payload) in
      if total_page <=? page then mret all_jobs
      else fetch_pages fuel' base_url part (page + 1) all_jobs
  end.

Definition _fetch_all_jobs (fuel : nat) (base_url : string) : M (list KakaoJob) :=
  for_each JOB_PARTS (λ part all_jobs, fetch_pages fuel base_url part 1 all_jobs) [].

(** The body of [for job in all_jobs]. *)
Definition process_job (target_id : Z) (job : KakaoJob) (stats : Stats) : M Stats :=
  match kj_realId job with
  | None => mret stats
  | Some real_id =>
      if negb (nonempty real_id) then mret stats
      else
        let original_url := "https://careers.kakao.com/jobs/" +:+ real_id in
        try_except
          (let company_name := default "카카오" (kj_companyName job) in
           content_raw ← call (kakao_content_raw env job);
           let title := default "Untitled" (kj_jobOfferTitle job) in
           result ← db.upsert_job_posting env target_id title company_name
                      content_raw original_url;
           mret (incr result stats))
          (λ e, Some (mret (incr ERROR stats)))
  end.

Definition crawl_kakao_api (fuel : nat) (target : CrawlTarget) : M Stats :=
  let stats := no_stats in
  let target_id := t_id target in
  let api_url := t_list_url target in
  let last_list_hash := t_last_list_hash target in
  fetched ←
    try_except
      (all_jobs ← _fetch_all_jobs fuel api_url; mret (inr all_jobs))
      (λ e,
         if is_RequestException e then
           Some (let error_msg := "Failed to fetch API: " +:+ exn_str e in
                 db.update_target_error target_id error_msg;;
                 mret (inl (incr ERROR stats)))
         else if is_JSONDecodeError e then
           Some (let error_msg := "Invalid JSON response: " +:+ exn_str e in
                 db.update_target_error target_id error_msg;;
                 mret (inl (incr ERROR stats)))
         else None);
  match fetched with
  | inl stats => mret stats
  | inr all_jobs =>
      match all_jobs with
      | [] => db.update_target_checked env target_id;; mret stats
      | _ =>
          let current_hash := _compute_list_hash all_jobs in
          if bool_decide (Some current_hash = last_list_hash) then
            db.update_target_checked env target_id;; mret stats
          else
            stats ← for_each all_jobs (process_job target_id) stats;
            db.update_target_hash env target_id current_hash;;
            mret stats
      end
  end.

End with_env.
End kakao_api.

(** ** [src/parsers/__init__.py] *)

Module parsers.
Section with_env.
Context (env : Env).

Definition PARSER_REGISTRY : gmap string (list (string * string) → Parser) :=
  {[ "generic" := GenericParser env ]}.

Definition get_parser (parser_type : string) (config : option (list (string * string)))
    : exn + Parser :=
  match PARSER_REGISTRY !! parser_type with
  | None =>
      inl (Exn ValueError
             ("Unknown parser_type: " +:+ parser_type +:+ ". Available: ['generic']"))
  | Some parser_class => inr (parser_class (default [] config))
  end.

End with_env.
End parsers.

(** ** [src/crawler.py] *)

Module crawler.
Section with_env.
Context (env : Env).

Definition API_PARSER_TYPES : list string :=
  ["toss_job_groups_api"; "daangn_greenhouse_api"; "kakao_api"].

(** *** The [tenacity] decorator of [fetch_url] *)

(** [stop_after_attempt(n)] *)
Definition stop_after_attempt (max_attempt_number attempt_number : Z) : bool :=
  max_attempt_number <=? attempt_number.

(** [wait_exponential(multiplier, min, max)] with base 2: the wait after the
    attempt of the given number. *)
Definition wait_exponential (multiplier min_ max_ attempt_number : Z) : Z :=
  let exp := 2 ^ (attempt_number - 1) in
  let result := multiplier * exp in
  Z.max (Z.max 0 min_) (Z.min result max_).

(** [retry_if_exception_type((httpx.HTTPError, httpx.TimeoutException))] *)
Definition retry_if_exception_type (e : exn) : bool :=
  is_httpx_HTTPError e || is_httpx_TimeoutException e.

Definition sleep (seconds : Z) : M unit := λ w,
  (Return tt,
   {| crawl_targets := crawl_targets w; job_postings := job_postings w;
      db_log := db_log w; clock_reads := clock_reads w;
      http_calls := http_calls w; sleeps := (sleeps w ++ [seconds])%list |}).

(** The retry loop from the attempt of number [attempt_number] on, with
    [reraise=True]. [fuel] bounds the attempts still to make. *)
Fixpoint retrying {A : Type} (fuel : nat) (attempt_number : Z) (fn : M A) : M A :=
  λ w,
    match fn w with
    | (Raise e, w') =>
        if retry_if_exception_type e then
          if stop_after_attempt config.MAX_RETRIES attempt_number then (Raise e, w')
          else
            match fuel with
            | O => (Diverge, w')
            | S fuel' =>
                (sleep (wait_exponential config.RETRY_DELAY 1 10 attempt_number);;
                 retrying fuel' (attempt_number + 1) fn) w'
            end
        else (Raise e, w')
    | res => res
    end.

(** [response.raise_for_status()] then [response.text]: a response outside
    2xx raises [httpx.HTTPStatusError]. *)
Definition response_text (url : string) (answer : httpx_answer) : outcome string :=
  match answer with
  | HttpxFailure e => Raise e
  | HttpxResponse status_code text =>
      if (200 <=? status_code) && (status_code <=? 299) then Return text
      else Raise (Exn HttpxHTTPStatusError (pretty status_code +:+ " for url " +:+ url))
  end.

(** The decorated body: one GET, [raise_for_status], the text. *)
Definition fetch_once (url : string) : M string := λ w,
  (response_text url (httpx_get env (http_calls w) url),
   {| crawl_targets := crawl_targets w; job_postings := job_postings w;
      db_log := db_log w; clock_reads := clock_reads w;
      http_calls := S (http_calls w); sleeps := sleeps w |}).

Definition fetch_url (url : string) : M string :=
  retrying (Z.to_nat config.MAX_RETRIES) 1 (fetch_once url).

Definition compute_hash (content : string) : string :=
  Sha256.hexdigest (encode_utf8 content).

(** The body of [for item in job_items]. *)
Definition process_item (parser : Parser) (target_id : Z) (item : JobItem)
    (stats : Stats) : M Stats :=
  try_except
    (detail_html ← fetch_url (ji_url item);
     content_raw ← call (parse_detail parser detail_html);
     if negb (nonempty content_raw) then mret stats
     else
       result ← db.upsert_job_posting env target_id (ji_title item)
                  (ji_company_name item) content_raw (ji_url item);
       mret (incr result stats))
    (λ e, Some (mret (incr ERROR stats))).

(** The HTML path of [crawl_target]. *)
Definition crawl_html (parser_type : string) (target : CrawlTarget) : M Stats :=
  let stats := no_stats in
  let target_id := t_id target in
  let list_url := t_list_url target in
  let parser_config := t_parser_config target in
  let last_list_hash := t_last_list_hash target in
  fetched ←
    try_except (list_html ← fetch_url list_url; mret (inr list_html))
               (λ e, Some (mret (inl (incr ERROR stats))));
  match fetched with
  | inl stats => mret stats
  | inr list_html =>
      match parsers.get_parser env parser_type parser_config with
      | inl e =>
          if is_ValueError e then mret (incr ERROR stats) else raise e
      | inr parser =>
          let normalized_html := normalize_html parser list_html in
          let current_hash := compute_hash normalized_html in
          if bool_decide (Some current_hash = last_list_hash) then
            db.update_target_checked env target_id;; mret stats
          else
            match parse_list parser list_html with
            | inl e => mret (incr ERROR stats)
            | inr job_items =>
                match job_items with
                | [] => db.update_target_hash env target_id current_hash;; mret stats
                | _ =>
                    stats ← for_each job_items (process_item parser target_id) stats;
                    db.update_target_hash env target_id current_hash;;
                    mret stats
                end
            end
      end
  end.

Definition crawl_target (fuel : nat) (target : CrawlTarget) : M Stats :=
  let parser_type := default "generic" (t_parser_type target) in
  if bool_decide (parser_type ∈ API_PARSER_TYPES) then
    if String.eqb parser_type "toss_job_groups_api" then
      toss_job_groups_api.crawl_toss_api env target
    else if String.eqb parser_type "daangn_greenhouse_api" then
      daangn_greenhouse_api.crawl_daangn_api env target
    else if String.eqb parser_type "kakao_api" then
      kakao_api.crawl_kakao_api env fuel target
    else crawl_html parser_type target
  else crawl_html parser_type target.

(** The loop of [crawl_all], entered with the totals so far. *)
Definition crawl_all_from (fuel : nat) (total_stats : Stats) (targets : list CrawlTarget)
    : M Stats :=
  for_each targets
    (λ target total_stats,
       target_stats ← crawl_target fuel target;
       mret (add_stats total_stats target_stats))
    total_stats.

Definition crawl_all (fuel : nat) (targets : list CrawlTarget) : M Stats :=
  crawl_all_from fuel no_stats targets.

End with_env.
End crawler.

(** * Vocabulary of the properties *)

Definition attempt (env : Env) (url : string) (n : nat) : outcome string :=
  crawler.response_text url (httpx_get env n url).

Definition retried (o : outcome string) : bool :=
  match o with Raise e => crawler.retry_if_exception_type e | _ => false end.

Definition after_calls (k : nat) (waits : list Z) (w : World) : World :=
  {| crawl_targets := crawl_targets w; job_postings := job_postings w;
     db_log := db_log w; clock_reads := clock_reads w;
     http_calls := k + http_calls w; sleeps := (sleeps w ++ waits)%list |}.


(** Every character, and the test that two texts part ways at some position
    both have. *)
Definition all_chars : list ascii := List.map ascii_of_nat (seq 0 256).

Fixpoint part_ways (a b : string) : bool :=
  match a, b with
  | String x a', String y b' => if Ascii.eqb x y then part_ways a' b' else true
  | _, _ => false
  end.

Definition starts_unquoted (s : string) : bool :=
  match s with
  | String x _ => negb (Ascii.eqb x Json.quote)
  | EmptyString => false
  end.

(** Job objects that carry a given (id, last-modified) pair and nothing else. *)
Definition toss_job (p : string * string) : TossJob :=
  {| tj_id := Some p.1; tj_updated_at := Some p.2; tj_absolute_url := None;
     tj_title := None; tj_metadata := None |}.

Definition kakao_job (p : string * string) : KakaoJob :=
  {| kj_realId := Some p.1; kj_uptDate := Some p.2; kj_jobOfferTitle := None;
     kj_companyName := None |}.

Definition daangn_job (p : Z * string) : DaangnJob :=
  {| dj_id := Some p.1; dj_updated_at := Some p.2; dj_title := None; dj_metadata := None |}.

(** From [w] to [w'] only [job_postings] was read or written: the rows of
    [crawl_targets] are the same and the log grew by posting requests. *)
Definition posting_traffic (w w' : World) : Prop :=
  crawl_targets w' = crawl_targets w
  ∧ (clock_reads w ≤ clock_reads w')%nat
  ∧ ∃ reqs, db_log w' = (db_log w ++ reqs)%list
            ∧ Forall (λ r, is_posting_request r = true) reqs.

(** The store between [w] and [w'] saw nothing at all. *)
Definition store_untouched (w w' : World) : Prop :=
  crawl_targets w' = crawl_targets w
  ∧ job_postings w' = job_postings w
  ∧ db_log w' = db_log w
  ∧ clock_reads w' = clock_reads w.

(** What the handlers of the API adapters make of the exception of a failed
    fetch: the first [except] clause that matches builds the message. *)
Definition api_error_msg (e : exn) : option string :=
  if is_RequestException e then Some ("Failed to fetch API: " +:+ exn_str e)
  else if is_JSONDecodeError e then Some ("Invalid JSON response: " +:+ exn_str e)
  else None.

(** The adapter of an API target fails for good with message [msg]: its fetch
    raises a [requests] or JSON decoding error, or the Toss payload does not
    say SUCCESS. *)
Inductive api_failure (env : Env) (fuel : nat) (target : CrawlTarget) (w : World)
    : string → Prop :=
| toss_fetch_fails (e : exn) (msg : string) :
    t_parser_type target = Some "toss_job_groups_api" →
    (requests_get_json (λ n, toss_get env n (t_list_url target)) (t_list_url target) w).1
      = Raise e →
    api_error_msg e = Some msg →
    api_failure env fuel target w msg
| toss_not_success (payload : TossPayload) :
    t_parser_type target = Some "toss_job_groups_api" →
    (requests_get_json (λ n, toss_get env n (t_list_url target)) (t_list_url target) w).1
      = Return payload →
    tp_resultType payload ≠ Some "SUCCESS" →
    api_failure env fuel target w
      ("API returned non-SUCCESS: " +:+ default "None" (tp_resultType payload))
| daangn_fetch_fails (e : exn) (msg : string) :
    t_parser_type target = Some "daangn_greenhouse_api" →
    (requests_get_json (λ n, daangn_get env n (t_list_url target)) (t_list_url target) w).1
      = Raise e →
    api_error_msg e = Some msg →
    api_failure env fuel target w msg
| kakao_fetch_fails (e : exn) (msg : string) :
    t_parser_type target = Some "kakao_api" →
    (kakao_api._fetch_all_jobs env fuel (t_list_url target) w).1 = Raise e →
    api_error_msg e = Some msg →
    api_failure env fuel target w msg.

(** The run over the target counted one ERROR, wrote [msg] to the
    [last_error] of the target and did nothing else to the store. *)
Definition error_recorded (target : CrawlTarget) (msg : string) (w : World)
    (result : outcome Stats * World) : Prop :=
  ∃ w', result = (Return (incr ERROR no_stats), w')
        ∧ db_log w' = (db_log w ++ [UpdateTargetError (t_id target) msg])%list
        ∧ crawl_targets w' = alter (db.set_error msg) (t_id target) (crawl_targets w)
        ∧ job_postings w' = job_postings w.

(** The run over the target counted one ERROR and left the store alone. *)
Definition error_counted_only (w : World) (result : outcome Stats * World) : Prop :=
  ∃ w', result = (Return (incr ERROR no_stats), w') ∧ store_untouched w w'.

(** The run over the target counted nothing and sent one request: the update
    of [last_checked_at] to the reading of the clock. *)
Definition only_checked (env : Env) (target : CrawlTarget) (w : World)
    (result : outcome Stats * World) : Prop :=
  ∃ w', result = (Return no_stats, w')
        ∧ db_log w' = (db_log w ++ [UpdateTargetChecked (t_id target)
                                      (utc_now_isoformat env (clock_reads w))])%list
        ∧ crawl_targets w'
          = alter (db.set_checked (utc_now_isoformat env (clock_reads w))) (t_id target)
              (crawl_targets w)
        ∧ job_postings w' = job_postings w.

(** The run over the target ended normally; its requests were posting
    requests for the items, and then, last and once, the update of
    [last_list_hash] to [h] with a reading of the clock ([n]) taken after all
    others. *)
Definition hash_persisted_once (env : Env) (target : CrawlTarget) (h : string) (w : World)
    (result : outcome Stats * World) : Prop :=
  ∃ stats w' reqs n,
    result = (Return stats, w')
    ∧ Forall (λ r, is_posting_request r = true) reqs
    ∧ (clock_reads w ≤ n)%nat ∧ clock_reads w' = S n
    ∧ db_log w' = (db_log w ++ reqs ++ [UpdateTargetHash (t_id target) h
                                          (utc_now_isoformat env n)])%list
    ∧ crawl_targets w'
      = alter (db.set_hash h (utc_now_isoformat env n)) (t_id target) (crawl_targets w).

(** The run went through [loop], the loop over the items, in the world [w1]
    its fetch left, and wrote the fingerprint in the world [w2] the loop
    left: it returns the counters of the loop, and to the requests of the
    loop it added one, the update of [last_list_hash] to [h] with the reading
    of the clock taken then; no posting and no HTTP call came after the
    loop. *)
Definition persisted_after (env : Env) (target : CrawlTarget) (h : string) (w1 : World)
    (loop : M Stats) (result : outcome Stats * World) : Prop :=
  ∃ stats w2 w3,
    loop w1 = (Return stats, w2)
    ∧ result = (Return stats, w3)
    ∧ db_log w3
      = (db_log w2 ++ [UpdateTargetHash (t_id target) h
                         (utc_now_isoformat env (clock_reads w2))])%list
    ∧ crawl_targets w3
      = alter (db.set_hash h (utc_now_isoformat env (clock_reads w2))) (t_id target)
          (crawl_targets w2)
    ∧ job_postings w3 = job_postings w2
    ∧ http_calls w3 = http_calls w2.

(** ** A small world to run the crawler in

    One site with an HTML list of two jobs, of which the second detail page
    answers 500; pages that answer 500 and 404; one endpoint per API vendor,
    with its failing variants. *)

Definition demo_list_html : string := "<ul><li>A</li><li>B</li></ul>".

Definition demo_parser (config : list (string * string)) : Parser :=
  {| parse_list := λ html,
       match config with
       | [] => inr [ {| ji_title := "A"; ji_url := "https://jobs.example/a";
                        ji_company_name := "" |};
                     {| ji_title := "B"; ji_url := "https://jobs.example/b";
                        ji_company_name := "" |} ]
       | _ => inl (Exn OtherException "Malformed selector")
       end;
     parse_detail := λ html, inr html;
     normalize_html := λ html, html |}.

Definition demo_toss_groups : list TossGroup :=
  [ {| tg_title := Some "Engineering";
       tg_primary_job :=
         Some {| tj_id := Some "1"; tj_updated_at := Some "t1";
                 tj_absolute_url := Some "https://toss.example/1";
                 tj_title := Some "Server Developer"; tj_metadata := None |} |};
    {| tg_title := Some "Design"; tg_primary_job := None |} ].

Definition demo_daangn_jobs : list DaangnJob :=
  [ {| dj_id := Some 7; dj_updated_at := Some "t1"; dj_title := Some "Backend";
       dj_metadata := Some [ {| me_name := Some "Corporate"; me_value := Some "Pay" |} ] |} ].

Definition demo_kakao_jobs : list KakaoJob :=
  [ {| kj_realId := Some "P-1"; kj_uptDate := Some "t1";
       kj_jobOfferTitle := Some "iOS"; kj_companyName := None |} ].

Definition demo_env : Env :=
  {| utc_now_isoformat := λ n, "T" +:+ pretty (Z.of_nat n);
     httpx_get := λ n url,
       if String.eqb url "https://jobs.example/list" then HttpxResponse 200 demo_list_html
       else if String.eqb url "https://jobs.example/a" then HttpxResponse 200 "<main>Job A</main>"
       else if String.eqb url "https://jobs.example/gone" then HttpxResponse 404 ""
       else HttpxResponse 500 "";
     toss_get := λ n url,
       if String.eqb url "https://toss.example/groups" then
         RequestsResponse 200
           (inr {| tp_resultType := Some "SUCCESS"; tp_success := Some demo_toss_groups |})
       else if String.eqb url "https://toss.example/fail" then
         RequestsResponse 200 (inr {| tp_resultType := Some "FAIL"; tp_success := None |})
       else if String.eqb url "https://toss.example/html" then
         RequestsResponse 200 (inl (Exn RequestsJSONDecodeError "Expecting value"))
       else RequestsResponse 503 (inl (Exn RequestsJSONDecodeError "Expecting value"));
     daangn_get := λ n url,
       if String.eqb url "https://daangn.example/jobs" then
         RequestsResponse 200 (inr {| dp_jobs := Some demo_daangn_jobs |})
       else RequestsFailure (Exn RequestsTimeout "Read timed out");
     kakao_get := λ n url part page,
       if String.eqb url "https://kakao.example/jobs" then
         RequestsResponse 200
           (inr {| kp_jobList :=
                     Some (if String.eqb part "TECHNOLOGY" then demo_kakao_jobs else []);
                   kp_totalPage := Some 1 |})
       else RequestsFailure (Exn RequestsConnectionError "Connection refused");
     GenericParser := demo_parser;
     toss_content_raw := λ group job meta, inr (default "" (tj_title job));
     daangn_content_raw := λ job meta, inr (default "" (dj_title job));
     kakao_content_raw := λ job, inr (default "" (kj_jobOfferTitle job)) |}.

Definition demo_target (i : Z) (url : string) (kind : string)
    (config : option (list (string * string))) (last_hash : option string) : CrawlTarget :=
  {| t_id := i; t_name := None; t_company_name := None; t_list_url := url;
     t_parser_type := Some kind; t_parser_config := config; t_is_active := true;
     t_last_list_hash := last_hash; t_last_checked_at := None; t_last_error := None |}.

Definition html_new : CrawlTarget :=
  demo_target 1 "https://jobs.example/list" "generic" None None.
Definition html_seen : CrawlTarget :=
  demo_target 2 "https://jobs.example/list" "generic" None
    (Some (crawler.compute_hash demo_list_html)).
Definition html_down : CrawlTarget :=
  demo_target 3 "https://jobs.example/down" "generic" None None.
Definition html_bad_selector : CrawlTarget :=
  demo_target 4 "https://jobs.example/list" "generic" (Some [("list_selector", "li[")]) None.
Definition html_wanted : CrawlTarget :=
  demo_target 5 "https://jobs.example/list" "wanted" None None.
Definition toss_new : CrawlTarget :=
  demo_target 6 "https://toss.example/groups" "toss_job_groups_api" None None.
Definition toss_seen : CrawlTarget :=
  demo_target 7 "https://toss.example/groups" "toss_job_groups_api" None
    (Some (toss_job_groups_api._compute_list_hash (omap tg_primary_job demo_toss_groups))).
Definition toss_unavailable : CrawlTarget :=
  demo_target 8 "https://toss.example/503" "toss_job_groups_api" None None.
Definition toss_fail : CrawlTarget :=
  demo_target 9 "https://toss.example/fail" "toss_job_groups_api" None None.
Definition daangn_new : CrawlTarget :=
  demo_target 10 "https://daangn.example/jobs" "daangn_greenhouse_api" None None.
Definition daangn_seen : CrawlTarget :=
  demo_target 11 "https://daangn.example/jobs" "daangn_greenhouse_api" None
    (Some (daangn_greenhouse_api._compute_list_hash demo_daangn_jobs)).
Definition daangn_down : CrawlTarget :=
  demo_target 12 "https://daangn.example/down" "daangn_greenhouse_api" None None.
Definition kakao_new : CrawlTarget :=
  demo_target 13 "https://kakao.example/jobs" "kakao_api" None None.
Definition kakao_seen : CrawlTarget :=
  demo_target 14 "https://kakao.example/jobs" "kakao_api" None
    (Some (kakao_api._compute_list_hash demo_kakao_jobs)).
Definition kakao_down : CrawlTarget :=
  demo_target 15 "https://kakao.example/down" "kakao_api" None None.

Definition demo_targets : list CrawlTarget :=
  [html_new; html_seen; html_down; html_bad_selector; html_wanted; toss_new; toss_seen;
   toss_unavailable; toss_fail; daangn_new; daangn_seen; daangn_down; kakao_new;
   kakao_seen; kakao_down].

Definition demo_posting : JobPosting :=
  {| p_crawl_target_id := 1; p_title := "A"; p_company_name := "";
     p_content_raw := "<main>Job A</main>"; p_original_url := "https://jobs.example/a";
     p_analysis_result := Some "senior"; p_created_at := "T-2"; p_updated_at := "T-1" |}.

(** The store before the first pass, and with one posting already in. *)
Definition demo_world : World :=
  {| crawl_targets := list_to_map (List.map (λ t, (t_id t, t)) demo_targets);
     job_postings := ∅; db_log := []; clock_reads := 0; http_calls := 0; sleeps := [] |}.

Definition demo_world_one : World :=
  {| crawl_targets := crawl_targets demo_world;
     job_postings := {[ "https://jobs.example/a" := demo_posting ]};
     db_log := []; clock_reads := 0; http_calls := 0; sleeps := [] |}.

(** * The fingerprints on job objects as [response.json()] decodes them

    The records above give the keys of a job the type the feeds give them.
    The three [_compute_list_hash] do not look at types: Toss and Kakao sort
    and dump whatever value stands under the two keys, Daangn takes [str] of
    the id first. Here they are once more, on dicts of decoded values. Of the
    values JSON has, [null], the booleans, the integers and the strings are
    modelled; floats, lists and dicts as values of the two keys are not. *)

Module decoded.

Inductive value : Type :=
| PyNone
| PyBool (b : bool)
| PyInt (n : Z)
| PyStr (s : string).

(** A decoded JSON object. *)
Definition job : Type := gmap string value.

(** [j.get(key, "")] *)
Definition get (j : job) (key : string) : value := default (PyStr "") (j !! key).

(** [bool] is a subclass of [int]: [True] is 1 and [False] is 0. *)
Definition as_number (v : value) : option Z :=
  match v with
  | PyBool b => Some (if b then 1 else 0)
  | PyInt n => Some n
  | _ => None
  end.

(** [a == b] *)
Definition py_eq (a b : value) : bool :=
  match a, b with
  | PyNone, PyNone => true
  | PyStr s, PyStr t => String.eqb s t
  | _, _ =>
      match as_number a, as_number b with
      | Some m, Some n => m =? n
      | _, _ => false
      end
  end.

(** [a < b]; [None] is the [TypeError] of two values that are not ordered. *)
Definition py_lt (a b : value) : option bool :=
  match a, b with
  | PyStr s, PyStr t => Some (String.ltb s t)
  | _, _ =>
      match as_number a, as_number b with
      | Some m, Some n => Some (m <? n)
      | _, _ => None
      end
  end.

(** [p < q] on 2-tuples: [<] at the first component where the two are not
    [==], and false when there is none. *)
Definition tuple_lt (p q : value * value) : option bool :=
  if py_eq p.1 q.1 then
    if py_eq p.2 q.2 then Some false else py_lt p.2 q.2
  else py_lt p.1 q.1.

(** Every two of the tuples are ordered, either way round. *)
Definition orderable (pairs : list (value * value)) : bool :=
  forallb (λ p, forallb (λ q, bool_decide (is_Some (tuple_lt p q))) pairs) pairs.

(** One step of a stable insertion: [p], which came later than all of
    [earlier], goes in front of the first tuple it is smaller than. *)
Fixpoint insort (p : value * value) (earlier : list (value * value))
    : list (value * value) :=
  match earlier with
  | [] => [p]
  | q :: rest =>
      match tuple_lt p q with
      | Some true => p :: q :: rest
      | _ => q :: insort p rest
      end
  end.

(** [sorted(pairs)]. The sort of Python is stable: of two tuples of which
    neither is smaller, the earlier one stays first. When every two tuples
    are ordered that fixes the result, which is given here. When two of them
    are not, a [TypeError] is raised if and only if the sort comes to compare
    such a pair; that case is not modelled and is [None]. *)
Definition sorted (pairs : list (value * value)) : option (list (value * value)) :=
  if orderable pairs then Some (fold_left (λ earlier p, insort p earlier) pairs [])
  else None.

(** [str(v)] *)
Definition str (v : value) : string :=
  match v with
  | PyNone => "None"
  | PyBool true => "True"
  | PyBool false => "False"
  | PyInt n => pretty n
  | PyStr s => s
  end.

(** [json.dumps] of a value and of a list of 2-tuples, which are dumped as
    lists. *)
Definition dumps_value (v : value) : string :=
  match v with
  | PyNone => "null"
  | PyBool true => "true"
  | PyBool false => "false"
  | PyInt n => pretty n
  | PyStr s => Json.dumps_str s
  end.

Definition dumps_pair (p : value * value) : string :=
  "[" +:+ dumps_value p.1 +:+ ", " +:+ dumps_value p.2 +:+ "]".

Definition dumps_pairs (pairs : list (value * value)) : string :=
  "[" +:+ Json.join (List.map dumps_pair pairs) +:+ "]".

(** Sort the pairs, dump them, hash the UTF-8 bytes. *)
Definition hash_pairs (pairs : list (value * value)) : option string :=
  match sorted pairs with
  | Some in_order => Some (Sha256.hexdigest (encode_utf8 (dumps_pairs in_order)))
  | None => None
  end.

Module toss_job_groups_api.
Definition _compute_list_hash (jobs : list job) : option string :=
  hash_pairs (List.map (λ j, (get j "id", get j "updated_at")) jobs).
End toss_job_groups_api.

Module daangn_greenhouse_api.
Definition _compute_list_hash (jobs : list job) : option string :=
  hash_pairs (List.map (λ j, (PyStr (str (get j "id")), get j "updated_at")) jobs).
End daangn_greenhouse_api.

Module kakao_api.
Definition _compute_list_hash (jobs : list job) : option string :=
  hash_pairs (List.map (λ j, (get j "realId", get j "uptDate")) jobs).
End kakao_api.

(** The value under [key] is a string, or the key is absent. *)
Definition text_at (key : string) (j : job) : Prop :=
  match j !! key with
  | Some (PyStr _) | None => True
  | Some _ => False
  end.

Global Instance text_at_dec key j : Decision (text_at key j).
Proof. unfold text_at. destruct (j !! key) as [[]|]; apply _. Defined.







End decoded.


(** * Further vocabulary: what a pass keeps and what it counts *)

(** The fields of a posting that no request of the crawler writes. *)
Definition keeps_posting (p p' : JobPosting) : Prop :=
  p_crawl_target_id p' = p_crawl_target_id p
  ∧ p_original_url p' = p_original_url p
  ∧ p_analysis_result p' = p_analysis_result p
  ∧ p_created_at p' = p_created_at p.

(** The fields of a target that no request of the crawler writes. *)
Definition keeps_target (t t' : CrawlTarget) : Prop :=
  t_id t' = t_id t
  ∧ t_name t' = t_name t
  ∧ t_company_name t' = t_company_name t
  ∧ t_list_url t' = t_list_url t
  ∧ t_parser_type t' = t_parser_type t
  ∧ t_parser_config t' = t_parser_config t
  ∧ t_is_active t' = t_is_active t.

(** [w'] comes after [w]: the same targets are there with their
    configuration, every posting is still there with its owner, URL, analysis
    result and creation time, the log and the sleeps only grew at the end, and
    the counters of clock readings and HTTP calls did not go back. *)
Definition comes_after (w w' : World) : Prop :=
  (∀ i, match crawl_targets w !! i, crawl_targets w' !! i with
        | Some t, Some t' => keeps_target t t'
        | None, None => True
        | _, _ => False
        end)
  ∧ (∀ url p, job_postings w !! url = Some p →
       ∃ p', job_postings w' !! url = Some p' ∧ keeps_posting p p')
  ∧ (∃ reqs, db_log w' = (db_log w ++ reqs)%list)
  ∧ (∃ waits, sleeps w' = (sleeps w ++ waits)%list)
  ∧ (clock_reads w ≤ clock_reads w')%nat
  ∧ (http_calls w ≤ http_calls w')%nat.

(** Whatever comes of [m], the world it leaves is related by [R] to the one
    it found. *)
Definition leaves {A : Type} (R : World → World → Prop) (m : M A) : Prop :=
  ∀ w, R w (m w).2.



(** From [w] to [w'] no request went to [job_postings]. *)
Definition untallied (w w' : World) : Prop :=
  job_postings w' = job_postings w
  ∧ ∃ reqs, db_log w' = (db_log w ++ reqs)%list
            ∧ Forall (λ r, is_posting_request r = false) reqs.




(** The items of a run that were counted, under one counter or another. *)
Definition counted (s : Stats) : Z := s_NEW s + s_UPDATED s + s_SKIP s + s_ERROR s.

(** The items that the loop of an API adapter does not pass over: a Toss group
    with a primary job that has a non-empty [absolute_url], a Daangn job with
    an [id] other than 0, a Kakao job with a non-empty [realId]. *)
Definition toss_has_url (group : TossGroup) : bool :=
  match tg_primary_job group with
  | Some job => match tj_absolute_url job with Some url => nonempty url | None => false end
  | None => false
  end.

Definition daangn_has_id (job : DaangnJob) : bool :=
  match dj_id job with Some job_id => negb (job_id =? 0) | None => false end.

Definition kakao_has_id (job : KakaoJob) : bool :=
  match kj_realId job with Some real_id => nonempty real_id | None => false end.

(** A loop body that returns with one more item counted when [keeps x], and
    with the counters as they were otherwise. *)
Definition counts_when {A : Type} (keeps : A → bool) (body : A → Stats → M Stats) : Prop :=
  ∀ x s w, ∃ s' w', body x s w = (Return s', w')
                    ∧ counted s' = counted s + (if keeps x then 1 else 0).

(** The pages [_fetch_all_jobs] asks for when a part reports [total_page]
    pages: page 1 in any case, then up to the last. *)
Definition pages_from (page : Z) (count : nat) : list Z :=
  List.map (λ i, page + Z.of_nat i) (seq 0 count).

Definition pages_of (total_page : Z) : list Z :=
  pages_from 1 (Z.to_nat (Z.max 1 total_page)).

(** A Kakao server that answers every request for [url] with the jobs of the
    page asked for and the number of pages of the part. *)
Definition kakao_serves (env : Env) (url : string)
    (jobs : string → Z → list KakaoJob) (total : string → Z) : Prop :=
  ∀ n part page,
    kakao_get env n url part page
    = RequestsResponse 200
        (inr {| kp_jobList := Some (jobs part page); kp_totalPage := Some (total part) |}).

(** A Kakao server that, for the first part, always reports a page after the
    one asked for. *)
Definition kakao_never_ends (env : Env) (url : string) : Prop :=
  ∀ n page, ∃ job_list total_page,
    kakao_get env n url "TECHNOLOGY" page
    = RequestsResponse 200
        (inr {| kp_jobList := job_list; kp_totalPage := Some total_page |})
    ∧ page < total_page.

(** A server with three pages of technology jobs and nothing else. *)
Definition paged_env : Env :=
  {| utc_now_isoformat := utc_now_isoformat demo_env;
     httpx_get := httpx_get demo_env;
     toss_get := toss_get demo_env;
     daangn_get := daangn_get demo_env;
     kakao_get := λ n url part page,
       RequestsResponse 200
         (inr {| kp_jobList :=
                   Some (if String.eqb part "TECHNOLOGY"
                         then [kakao_job ("P-" +:+ pretty page, "t1")] else []);
                 kp_totalPage := Some (if String.eqb part "TECHNOLOGY" then 3 else 0) |});
     GenericParser := GenericParser demo_env;
     toss_content_raw := toss_content_raw demo_env;
     daangn_content_raw := daangn_content_raw demo_env;
     kakao_content_raw := kakao_content_raw demo_env |}.

(** A server whose technology part always has one more page. *)
Definition endless_env : Env :=
  {| utc_now_isoformat := utc_now_isoformat demo_env;
     httpx_get := httpx_get demo_env;
     toss_get := toss_get demo_env;
     daangn_get := daangn_get demo_env;
     kakao_get := λ n url part page,
       RequestsResponse 200 (inr {| kp_jobList := Some []; kp_totalPage := Some (page + 1) |});
     GenericParser := GenericParser demo_env;
     toss_content_raw := toss_content_raw demo_env;
     daangn_content_raw := daangn_content_raw demo_env;
     kakao_content_raw := kakao_content_raw demo_env |}.

(** The test [m.get("name") == name] on a metadata entry. *)
Definition named (name : string) (m : MetaEntry) : bool :=
  bool_decide (me_name m = Some name).

(** The last entry of a metadata list that carries the name [name]. *)
Definition last_named (name : string) (metadata : option (list MetaEntry))
    : option MetaEntry :=
  last (List.filter (named name) (default [] metadata)).

(** From [w] to [w'] nothing went over the network and nothing waited. *)
Definition offline (w w' : World) : Prop :=
  http_calls w' = http_calls w ∧ sleeps w' = sleeps w.

(** From [w] to [w'] the program did not wait. *)
Definition unslept (w w' : World) : Prop := sleeps w' = sleeps w.

(** From [w] to [w'] the program waited only between the attempts of a
    fetch: every wait is of 2 or of 4 seconds, and there are no more waits
    than HTTP calls. *)
Definition paced (w w' : World) : Prop :=
  ∃ waits,
    sleeps w' = (sleeps w ++ waits)%list
    ∧ Forall (λ seconds, seconds = 2 ∨ seconds = 4) waits
    ∧ (http_calls w + List.length waits ≤ http_calls w')%nat.

(** A Toss server whose answer makes [requests.get] raise an exception that
    is neither a [RequestException] nor a JSON decoding error. *)
Definition interrupted_env : Env :=
  {| utc_now_isoformat := utc_now_isoformat demo_env;
     httpx_get := httpx_get demo_env;
     toss_get := λ n url, RequestsFailure (Exn OtherException "interrupted");
     daangn_get := daangn_get demo_env;
     kakao_get := kakao_get demo_env;
     GenericParser := GenericParser demo_env;
     toss_content_raw := toss_content_raw demo_env;
     daangn_content_raw := daangn_content_raw demo_env;
     kakao_content_raw := kakao_content_raw demo_env |}.

(** Servers whose feeds have nothing in them: a Toss payload without the
    [success] key, a Daangn payload with no jobs, Kakao pages without a list. *)
Definition empty_env : Env :=
  {| utc_now_isoformat := utc_now_isoformat demo_env;
     httpx_get := httpx_get demo_env;
     toss_get := λ n url,
       RequestsResponse 200 (inr {| tp_resultType := Some "SUCCESS"; tp_success := None |});
     daangn_get := λ n url, RequestsResponse 200 (inr {| dp_jobs := Some [] |});
     kakao_get := λ n url part page,
       RequestsResponse 200 (inr {| kp_jobList := None; kp_totalPage := None |});
     GenericParser := GenericParser demo_env;
     toss_content_raw := toss_content_raw demo_env;
     daangn_content_raw := daangn_content_raw demo_env;
     kakao_content_raw := kakao_content_raw demo_env |}.



(** The marks that requests leave on a target: none that is there in [t] is
    missing in [t']. *)
Definition keeps_marks (t t' : CrawlTarget) : Prop :=
  (is_Some (t_last_error t) → is_Some (t_last_error t'))
  ∧ (is_Some (t_last_list_hash t) → is_Some (t_last_list_hash t'))
  ∧ (is_Some (t_last_checked_at t) → is_Some (t_last_checked_at t')).

(** From [w] to [w'] every target kept its marks. *)
Definition marks_stay (w w' : World) : Prop :=
  ∀ i t, crawl_targets w !! i = Some t →
    ∃ t', crawl_targets w' !! i = Some t' ∧ keeps_marks t t'.

(** A Kakao server that answers like [kakao_serves] but for one page of one
    part, on which the request fails with [e]. *)
Definition kakao_fails_at (env : Env) (url : string)
    (jobs : string → Z → list KakaoJob) (total : string → Z)
    (bad_part : string) (bad_page : Z) (e : exn) : Prop :=
  ∀ n part page,
    kakao_get env n url part page
    = if bool_decide (part = bad_part ∧ page = bad_page) then RequestsFailure e
      else RequestsResponse 200
             (inr {| kp_jobList := Some (jobs part page);
                     kp_totalPage := Some (total part) |}).

(** Three pages of technology jobs and one page of design jobs, of which the
    request for the latter times out. *)
Definition flaky_env : Env :=
  {| utc_now_isoformat := utc_now_isoformat demo_env;
     httpx_get := httpx_get demo_env;
     toss_get := toss_get demo_env;
     daangn_get := daangn_get demo_env;
     kakao_get := λ n url part page,
       if bool_decide (part = "DESIGN" ∧ page = 1)
       then RequestsFailure (Exn RequestsTimeout "Read timed out")
       else RequestsResponse 200
              (inr {| kp_jobList :=
                        Some (if String.eqb part "TECHNOLOGY"
                              then [kakao_job ("P-" +:+ pretty page, "t1")] else []);
                      kp_totalPage := Some (if String.eqb part "TECHNOLOGY" then 3 else 1) |});
     GenericParser := GenericParser demo_env;
     toss_content_raw := toss_content_raw demo_env;
     daangn_content_raw := daangn_content_raw demo_env;
     kakao_content_raw := kakao_content_raw demo_env |}.
(** * Checks of the embedding on known values *)

Example sha_abc : Sha256.hexdigest (encode_utf8 "abc")
  = "ba7816bf8f01cfea414140de5dae2223b00361a396177a9cb410ff61f20015ad".
Proof. vm_compute. reflexivity. Qed.

Example sha_empty : Sha256.hexdigest (encode_utf8 "")
  = "e3b0c44298fc1c149afbf4c8996fb92427ae41e4649b934ca495991b7852b855".
Proof. vm_compute. reflexivity. Qed.

Example sha_two_blocks :
  Sha256.hexdigest (encode_utf8 "abcdbcdecdefdefgefghfghighijhijkijkljklmklmnlmnomnopnopq")
  = "248d6a61d20638b8e5c026930c3e6039a33ce45964ff2167f6ecedd419db06c1".
Proof. vm_compute. reflexivity. Qed.

Example dumps_escapes :
  Json.dumps_pairs [("a" +:+ String Json.quote (String "\" (String "010" (String "127" (String "233" "")))), "")]
  = "[[" +:+ String Json.quote ("a\" +:+ String Json.quote ("\\\n\u007f\u00e9" +:+
      String Json.quote (", " +:+ String Json.quote (String Json.quote "]]")))).
Proof. vm_compute. reflexivity. Qed.

Example hash_pairs_sorted :
  hash_pairs [("b", "x"); ("a", "y")]
  = "7dab8e5ecc394a1e0d6ad5152931aba2cd9f9cff491fb7ae3cb0458256ec4d65".
Proof. vm_compute. reflexivity. Qed.

Example hash_pairs_empty :
  hash_pairs [] = "4f53cda18c2baa0c0354bb5f9a3ecbe5ed12ab4d8e11ba873c2f11161202b945".
Proof. vm_compute. reflexivity. Qed.


(** One pass over the demo targets: four postings are new (one per source
    with news), eight runs or items fail. *)
Example pass_over_demo :
  (crawler.crawl_all demo_env 2 demo_targets demo_world).1
  = Return {| s_NEW := 4; s_UPDATED := 0; s_SKIP := 0; s_ERROR := 8 |}.
Proof. vm_compute. reflexivity. Qed.

(** The scenario of the specification: three jobs A, B, C last modified at
    t1 have one fingerprint in any order, and another once B moves to t2. *)
Example fingerprint_scenario :
  toss_job_groups_api._compute_list_hash
    [toss_job ("A", "t1"); toss_job ("B", "t1"); toss_job ("C", "t1")]
  = toss_job_groups_api._compute_list_hash
      [toss_job ("C", "t1"); toss_job ("A", "t1"); toss_job ("B", "t1")]
  ∧ toss_job_groups_api._compute_list_hash
      [toss_job ("A", "t1"); toss_job ("B", "t1"); toss_job ("C", "t1")]
    ≠ toss_job_groups_api._compute_list_hash
        [toss_job ("A", "t1"); toss_job ("B", "t2"); toss_job ("C", "t1")].
Proof. split; [vm_compute; reflexivity|vm_compute; discriminate]. Qed.

(** A second pass over an HTML target that was new: nothing upstream moved,
    the fingerprint is the stored one and no item is counted. *)
Example second_pass_is_quiet :
  let w1 := (crawler.crawl_target demo_env 1 html_new demo_world).2 in
  let seen := default html_new (crawl_targets w1 !! 1) in
  (crawler.crawl_target demo_env 1 seen w1).1 = Return no_stats.
Proof. vm_compute. reflexivity. Qed.
Lemma fetch_url_unrolled env url w :
  crawler.fetch_url env url w =
    let n := http_calls w in
    if retried (attempt env url n) then
      if retried (attempt env url (S n)) then
        (attempt env url (S (S n)), after_calls 3 [2; 4] w)
      else (attempt env url (S n), after_calls 2 [2] w)
    else (attempt env url n, after_calls 1 [] w).
Proof.
  unfold crawler.fetch_url, after_calls, attempt, retried.
  change (Z.to_nat config.MAX_RETRIES) with 3%nat.
  unfold crawler.retrying, crawler.fetch_once, mbind, M_bind, crawler.sleep.
  cbn -[crawler.response_text crawler.retry_if_exception_type
        crawler.wait_exponential crawler.stop_after_attempt].
  change (crawler.stop_after_attempt config.MAX_RETRIES 1) with false.
  change (crawler.stop_after_attempt config.MAX_RETRIES (1 + 1)) with false.
  change (crawler.stop_after_attempt config.MAX_RETRIES (1 + 1 + 1)) with true.
  change (crawler.wait_exponential config.RETRY_DELAY 1 10 1) with 2.
  change (crawler.wait_exponential config.RETRY_DELAY 1 10 (1 + 1)) with 4.
  cbn -[crawler.response_text crawler.retry_if_exception_type].
  rewrite app_nil_r, <- app_assoc. cbn [app].
  destruct (crawler.response_text url (httpx_get env (http_calls w) url)) as [a|e|];
    try reflexivity.
  destruct (crawler.retry_if_exception_type e); [|reflexivity].
  destruct (crawler.response_text url (httpx_get env (S (http_calls w)) url)) as [a2|e2|];
    try reflexivity.
  destruct (crawler.retry_if_exception_type e2); [|reflexivity].
  destruct (crawler.response_text url (httpx_get env (S (S (http_calls w))) url)) as [a3|e3|];
    try reflexivity.
  destruct (crawler.retry_if_exception_type e3); reflexivity.
Qed.

(** ** The reconciler *)

Ltac unfold_db :=
  unfold db.upsert_job_posting, db.update_target_checked, db.update_target_hash,
    db.update_target_error, db.select_posting, db.now, db.execute,
    mbind, M_bind, mret, M_ret.

(** C5. A posting stored under the URL with the very content that comes in:
    [upsert_job_posting] answers SKIP, sends the select and nothing else, and
    leaves both tables as they were. *)
Theorem upsert_same_content_skips env target_id title company_name content_raw
    original_url (w : World) (row : JobPosting) :
  job_postings w !! original_url = Some row →
  p_content_raw row = content_raw →
  ∃ w', db.upsert_job_posting env target_id title company_name content_raw original_url w
          = (Return SKIP, w')
        ∧ job_postings w' = job_postings w
        ∧ crawl_targets w' = crawl_targets w
        ∧ db_log w' = (db_log w ++ [SelectPosting original_url])%list
        ∧ Forall (λ r, is_write r = false) [SelectPosting original_url].
Proof.
  intros Hrow Hsame. unfold_db. cbn. rewrite Hrow. cbn.
  rewrite Hsame, String.eqb_refl.
  eexists. split; [reflexivity|]. cbn. repeat split. repeat constructor.
Qed.

(** C6. No posting under the URL: [upsert_job_posting] answers NEW and
    inserts one row with the fields given, whose two timestamps are the same
    clock reading. *)
Theorem upsert_new_url_inserts env target_id title company_name content_raw
    original_url (w : World) :
  job_postings w !! original_url = None →
  ∃ w' row,
    db.upsert_job_posting env target_id title company_name content_raw original_url w
      = (Return NEW, w')
    ∧ row = {| p_crawl_target_id := target_id; p_title := title;
               p_company_name := company_name; p_content_raw := content_raw;
               p_original_url := original_url; p_analysis_result := None;
               p_created_at := utc_now_isoformat env (clock_reads w);
               p_updated_at := utc_now_isoformat env (clock_reads w) |}
    ∧ p_created_at row = p_updated_at row
    ∧ job_postings w' = <[original_url := row]> (job_postings w)
    ∧ size (job_postings w') = S (size (job_postings w))
    ∧ crawl_targets w' = crawl_targets w
    ∧ db_log w' = (db_log w ++ [SelectPosting original_url; InsertPosting row])%list.
Proof.
  intros Hnone. unfold_db. cbn. rewrite Hnone. cbn.
  eexists. eexists. split; [reflexivity|]. cbn.
  split; [reflexivity|]. split; [reflexivity|]. split; [reflexivity|].
  split; [by apply map_size_insert_None|]. split; [reflexivity|].
  by rewrite <- app_assoc.
Qed.

(** C7. A posting under the URL with another content: [upsert_job_posting]
    answers UPDATED; the row gets the new title, company name, content and
    update time and keeps its creation time, target id, URL and analysis
    result; no other row and no target changes. *)
Theorem upsert_changed_content_updates env target_id title company_name content_raw
    original_url (w : World) (row : JobPosting) :
  job_postings w !! original_url = Some row →
  p_content_raw row ≠ content_raw →
  ∃ w' row',
    db.upsert_job_posting env target_id title company_name content_raw original_url w
      = (Return UPDATED, w')
    ∧ job_postings w' !! original_url = Some row'
    ∧ p_title row' = title
    ∧ p_company_name row' = company_name
    ∧ p_content_raw row' = content_raw
    ∧ p_updated_at row' = utc_now_isoformat env (clock_reads w)
    ∧ p_created_at row' = p_created_at row
    ∧ p_crawl_target_id row' = p_crawl_target_id row
    ∧ p_original_url row' = p_original_url row
    ∧ p_analysis_result row' = p_analysis_result row
    ∧ (∀ url, url ≠ original_url → job_postings w' !! url = job_postings w !! url)
    ∧ crawl_targets w' = crawl_targets w
    ∧ db_log w' = (db_log w ++ [SelectPosting original_url;
                                UpdatePosting original_url title company_name content_raw
                                  (utc_now_isoformat env (clock_reads w))])%list.
Proof.
  intros Hrow Hdiff. unfold_db. cbn. rewrite Hrow. cbn.
  apply String.eqb_neq in Hdiff. rewrite Hdiff. cbn.
  eexists. exists (db.set_content title company_name content_raw
                     (utc_now_isoformat env (clock_reads w)) row).
  split; [reflexivity|]. cbn.
  split; [by rewrite lookup_alter_eq, Hrow|].
  repeat (split; [reflexivity|]).
  split; [intros url Hne; by rewrite lookup_alter_ne|].
  split; [reflexivity|]. by rewrite <- app_assoc.
Qed.

(** ** The order of [sorted] *)

Lemma ltb_false_le (s t : string) : String.ltb s t = false ↔ String.le t s.
Proof.
  unfold String.le, String.ltb, String.leb.
  rewrite (String.compare_antisym s t).
  destruct (String.compare t s); cbn; split; intros H; done.
Qed.

Lemma stays_before_lex (p q : string * string) :
  stays_before p q ↔ (p.1 = q.1 ∧ String.le p.2 q.2) ∨ (p.1 ≠ q.1 ∧ String.le p.1 q.1).
Proof.
  unfold stays_before, tuple_lt.
  destruct (String.eqb_spec q.1 p.1) as [Heq|Hne]; rewrite ltb_false_le.
  - split; [intros H; left; by split|].
    intros [[_ H]|[Hne _]]; [done|by destruct Hne].
  - split; [intros H; right; split; [congruence|done]|].
    intros [[Heq _]|[_ H]]; [by destruct Hne|done].
Qed.

Global Instance stays_before_total : Total stays_before.
Proof.
  intros p q. rewrite !stays_before_lex.
  destruct (decide (p.1 = q.1)) as [Heq|Hne].
  - destruct (total String.le p.2 q.2); [left; left|right; left]; by split.
  - destruct (total String.le p.1 q.1); [left; right|right; right]; split; congruence.
Qed.

Global Instance stays_before_antisym : AntiSymm (=) stays_before.
Proof.
  intros [p1 p2] [q1 q2]. rewrite !stays_before_lex. cbn.
  intros [[-> H1]|[Hne H1]] [[Heq H2]|[Hne' H2]]; try congruence.
  - f_equal. by apply (anti_symm String.le).
  - destruct Hne. by apply (anti_symm String.le).
Qed.

Global Instance stays_before_trans : Transitive stays_before.
Proof.
  intros [p1 p2] [q1 q2] [r1 r2]. rewrite !stays_before_lex. cbn.
  intros [[-> H1]|[Hne H1]] [[-> H2]|[Hne' H2]].
  - left. split; [done|by etrans].
  - right. by split.
  - right. by split.
  - right. split; [|by etrans].
    intros ->. destruct Hne. by apply (anti_symm String.le).
Qed.

Lemma sorted_permutation (l1 l2 : list (string * string)) :
  l1 ≡ₚ l2 → sorted l1 = sorted l2.
Proof.
  intros Hperm. unfold sorted.
  apply (Sorted_unique stays_before); try apply Sorted_merge_sort; try apply _.
  by rewrite !merge_sort_Permutation.
Qed.

Lemma sorted_is_permutation (l : list (string * string)) : sorted l ≡ₚ l.
Proof. apply merge_sort_Permutation. Qed.

(** ** [json.dumps] loses nothing *)

Lemma in_all_chars (c : ascii) : In c all_chars.
Proof.
  unfold all_chars. rewrite <- (ascii_nat_embedding c).
  apply in_map, in_seq. pose proof (nat_ascii_bounded c). lia.
Qed.

Lemma append_cons (x : ascii) (a b : string) : String x a +:+ b = String x (a +:+ b).
Proof. reflexivity. Qed.

Lemma append_nil_l (b : string) : "" +:+ b = b.
Proof. reflexivity. Qed.

Lemma cons_inj (x : ascii) (a b : string) : String x a = String x b → a = b.
Proof. intros H. by injection H. Qed.

Lemma append_assoc (a b c : string) : (a +:+ b) +:+ c = a +:+ (b +:+ c).
Proof. induction a as [|x a IH]; [done|]. by rewrite !append_cons, IH. Qed.

Ltac flatten :=
  repeat (rewrite append_assoc || rewrite append_cons || rewrite append_nil_l).
Ltac flatten_in H :=
  repeat (rewrite append_assoc in H || rewrite append_cons in H || rewrite append_nil_l in H).

Lemma part_ways_append (a b r1 r2 : string) :
  part_ways a b = true → a +:+ r1 ≠ b +:+ r2.
Proof.
  revert b. induction a as [|x a IH]; intros [|y b]; cbn [part_ways]; try done.
  rewrite !append_cons.
  destruct (Ascii.eqb_spec x y) as [->|Hne]; intros Hpw Heq.
  - injection Heq as Heq. by apply (IH b).
  - injection Heq as Hxy _. done.
Qed.

Lemma escape_char_code :
  forallb (λ c, forallb (λ d, Ascii.eqb c d
                              || part_ways (Json.escape_char c) (Json.escape_char d))
                        all_chars) all_chars = true.
Proof. vm_compute. reflexivity. Qed.

Lemma escape_char_unquoted :
  forallb (λ c, starts_unquoted (Json.escape_char c)) all_chars = true.
Proof. vm_compute. reflexivity. Qed.

Lemma escape_char_inj (c d : ascii) (r1 r2 : string) :
  Json.escape_char c +:+ r1 = Json.escape_char d +:+ r2 → c = d ∧ r1 = r2.
Proof.
  intros Heq.
  pose proof escape_char_code as Hcode.
  rewrite forallb_forall in Hcode. specialize (Hcode c (in_all_chars c)).
  rewrite forallb_forall in Hcode. specialize (Hcode d (in_all_chars d)).
  apply orb_true_iff in Hcode as [Hcd|Hpw].
  - apply Ascii.eqb_eq in Hcd as ->. split; [done|]. by apply (inj (String.app _)) in Heq.
  - by destruct (part_ways_append _ _ r1 r2 Hpw).
Qed.

Lemma escape_char_not_quote (c : ascii) (r1 r2 : string) :
  Json.escape_char c +:+ r1 ≠ String Json.quote r2.
Proof.
  pose proof escape_char_unquoted as Hall.
  rewrite forallb_forall in Hall. specialize (Hall c (in_all_chars c)).
  destruct (Json.escape_char c) as [|x s]; [done|]. cbn in Hall.
  rewrite append_cons. intros Heq. injection Heq as -> _.
  by rewrite Ascii.eqb_refl in Hall.
Qed.

Lemma escape_inj (a b r1 r2 : string) :
  Json.escape a +:+ String Json.quote r1 = Json.escape b +:+ String Json.quote r2 →
  a = b ∧ r1 = r2.
Proof.
  revert b. induction a as [|c a IH]; intros [|d b]; cbn [Json.escape]; flatten.
  - intros Heq. by injection Heq.
  - intros Heq. symmetry in Heq. by destruct (escape_char_not_quote _ _ _ Heq).
  - intros Heq. by destruct (escape_char_not_quote _ _ _ Heq).
  - intros Heq.
    apply escape_char_inj in Heq as [-> Heq]. apply IH in Heq as [-> ->]. done.
Qed.

Lemma dumps_str_inj (a b r1 r2 : string) :
  Json.dumps_str a +:+ r1 = Json.dumps_str b +:+ r2 → a = b ∧ r1 = r2.
Proof.
  unfold Json.dumps_str. flatten.
  intros Heq. injection Heq as Heq. by apply escape_inj.
Qed.

Lemma dumps_pair_append (a b r : string) :
  Json.dumps_pair (a, b) +:+ r
  = String "[" (Json.dumps_str a +:+ String "," (String " " (Json.dumps_str b +:+ String "]" r))).
Proof.
  unfold Json.dumps_pair. cbn [fst snd].
  generalize (Json.dumps_str a) (Json.dumps_str b). intros A B. by flatten.
Qed.

Lemma dumps_pair_inj (p q : string * string) (r1 r2 : string) :
  Json.dumps_pair p +:+ r1 = Json.dumps_pair q +:+ r2 → p = q ∧ r1 = r2.
Proof.
  destruct p as [a b], q as [c d]. rewrite !dumps_pair_append.
  intros Heq. apply cons_inj in Heq.
  apply dumps_str_inj in Heq as [-> Heq].
  do 2 apply cons_inj in Heq.
  apply dumps_str_inj in Heq as [-> Heq].
  apply cons_inj in Heq as ->. done.
Qed.

Lemma dumps_pair_open (p : string * string) : ∃ s, Json.dumps_pair p = String "[" s.
Proof.
  destruct p as [a b]. unfold Json.dumps_pair. rewrite append_cons. by eexists.
Qed.

Lemma join_dumps_inj (l1 l2 : list (string * string)) (r1 r2 : string) :
  Json.join (List.map Json.dumps_pair l1) +:+ String "]" r1
  = Json.join (List.map Json.dumps_pair l2) +:+ String "]" r2 →
  l1 = l2.
Proof.
  revert l2. induction l1 as [|p l1 IH]; intros [|q l2].
  - done.
  - cbn [List.map Json.join]. destruct (dumps_pair_open q) as [s ->].
    destruct (List.map Json.dumps_pair l2); flatten; discriminate.
  - cbn [List.map Json.join]. destruct (dumps_pair_open p) as [s ->].
    destruct (List.map Json.dumps_pair l1); flatten; discriminate.
  - destruct l1 as [|p' l1], l2 as [|q' l2]; cbn [List.map Json.join] in *.
    + intros Heq. by apply dumps_pair_inj in Heq as [-> _].
    + rewrite !append_assoc. intros Heq. apply dumps_pair_inj in Heq as [_ Heq].
      flatten_in Heq. discriminate.
    + rewrite !append_assoc. intros Heq. apply dumps_pair_inj in Heq as [_ Heq].
      flatten_in Heq. discriminate.
    + rewrite !append_assoc. intros Heq. apply dumps_pair_inj in Heq as [-> Heq].
      flatten_in Heq. injection Heq as Heq.
      f_equal. apply (IH (q' :: l2)). cbn [List.map Json.join]. by flatten.
Qed.

Lemma dumps_pairs_inj (l1 l2 : list (string * string)) :
  Json.dumps_pairs l1 = Json.dumps_pairs l2 → l1 = l2.
Proof.
  unfold Json.dumps_pairs. flatten. intros Heq. injection Heq as Heq.
  by apply (join_dumps_inj l1 l2 "" "").
Qed.

(** ** The fingerprint of the API adapters *)

Lemma toss_pairs_of_jobs (l : list (string * string)) :
  toss_job_groups_api.pairs (List.map toss_job l) = l.
Proof.
  unfold toss_job_groups_api.pairs. rewrite List.map_map. cbn.
  induction l as [|[a b] l IH]; cbn; [done|by rewrite IH].
Qed.

(** C3, as the code has it. The text that is hashed is the same for two lists
    of pairs exactly when one list is a permutation of the other: when they
    hold the same pairs the same number of times. Permuted lists therefore
    have the same digest, for the pairs themselves and for Toss jobs that
    carry them. *)
Theorem list_hash_tracks_multiset (l1 l2 : list (string * string)) :
  (list_content l1 = list_content l2 ↔ l1 ≡ₚ l2)
  ∧ (l1 ≡ₚ l2 → hash_pairs l1 = hash_pairs l2)
  ∧ (l1 ≡ₚ l2 →
     toss_job_groups_api._compute_list_hash (List.map toss_job l1)
     = toss_job_groups_api._compute_list_hash (List.map toss_job l2)).
Proof.
  assert (Hsame : l1 ≡ₚ l2 → hash_pairs l1 = hash_pairs l2).
  { intros Hperm. unfold hash_pairs, list_content. by rewrite (sorted_permutation l1 l2). }
  split; [split|split].
  - unfold list_content. intros Heq. apply dumps_pairs_inj in Heq.
    rewrite <- (sorted_is_permutation l1), <- (sorted_is_permutation l2). by rewrite Heq.
  - intros Hperm. unfold list_content. by rewrite (sorted_permutation l1 l2).
  - done.
  - intros Hperm. unfold toss_job_groups_api._compute_list_hash.
    rewrite !toss_pairs_of_jobs. by apply Hsame.
Qed.

Lemma list_hash_tracks_multiset_witness :
  hash_pairs [("a", "1"); ("b", "2")] = hash_pairs [("b", "2"); ("a", "1")].
Proof.
  apply (list_hash_tracks_multiset [("a", "1"); ("b", "2")] [("b", "2"); ("a", "1")]).
  apply Permutation_swap.
Defined.

(** C3 as stated fails: these two lists hold the same set of pairs, and the
    second only repeats the pair, yet their fingerprints differ. *)
Lemma repeated_pair_changes_hash :
  (∀ p : string * string, p ∈ [("A", "t1")] ↔ p ∈ [("A", "t1"); ("A", "t1")])
  ∧ hash_pairs [("A", "t1")] ≠ hash_pairs [("A", "t1"); ("A", "t1")]
  ∧ toss_job_groups_api._compute_list_hash [toss_job ("A", "t1")]
    ≠ toss_job_groups_api._compute_list_hash [toss_job ("A", "t1"); toss_job ("A", "t1")].
Proof.
  split; [|split].
  - intros p. rewrite !list_elem_of_In. cbn. tauto.
  - vm_compute. discriminate.
  - vm_compute. discriminate.
Qed.

(** *** The fingerprint on decoded values *)













(** ** Frames of the building blocks *)

Lemma posting_traffic_refl (w : World) : posting_traffic w w.
Proof.
  split; [done|]. split; [done|]. exists []. split; [by rewrite app_nil_r|constructor].
Qed.

Lemma posting_traffic_trans (w1 w2 w3 : World) :
  posting_traffic w1 w2 → posting_traffic w2 w3 → posting_traffic w1 w3.
Proof.
  intros (Ht1 & Hc1 & reqs1 & Hl1 & Hf1) (Ht2 & Hc2 & reqs2 & Hl2 & Hf2).
  split; [congruence|]. split; [lia|]. exists (reqs1 ++ reqs2)%list. split.
  - by rewrite Hl2, Hl1, <- app_assoc.
  - by apply Forall_app.
Qed.

Lemma store_untouched_traffic (w w' : World) : store_untouched w w' → posting_traffic w w'.
Proof.
  intros (Ht & _ & Hl & Hc). split; [done|]. split; [lia|].
  exists []. split; [by rewrite app_nil_r|constructor].
Qed.

Lemma fetch_url_frame env url w :
  ∃ r w', crawler.fetch_url env url w = (r, w') ∧ r ≠ Diverge ∧ store_untouched w w'.
Proof.
  rewrite fetch_url_unrolled. cbn zeta.
  assert (Hnd : ∀ n, attempt env url n ≠ Diverge).
  { intros n. unfold attempt, crawler.response_text.
    destruct (httpx_get env n url) as [status text|e]; [|done].
    by destruct (_ && _). }
  destruct (retried _); [destruct (retried _)|];
    eexists; eexists; (split; [reflexivity|]); (split; [apply Hnd|]); by repeat split.
Qed.

Lemma upsert_frame env target_id title company_name content_raw original_url w :
  ∃ k w', db.upsert_job_posting env target_id title company_name content_raw original_url w
            = (Return k, w')
          ∧ k ≠ ERROR ∧ posting_traffic w w'.
Proof.
  unfold_db. cbn.
  destruct (job_postings w !! original_url) as [row|]; cbn;
    [destruct (String.eqb (p_content_raw row) content_raw); cbn|];
    eexists; eexists; (split; [reflexivity|]); (split; [done|]);
    (split; [done|]); (split; [cbn; lia|]); cbn;
    rewrite <- ?app_assoc; eexists; (split; [reflexivity|]); repeat constructor.
Qed.

Lemma for_each_traffic {A} (body : A → Stats → M Stats) :
  (∀ x s w, ∃ s' w', body x s w = (Return s', w') ∧ posting_traffic w w') →
  ∀ items s w, ∃ s' w', for_each items body s w = (Return s', w') ∧ posting_traffic w w'.
Proof.
  intros Hbody items. induction items as [|x items IH]; intros s w; cbn.
  - eexists; eexists. split; [reflexivity|apply posting_traffic_refl].
  - unfold mbind, M_bind.
    destruct (Hbody x s w) as (s1 & w1 & -> & Hw1).
    destruct (IH s1 w1) as (s2 & w2 & -> & Hw2).
    eexists; eexists. split; [reflexivity|]. by eapply posting_traffic_trans.
Qed.

(** The loop body of every adapter ends normally, whatever its item did. *)
Lemma try_upsert_traffic env target_id title company_name original_url
    (content : exn + string) stats w :
  ∃ s' w',
    try_except
      (content_raw ← call content;
       result ← db.upsert_job_posting env target_id title company_name content_raw
                  original_url;
       mret (incr result stats))
      (λ e, Some (mret (incr ERROR stats))) w = (Return s', w')
    ∧ posting_traffic w w'.
Proof.
  unfold try_except, call, mbind, M_bind at 1.
  destruct content as [e|content_raw].
  - eexists; eexists. split; [reflexivity|apply posting_traffic_refl].
  - unfold M_bind.
    destruct (upsert_frame env target_id title company_name content_raw original_url w)
      as (k & w' & -> & _ & Hw').
    eexists; eexists. split; [reflexivity|done].
Qed.

Lemma toss_process_group_traffic env target_id group stats w :
  ∃ s' w', toss_job_groups_api.process_group env target_id group stats w = (Return s', w')
           ∧ posting_traffic w w'.
Proof.
  unfold toss_job_groups_api.process_group.
  destruct (tg_primary_job group) as [job|];
    [destruct (tj_absolute_url job) as [url|]; [destruct (negb (nonempty url))|]|];
    try (eexists; eexists; split; [reflexivity|apply posting_traffic_refl]).
  apply try_upsert_traffic.
Qed.

Lemma daangn_process_job_traffic env target_id job stats w :
  ∃ s' w', daangn_greenhouse_api.process_job env target_id job stats w = (Return s', w')
           ∧ posting_traffic w w'.
Proof.
  unfold daangn_greenhouse_api.process_job.
  destruct (dj_id job) as [job_id|]; [destruct (job_id =? 0)|];
    try (eexists; eexists; split; [reflexivity|apply posting_traffic_refl]).
  apply try_upsert_traffic.
Qed.

Lemma kakao_process_job_traffic env target_id job stats w :
  ∃ s' w', kakao_api.process_job env target_id job stats w = (Return s', w')
           ∧ posting_traffic w w'.
Proof.
  unfold kakao_api.process_job.
  destruct (kj_realId job) as [real_id|]; [destruct (negb (nonempty real_id))|];
    try (eexists; eexists; split; [reflexivity|apply posting_traffic_refl]).
  apply try_upsert_traffic.
Qed.

Lemma html_process_item_traffic env parser target_id item stats w :
  ∃ s' w', crawler.process_item env parser target_id item stats w = (Return s', w')
           ∧ posting_traffic w w'.
Proof.
  unfold crawler.process_item, try_except, mbind, M_bind at 1.
  destruct (fetch_url_frame env (ji_url item) w) as (r & w1 & -> & Hnd & Hw1).
  apply store_untouched_traffic in Hw1.
  destruct r as [detail_html|e|]; [|by eexists; eexists|done].
  unfold call, M_bind at 1.
  destruct (parse_detail parser detail_html) as [e|content_raw]; [by eexists; eexists|].
  destruct (negb (nonempty content_raw)); [by eexists; eexists|].
  unfold M_bind.
  destruct (upsert_frame env target_id (ji_title item) (ji_company_name item) content_raw
              (ji_url item) w1) as (k & w' & -> & _ & Hw').
  eexists; eexists. split; [reflexivity|]. by eapply posting_traffic_trans.
Qed.

(** ** Dispatch and fetch frames *)

Lemma crawl_target_toss env fuel target :
  t_parser_type target = Some "toss_job_groups_api" →
  crawler.crawl_target env fuel target = toss_job_groups_api.crawl_toss_api env target.
Proof. intros H. unfold crawler.crawl_target. rewrite H. reflexivity. Qed.

Lemma crawl_target_daangn env fuel target :
  t_parser_type target = Some "daangn_greenhouse_api" →
  crawler.crawl_target env fuel target = daangn_greenhouse_api.crawl_daangn_api env target.
Proof. intros H. unfold crawler.crawl_target. rewrite H. reflexivity. Qed.

Lemma crawl_target_kakao env fuel target :
  t_parser_type target = Some "kakao_api" →
  crawler.crawl_target env fuel target = kakao_api.crawl_kakao_api env fuel target.
Proof. intros H. unfold crawler.crawl_target. rewrite H. reflexivity. Qed.

Lemma crawl_target_html env fuel target :
  default "generic" (t_parser_type target) ∉ crawler.API_PARSER_TYPES →
  crawler.crawl_target env fuel target
  = crawler.crawl_html env (default "generic" (t_parser_type target)) target.
Proof.
  intros H. unfold crawler.crawl_target. cbn zeta.
  by rewrite (bool_decide_eq_false_2 _ H).
Qed.

Lemma requests_get_json_frame {P} (server : nat → requests_answer P) url w :
  ∃ r w', requests_get_json server url w = (r, w') ∧ r ≠ Diverge ∧ store_untouched w w'.
Proof.
  unfold requests_get_json.
  destruct (server (http_calls w)) as [status json|e];
    [destruct (_ && _); [|destruct json]|];
    eexists; eexists; (split; [reflexivity|]); by repeat split.
Qed.

Lemma store_untouched_trans (w1 w2 w3 : World) :
  store_untouched w1 w2 → store_untouched w2 w3 → store_untouched w1 w3.
Proof.
  intros (? & ? & ? & ?) (? & ? & ? & ?). repeat split; congruence.
Qed.

Lemma fetch_pages_frame env fuel base_url part page all_jobs w :
  ∃ r w', kakao_api.fetch_pages env fuel base_url part page all_jobs w = (r, w')
          ∧ store_untouched w w'.
Proof.
  revert page all_jobs w. induction fuel as [|fuel IH]; intros page all_jobs w.
  - eexists; eexists. split; [reflexivity|by repeat split].
  - cbn [kakao_api.fetch_pages]. unfold mbind, M_bind.
    destruct (requests_get_json_frame (λ n, kakao_get env n base_url part page) base_url w)
      as (r & w1 & -> & _ & Hw1).
    destruct r as [payload|e|]; try by eexists; eexists.
    destruct (_ <=? _); [by eexists; eexists|].
    destruct (IH (page + 1) (all_jobs ++ default [] (kp_jobList payload))%list w1)
      as (r2 & w2 & -> & Hw2).
    eexists; eexists. split; [reflexivity|]. by eapply store_untouched_trans.
Qed.

Lemma fetch_all_jobs_frame env fuel base_url w :
  ∃ r w', kakao_api._fetch_all_jobs env fuel base_url w = (r, w') ∧ store_untouched w w'.
Proof.
  unfold kakao_api._fetch_all_jobs. generalize (@nil KakaoJob) as all_jobs.
  generalize kakao_api.JOB_PARTS as parts. intros parts. revert w.
  induction parts as [|part parts IH]; intros w all_jobs; cbn [for_each].
  - eexists; eexists. split; [reflexivity|by repeat split].
  - unfold mbind, M_bind.
    destruct (fetch_pages_frame env fuel base_url part 1 all_jobs w) as (r & w1 & -> & Hw1).
    destruct r as [jobs|e|]; try by eexists; eexists.
    destruct (IH w1 jobs) as (r2 & w2 & -> & Hw2).
    eexists; eexists. split; [reflexivity|]. by eapply store_untouched_trans.
Qed.

(** ** The exits of a run over one target *)

Lemma checked_exit env target w w1 :
  store_untouched w w1 →
  only_checked env target w
    ((db.update_target_checked env (t_id target);; mret no_stats) w1).
Proof.
  intros (Ht & Hp & Hl & Hc). unfold_db. cbn.
  eexists. split; [reflexivity|]. cbn. rewrite Ht, Hp, Hl, Hc. done.
Qed.

Lemma error_exit target msg w w1 :
  store_untouched w w1 →
  error_recorded target msg w
    ((db.update_target_error (t_id target) msg;; mret (incr ERROR no_stats)) w1).
Proof.
  intros (Ht & Hp & Hl & Hc). unfold_db. cbn.
  eexists. split; [reflexivity|]. cbn. rewrite Ht, Hp, Hl. done.
Qed.

Lemma hash_exit env target h stats w w1 :
  posting_traffic w w1 →
  hash_persisted_once env target h w
    ((db.update_target_hash env (t_id target) h;; mret stats) w1).
Proof.
  intros (Ht & Hc & reqs & Hl & Hf). unfold_db. cbn.
  exists stats. eexists. exists reqs, (clock_reads w1).
  split; [reflexivity|]. cbn. rewrite Ht, Hl, <- app_assoc. done.
Qed.

(** C9. The fingerprint computed for the target is the stored one: the run
    returns all-zero counts, sends no request about postings and no
    fingerprint write, and only sets the checked time of the target. The
    four statements are the HTML path and the Toss, Daangn and Kakao
    adapters. *)
Theorem unchanged_fingerprint_only_checks :
  (∀ env fuel target w list_html parser,
     default "generic" (t_parser_type target) ∉ crawler.API_PARSER_TYPES →
     (crawler.fetch_url env (t_list_url target) w).1 = Return list_html →
     parsers.get_parser env (default "generic" (t_parser_type target))
       (t_parser_config target) = inr parser →
     t_last_list_hash target
       = Some (crawler.compute_hash (normalize_html parser list_html)) →
     only_checked env target w (crawler.crawl_target env fuel target w))
  ∧ (∀ env fuel target w payload groups,
       t_parser_type target = Some "toss_job_groups_api" →
       (requests_get_json (λ n, toss_get env n (t_list_url target)) (t_list_url target) w).1
         = Return payload →
       tp_resultType payload = Some "SUCCESS" →
       tp_success payload = Some groups → groups ≠ [] →
       t_last_list_hash target
         = Some (toss_job_groups_api._compute_list_hash (omap tg_primary_job groups)) →
       only_checked env target w (crawler.crawl_target env fuel target w))
  ∧ (∀ env fuel target w payload jobs,
       t_parser_type target = Some "daangn_greenhouse_api" →
       (requests_get_json (λ n, daangn_get env n (t_list_url target)) (t_list_url target) w).1
         = Return payload →
       dp_jobs payload = Some jobs → jobs ≠ [] →
       t_last_list_hash target = Some (daangn_greenhouse_api._compute_list_hash jobs) →
       only_checked env target w (crawler.crawl_target env fuel target w))
  ∧ (∀ env fuel target w all_jobs,
       t_parser_type target = Some "kakao_api" →
       (kakao_api._fetch_all_jobs env fuel (t_list_url target) w).1 = Return all_jobs →
       all_jobs ≠ [] →
       t_last_list_hash target = Some (kakao_api._compute_list_hash all_jobs) →
       only_checked env target w (crawler.crawl_target env fuel target w)).
Proof.
  split; [|split; [|split]].
  - intros env fuel target w list_html parser Hkind Hfetch Hparser Hhash.
    rewrite crawl_target_html by done.
    destruct (fetch_url_frame env (t_list_url target) w) as (r & w1 & Hrun & _ & Hw1).
    rewrite Hrun in Hfetch. cbn in Hfetch. subst r.
    unfold crawler.crawl_html, try_except, mbind, M_bind, mret, M_ret; cbv beta zeta.
    rewrite Hrun; cbv beta iota zeta. rewrite Hparser, Hhash. rewrite bool_decide_eq_true_2 by done.
    by apply checked_exit.
  - intros env fuel target w payload groups Hkind Hfetch Hok Hgroups Hne Hhash.
    rewrite crawl_target_toss by done.
    destruct (requests_get_json_frame (λ n, toss_get env n (t_list_url target))
                (t_list_url target) w) as (r & w1 & Hrun & _ & Hw1).
    rewrite Hrun in Hfetch. cbn in Hfetch. subst r.
    unfold toss_job_groups_api.crawl_toss_api, try_except, mbind, M_bind, mret, M_ret; cbv beta zeta.
    rewrite Hrun; cbv beta iota zeta. rewrite Hok, Hgroups, Hhash. cbn [default negb].
    rewrite !bool_decide_eq_true_2 by done. cbn [negb].
    destruct groups; [done|]. by apply checked_exit.
  - intros env fuel target w payload jobs Hkind Hfetch Hjobs Hne Hhash.
    rewrite crawl_target_daangn by done.
    destruct (requests_get_json_frame (λ n, daangn_get env n (t_list_url target))
                (t_list_url target) w) as (r & w1 & Hrun & _ & Hw1).
    rewrite Hrun in Hfetch. cbn in Hfetch. subst r.
    unfold daangn_greenhouse_api.crawl_daangn_api, try_except, mbind, M_bind, mret, M_ret; cbv beta zeta.
    rewrite Hrun; cbv beta iota zeta. rewrite Hjobs, Hhash. cbn [default].
    rewrite !bool_decide_eq_true_2 by done.
    destruct jobs; [done|]. by apply checked_exit.
  - intros env fuel target w all_jobs Hkind Hfetch Hne Hhash.
    rewrite crawl_target_kakao by done.
    destruct (fetch_all_jobs_frame env fuel (t_list_url target) w) as (r & w1 & Hrun & Hw1).
    rewrite Hrun in Hfetch. cbn in Hfetch. subst r.
    unfold kakao_api.crawl_kakao_api, try_except, mbind, M_bind, mret, M_ret; cbv beta zeta.
    rewrite Hrun; cbv beta iota zeta. rewrite Hhash.
    rewrite !bool_decide_eq_true_2 by done.
    destruct all_jobs; [done|]. by apply checked_exit.
Qed.

Ltac run_with H :=
  cbv beta zeta; rewrite H; cbv beta iota zeta.

(** C10. A target whose parser type is none of the three API kinds and is not
    registered ("generic" is the one key of the registry), and whose list page
    is fetched: the run returns ERROR = 1 and zero elsewhere, and the store
    gets no request and no change. *)
Theorem unregistered_parser_type_counts_error env fuel target w list_html :
  default "generic" (t_parser_type target) ∉ crawler.API_PARSER_TYPES →
  default "generic" (t_parser_type target) ≠ "generic" →
  (crawler.fetch_url env (t_list_url target) w).1 = Return list_html →
  error_counted_only w (crawler.crawl_target env fuel target w)
  ∧ incr ERROR no_stats = {| s_NEW := 0; s_UPDATED := 0; s_SKIP := 0; s_ERROR := 1 |}.
Proof.
  intros Hkind Hunknown Hfetch. split; [|reflexivity].
  rewrite crawl_target_html by done.
  destruct (fetch_url_frame env (t_list_url target) w) as (r & w1 & Hrun & _ & Hw1).
  rewrite Hrun in Hfetch. cbn in Hfetch. subst r.
  unfold crawler.crawl_html, try_except, mbind, M_bind, mret, M_ret. run_with Hrun.
  unfold parsers.get_parser, parsers.PARSER_REGISTRY.
  rewrite lookup_singleton_ne by done. cbv beta iota zeta.
  eexists. split; [reflexivity|done].
Qed.

Lemma hash_exit_after env target h (loop : M Stats) w1 stats w2 :
  loop w1 = (Return stats, w2) →
  persisted_after env target h w1 loop
    ((db.update_target_hash env (t_id target) h;; mret stats) w2).
Proof.
  intros Hloop. unfold_db. cbn.
  exists stats, w2. eexists. split; [exact Hloop|]. split; [reflexivity|]. by cbn.
Qed.

(** The page of every item is asked for. *)
Lemma process_item_asks env parser target_id item stats w :
  (http_calls w < http_calls (crawler.process_item env parser target_id item stats w).2)%nat.
Proof.
  unfold crawler.process_item, try_except, mbind, M_bind at 1.
  rewrite fetch_url_unrolled. cbv zeta.
  destruct (retried _); [destruct (retried _)|];
    (destruct (attempt env (ji_url item) _) as [detail_html|e|]; cbn; [|lia|lia];
     unfold call, mbind, M_bind;
     destruct (parse_detail parser detail_html) as [e|content_raw]; cbn; [lia|];
     destruct (negb (nonempty content_raw)); cbn; [lia|];
     unfold_db; cbn; destruct (job_postings w !! ji_url item) as [row|]; cbn; [|lia];
     destruct (String.eqb _ _); cbn; lia).
Qed.

Lemma items_asked env parser target_id (job_items : list JobItem) stats w :
  (http_calls w + List.length job_items
   ≤ http_calls (for_each job_items (crawler.process_item env parser target_id) stats w).2)%nat.
Proof.
  revert stats w. induction job_items as [|item job_items IH]; intros stats w;
    cbn [for_each List.length]; [cbn; lia|].
  unfold mbind, M_bind. pose proof (process_item_asks env parser target_id item stats w) as Hone.
  destruct (html_process_item_traffic env parser target_id item stats w) as (s1 & w1 & Hrun & _).
  rewrite Hrun in Hone |- *. cbn in Hone. specialize (IH s1 w1). lia.
Qed.

(** C8, as the code has it. The fingerprint computed for the target differs
    from the stored one and the adapter has its items (on the HTML path:
    [parse_list] returned): the run ends normally; it goes through the loop
    over all the items, whose requests touch postings only, and then writes
    the new fingerprint with a fresh reading of the clock, once and last, and
    returns the counters of the loop. On the HTML path the page of every item
    has been asked for by then. No item can prevent the write: the loop body
    of each adapter ends normally, and an item whose page cannot be fetched or
    whose content cannot be built counts one ERROR. When [parse_list] raises
    instead, the run counts one ERROR and sends the store nothing. The first
    four statements are the HTML path and the Toss, Daangn and Kakao
    adapters. *)
Theorem changed_fingerprint_persisted_once :
  (∀ env fuel target w list_html parser job_items,
     default "generic" (t_parser_type target) ∉ crawler.API_PARSER_TYPES →
     (crawler.fetch_url env (t_list_url target) w).1 = Return list_html →
     parsers.get_parser env (default "generic" (t_parser_type target))
       (t_parser_config target) = inr parser →
     t_last_list_hash target
       ≠ Some (crawler.compute_hash (normalize_html parser list_html)) →
     parse_list parser list_html = inr job_items →
     hash_persisted_once env target
       (crawler.compute_hash (normalize_html parser list_html)) w
       (crawler.crawl_target env fuel target w)
     ∧ persisted_after env target
         (crawler.compute_hash (normalize_html parser list_html))
         (crawler.fetch_url env (t_list_url target) w).2
         (for_each job_items (crawler.process_item env parser (t_id target)) no_stats)
         (crawler.crawl_target env fuel target w)
     ∧ (http_calls (crawler.fetch_url env (t_list_url target) w).2 + List.length job_items
        ≤ http_calls (crawler.crawl_target env fuel target w).2)%nat)
  ∧ (∀ env fuel target w payload groups,
       t_parser_type target = Some "toss_job_groups_api" →
       (requests_get_json (λ n, toss_get env n (t_list_url target)) (t_list_url target) w).1
         = Return payload →
       tp_resultType payload = Some "SUCCESS" →
       tp_success payload = Some groups → groups ≠ [] →
       t_last_list_hash target
         ≠ Some (toss_job_groups_api._compute_list_hash (omap tg_primary_job groups)) →
       hash_persisted_once env target
         (toss_job_groups_api._compute_list_hash (omap tg_primary_job groups)) w
         (crawler.crawl_target env fuel target w)
       ∧ persisted_after env target
           (toss_job_groups_api._compute_list_hash (omap tg_primary_job groups))
           (requests_get_json (λ n, toss_get env n (t_list_url target))
              (t_list_url target) w).2
           (for_each groups (toss_job_groups_api.process_group env (t_id target)) no_stats)
           (crawler.crawl_target env fuel target w))
  ∧ (∀ env fuel target w payload jobs,
       t_parser_type target = Some "daangn_greenhouse_api" →
       (requests_get_json (λ n, daangn_get env n (t_list_url target)) (t_list_url target) w).1
         = Return payload →
       dp_jobs payload = Some jobs → jobs ≠ [] →
       t_last_list_hash target ≠ Some (daangn_greenhouse_api._compute_list_hash jobs) →
       hash_persisted_once env target (daangn_greenhouse_api._compute_list_hash jobs) w
         (crawler.crawl_target env fuel target w)
       ∧ persisted_after env target (daangn_greenhouse_api._compute_list_hash jobs)
           (requests_get_json (λ n, daangn_get env n (t_list_url target))
              (t_list_url target) w).2
           (for_each jobs (daangn_greenhouse_api.process_job env (t_id target)) no_stats)
           (crawler.crawl_target env fuel target w))
  ∧ (∀ env fuel target w all_jobs,
       t_parser_type target = Some "kakao_api" →
       (kakao_api._fetch_all_jobs env fuel (t_list_url target) w).1 = Return all_jobs →
       all_jobs ≠ [] →
       t_last_list_hash target ≠ Some (kakao_api._compute_list_hash all_jobs) →
       hash_persisted_once env target (kakao_api._compute_list_hash all_jobs) w
         (crawler.crawl_target env fuel target w)
       ∧ persisted_after env target (kakao_api._compute_list_hash all_jobs)
           (kakao_api._fetch_all_jobs env fuel (t_list_url target) w).2
           (for_each all_jobs (kakao_api.process_job env (t_id target)) no_stats)
           (crawler.crawl_target env fuel target w))
  ∧ (∀ env parser target_id item stats w e,
       (crawler.fetch_url env (ji_url item) w).1 = Raise e →
       (crawler.process_item env parser target_id item stats w).1
         = Return (incr ERROR stats))
  ∧ (∀ env parser target_id item stats w detail_html e,
       (crawler.fetch_url env (ji_url item) w).1 = Return detail_html →
       parse_detail parser detail_html = inl e →
       (crawler.process_item env parser target_id item stats w).1
         = Return (incr ERROR stats))
  ∧ (∀ env target_id group job url stats w e,
       tg_primary_job group = Some job →
       tj_absolute_url job = Some url → url ≠ "" →
       toss_content_raw env group job (_meta_to_dict (tj_metadata job)) = inl e →
       toss_job_groups_api.process_group env target_id group stats w
       = (Return (incr ERROR stats), w))
  ∧ (∀ env target_id job job_id stats w e,
       dj_id job = Some job_id → job_id ≠ 0 →
       daangn_content_raw env job (_meta_to_dict (dj_metadata job)) = inl e →
       daangn_greenhouse_api.process_job env target_id job stats w
       = (Return (incr ERROR stats), w))
  ∧ (∀ env target_id job real_id stats w e,
       kj_realId job = Some real_id → real_id ≠ "" →
       kakao_content_raw env job = inl e →
       kakao_api.process_job env target_id job stats w = (Return (incr ERROR stats), w))
  ∧ (∀ env fuel target w list_html parser e,
       default "generic" (t_parser_type target) ∉ crawler.API_PARSER_TYPES →
       (crawler.fetch_url env (t_list_url target) w).1 = Return list_html →
       parsers.get_parser env (default "generic" (t_parser_type target))
         (t_parser_config target) = inr parser →
       t_last_list_hash target
         ≠ Some (crawler.compute_hash (normalize_html parser list_html)) →
       parse_list parser list_html = inl e →
       error_counted_only w (crawler.crawl_target env fuel target w)).
Proof.
  split; [|split; [|split; [|split; [|split; [|split; [|split; [|split; [|split]]]]]]]].
  - intros env fuel target w list_html parser job_items Hkind Hfetch Hparser Hhash Hitems.
    rewrite crawl_target_html by done.
    destruct (fetch_url_frame env (t_list_url target) w) as (r & w1 & Hrun & _ & Hw1).
    rewrite Hrun in Hfetch |- *. cbn in Hfetch. subst r. cbn [snd].
    apply store_untouched_traffic in Hw1.
    unfold crawler.crawl_html, try_except, mbind, M_bind, mret, M_ret. run_with Hrun.
    rewrite Hparser, Hitems. rewrite bool_decide_eq_false_2 by (intros Heq; apply Hhash; by rewrite Heq).
    pose proof (items_asked env parser (t_id target) job_items no_stats w1) as Hasked.
    destruct (for_each_traffic (crawler.process_item env parser (t_id target))
                (html_process_item_traffic env parser (t_id target))
                job_items no_stats w1) as (stats & w2 & Hloop & Hw2).
    rewrite Hloop in Hasked. cbn [snd] in Hasked.
    assert (crawl_exit :
              match job_items with
              | [] => db.update_target_hash env (t_id target)
                        (crawler.compute_hash (normalize_html parser list_html));;
                      mret no_stats
              | _ :: _ =>
                  stats ← for_each job_items (crawler.process_item env parser (t_id target))
                            no_stats;
                  db.update_target_hash env (t_id target)
                    (crawler.compute_hash (normalize_html parser list_html));;
                  mret stats
              end w1
              = (db.update_target_hash env (t_id target)
                   (crawler.compute_hash (normalize_html parser list_html));;
                 mret stats) w2).
    { destruct job_items as [|item job_items].
      - cbn in Hloop. by injection Hloop as <- <-.
      - unfold mbind at 1, M_bind at 1. by rewrite Hloop. }
    unfold mbind, M_bind, mret, M_ret in crawl_exit. rewrite crawl_exit.
    split; [|split].
    + apply hash_exit. by eapply posting_traffic_trans.
    + by apply hash_exit_after.
    + unfold_db. cbn. exact Hasked.
  - intros env fuel target w payload groups Hkind Hfetch Hok Hgroups Hne Hhash.
    rewrite crawl_target_toss by done.
    destruct (requests_get_json_frame (λ n, toss_get env n (t_list_url target))
                (t_list_url target) w) as (r & w1 & Hrun & _ & Hw1).
    rewrite Hrun in Hfetch |- *. cbn in Hfetch. subst r. cbn [snd].
    apply store_untouched_traffic in Hw1.
    unfold toss_job_groups_api.crawl_toss_api, try_except, mbind, M_bind, mret, M_ret.
    run_with Hrun. rewrite Hok, Hgroups. cbn [default from_option id negb].
    rewrite bool_decide_eq_true_2 by done. cbn [negb].
    rewrite bool_decide_eq_false_2 by (intros Heq; apply Hhash; by rewrite Heq).
    destruct groups as [|group groups]; [done|].
    destruct (for_each_traffic (toss_job_groups_api.process_group env (t_id target))
                (toss_process_group_traffic env (t_id target))
                (group :: groups) no_stats w1) as (stats & w2 & Hloop & Hw2).
    rewrite Hloop. split; [|by apply hash_exit_after].
    apply hash_exit. by eapply posting_traffic_trans.
  - intros env fuel target w payload jobs Hkind Hfetch Hjobs Hne Hhash.
    rewrite crawl_target_daangn by done.
    destruct (requests_get_json_frame (λ n, daangn_get env n (t_list_url target))
                (t_list_url target) w) as (r & w1 & Hrun & _ & Hw1).
    rewrite Hrun in Hfetch |- *. cbn in Hfetch. subst r. cbn [snd].
    apply store_untouched_traffic in Hw1.
    unfold daangn_greenhouse_api.crawl_daangn_api, try_except, mbind, M_bind, mret, M_ret.
    run_with Hrun. rewrite Hjobs. cbn [default from_option id].
    rewrite bool_decide_eq_false_2 by (intros Heq; apply Hhash; by rewrite Heq).
    destruct jobs as [|job jobs]; [done|].
    destruct (for_each_traffic (daangn_greenhouse_api.process_job env (t_id target))
                (daangn_process_job_traffic env (t_id target))
                (job :: jobs) no_stats w1) as (stats & w2 & Hloop & Hw2).
    rewrite Hloop. split; [|by apply hash_exit_after].
    apply hash_exit. by eapply posting_traffic_trans.
  - intros env fuel target w all_jobs Hkind Hfetch Hne Hhash.
    rewrite crawl_target_kakao by done.
    destruct (fetch_all_jobs_frame env fuel (t_list_url target) w) as (r & w1 & Hrun & Hw1).
    rewrite Hrun in Hfetch |- *. cbn in Hfetch. subst r. cbn [snd].
    apply store_untouched_traffic in Hw1.
    unfold kakao_api.crawl_kakao_api, try_except, mbind, M_bind, mret, M_ret.
    run_with Hrun. rewrite bool_decide_eq_false_2 by (intros Heq; apply Hhash; by rewrite Heq).
    destruct all_jobs as [|job all_jobs]; [done|].
    destruct (for_each_traffic (kakao_api.process_job env (t_id target))
                (kakao_process_job_traffic env (t_id target))
                (job :: all_jobs) no_stats w1) as (stats & w2 & Hloop & Hw2).
    rewrite Hloop. split; [|by apply hash_exit_after].
    apply hash_exit. by eapply posting_traffic_trans.
  - intros env parser target_id item stats w e Hfetch.
    destruct (crawler.fetch_url env (ji_url item) w) as [r w1] eqn:Hrun.
    cbn in Hfetch. subst r.
    unfold crawler.process_item, try_except, mbind, M_bind, mret, M_ret.
    run_with Hrun. reflexivity.
  - intros env parser target_id item stats w detail_html e Hfetch Hdetail.
    destruct (crawler.fetch_url env (ji_url item) w) as [r w1] eqn:Hrun.
    cbn in Hfetch. subst r.
    unfold crawler.process_item, try_except, mbind, M_bind, mret, M_ret.
    run_with Hrun. rewrite Hdetail. reflexivity.
  - intros env target_id group job url stats w e Hjob Hurl Hne Hraw.
    unfold toss_job_groups_api.process_group. rewrite Hjob, Hurl.
    assert (nonempty url = true) as ->.
    { unfold nonempty. by rewrite (proj2 (String.eqb_neq url "")). }
    cbn [negb]. unfold try_except, mbind, M_bind, mret, M_ret. cbv beta zeta.
    by rewrite Hraw.
  - intros env target_id job job_id stats w e Hid Hne Hraw.
    unfold daangn_greenhouse_api.process_job. rewrite Hid.
    assert ((job_id =? 0) = false) as -> by lia.
    unfold try_except, mbind, M_bind, mret, M_ret. cbv beta zeta.
    by rewrite Hraw.
  - intros env target_id job real_id stats w e Hid Hne Hraw.
    unfold kakao_api.process_job. rewrite Hid.
    assert (nonempty real_id = true) as ->.
    { unfold nonempty. by rewrite (proj2 (String.eqb_neq real_id "")). }
    cbn [negb]. unfold try_except, mbind, M_bind, mret, M_ret. cbv beta zeta.
    by rewrite Hraw.
  - intros env fuel target w list_html parser e Hkind Hfetch Hparser Hhash Hitems.
    rewrite crawl_target_html by done.
    destruct (fetch_url_frame env (t_list_url target) w) as (r & w1 & Hrun & _ & Hw1).
    rewrite Hrun in Hfetch. cbn in Hfetch. subst r.
    unfold crawler.crawl_html, try_except, mbind, M_bind, mret, M_ret. run_with Hrun.
    rewrite Hparser, Hitems. rewrite bool_decide_eq_false_2 by (intros Heq; apply Hhash; by rewrite Heq).
    by exists w1.
Qed.

(** C1, as the code has it. An API target whose adapter fails for good (see
    [api_failure]): the run writes the message to the [last_error] of the
    target, counts one ERROR and nothing else, and sends no request about
    postings. An HTML target whose list page cannot be fetched, retries
    included: the run counts one ERROR and sends the store nothing, so that no
    [last_error] is written. In both cases, as after any run that ends
    normally, the pass goes on with the targets that remain, the counts of
    the run added to the totals. *)
Theorem failed_target_counts_one_error :
  (∀ env fuel target w msg,
     api_failure env fuel target w msg →
     error_recorded target msg w (crawler.crawl_target env fuel target w))
  ∧ (∀ env fuel target w e,
       default "generic" (t_parser_type target) ∉ crawler.API_PARSER_TYPES →
       (crawler.fetch_url env (t_list_url target) w).1 = Raise e →
       error_counted_only w (crawler.crawl_target env fuel target w))
  ∧ (∀ env fuel target w stats w' total rest,
       crawler.crawl_target env fuel target w = (Return stats, w') →
       crawler.crawl_all_from env fuel total (target :: rest) w
       = crawler.crawl_all_from env fuel (add_stats total stats) rest w')
  ∧ incr ERROR no_stats = {| s_NEW := 0; s_UPDATED := 0; s_SKIP := 0; s_ERROR := 1 |}.
Proof.
  split; [|split; [|split; [|reflexivity]]].
  - intros env fuel target w msg Hfail.
    destruct Hfail as [e msg Hkind Hfetch Hmsg|payload Hkind Hfetch Hbad
                      |e msg Hkind Hfetch Hmsg|e msg Hkind Hfetch Hmsg].
    + rewrite crawl_target_toss by done.
      destruct (requests_get_json_frame (λ n, toss_get env n (t_list_url target))
                  (t_list_url target) w) as (r & w1 & Hrun & _ & Hw1).
      rewrite Hrun in Hfetch. cbn in Hfetch. subst r.
      unfold toss_job_groups_api.crawl_toss_api, try_except, mbind, M_bind, mret, M_ret.
      run_with Hrun. unfold api_error_msg in Hmsg.
      destruct (is_RequestException e); [|destruct (is_JSONDecodeError e); [|done]];
        injection Hmsg as <-; by apply error_exit.
    + rewrite crawl_target_toss by done.
      destruct (requests_get_json_frame (λ n, toss_get env n (t_list_url target))
                  (t_list_url target) w) as (r & w1 & Hrun & _ & Hw1).
      rewrite Hrun in Hfetch. cbn in Hfetch. subst r.
      unfold toss_job_groups_api.crawl_toss_api, try_except, mbind, M_bind, mret, M_ret.
      run_with Hrun. rewrite bool_decide_eq_false_2 by done. cbn [negb].
      by apply error_exit.
    + rewrite crawl_target_daangn by done.
      destruct (requests_get_json_frame (λ n, daangn_get env n (t_list_url target))
                  (t_list_url target) w) as (r & w1 & Hrun & _ & Hw1).
      rewrite Hrun in Hfetch. cbn in Hfetch. subst r.
      unfold daangn_greenhouse_api.crawl_daangn_api, try_except, mbind, M_bind, mret, M_ret.
      run_with Hrun. unfold api_error_msg in Hmsg.
      destruct (is_RequestException e); [|destruct (is_JSONDecodeError e); [|done]];
        injection Hmsg as <-; by apply error_exit.
    + rewrite crawl_target_kakao by done.
      destruct (fetch_all_jobs_frame env fuel (t_list_url target) w) as (r & w1 & Hrun & Hw1).
      rewrite Hrun in Hfetch. cbn in Hfetch. subst r.
      unfold kakao_api.crawl_kakao_api, try_except, mbind, M_bind, mret, M_ret.
      run_with Hrun. unfold api_error_msg in Hmsg.
      destruct (is_RequestException e); [|destruct (is_JSONDecodeError e); [|done]];
        injection Hmsg as <-; by apply error_exit.
  - intros env fuel target w e Hkind Hfetch.
    rewrite crawl_target_html by done.
    destruct (fetch_url_frame env (t_list_url target) w) as (r & w1 & Hrun & _ & Hw1).
    rewrite Hrun in Hfetch. cbn in Hfetch. subst r.
    unfold crawler.crawl_html, try_except, mbind, M_bind, mret, M_ret. run_with Hrun.
    eexists. split; [reflexivity|done].
  - intros env fuel target w stats w' total rest Hrun.
    unfold crawler.crawl_all_from. cbn [for_each].
    unfold mbind, M_bind, mret, M_ret. cbv beta. rewrite Hrun. reflexivity.
Qed.

(** ** The fetcher *)

Lemma wait_exponential_from_two (k : nat) :
  crawler.wait_exponential config.RETRY_DELAY 1 10 (Z.of_nat (S k))
  = Z.min (2 * 2 ^ Z.of_nat k) 10.
Proof.
  unfold crawler.wait_exponential, config.RETRY_DELAY.
  replace (Z.of_nat (S k) - 1) with (Z.of_nat k) by lia.
  pose proof (Z.pow_pos_nonneg 2 (Z.of_nat k)). lia.
Qed.

(** C2, as the code has it. [fetch_url] makes at most three attempts and
    hands on the outcome of the last one it makes, unchanged. It waits 2 after
    a first failure and 4 after a second: after the n-th failed attempt the
    wait is 2 * 2^(n-1), capped at 10. An attempt is repeated exactly when it
    raised an [httpx.HTTPError]; a response outside 2xx raises one, so that a
    4xx is retried like a 5xx. *)
Theorem fetch_url_retry_policy env url w :
  crawler.fetch_url env url w
  = (let n := http_calls w in
     if retried (attempt env url n) then
       if retried (attempt env url (S n)) then
         (attempt env url (S (S n)), after_calls 3 [2; 4] w)
       else (attempt env url (S n), after_calls 2 [2] w)
     else (attempt env url n, after_calls 1 [] w))
  ∧ (∀ n, attempt env url n ≠ Diverge)
  ∧ (∀ e, retried (Raise e) = is_httpx_HTTPError e)
  ∧ (∀ status_code text,
       retried (crawler.response_text url (HttpxResponse status_code text))
       = negb ((200 <=? status_code) && (status_code <=? 299)))
  ∧ (∀ k : nat,
       crawler.wait_exponential config.RETRY_DELAY 1 10 (Z.of_nat (S k))
       = Z.min (2 * 2 ^ Z.of_nat k) 10)
  ∧ config.MAX_RETRIES = 3.
Proof.
  split; [apply fetch_url_unrolled|]. split; [|split; [|split; [|split]]].
  - intros n. unfold attempt, crawler.response_text.
    destruct (httpx_get env n url) as [status text|e]; [|done]. by destruct (_ && _).
  - intros [[] msg]; reflexivity.
  - intros status_code text. unfold crawler.response_text.
    by destruct (_ && _).
  - apply wait_exponential_from_two.
  - reflexivity.
Qed.

(** C2 as stated fails: a page that answers 404 is asked for three times,
    with waits of 2 and 4 in between, before the error is raised. *)
Lemma not_found_is_retried :
  (∀ n, httpx_get demo_env n "https://jobs.example/gone" = HttpxResponse 404 "")
  ∧ (crawler.fetch_url demo_env "https://jobs.example/gone" demo_world).1
    = Raise (Exn HttpxHTTPStatusError "404 for url https://jobs.example/gone")
  ∧ http_calls (crawler.fetch_url demo_env "https://jobs.example/gone" demo_world).2 = 3%nat
  ∧ sleeps (crawler.fetch_url demo_env "https://jobs.example/gone" demo_world).2 = [2; 4].
Proof. repeat split; vm_compute; reflexivity. Qed.

(** ** Runs in the demo world *)

(** C1 as stated fails: the list page of an HTML target answers 500 three
    times; the run counts one ERROR, yet it sends the store nothing and the
    [last_error] of the target stays empty. *)
Lemma html_fetch_failure_not_recorded :
  (∀ n, httpx_get demo_env n (t_list_url html_down) = HttpxResponse 500 "")
  ∧ (crawler.crawl_target demo_env 1 html_down demo_world).1
    = Return {| s_NEW := 0; s_UPDATED := 0; s_SKIP := 0; s_ERROR := 1 |}
  ∧ http_calls (crawler.crawl_target demo_env 1 html_down demo_world).2 = 3%nat
  ∧ db_log (crawler.crawl_target demo_env 1 html_down demo_world).2 = []
  ∧ t_last_error <$>
      (crawl_targets (crawler.crawl_target demo_env 1 html_down demo_world).2
         !! t_id html_down)
    = Some None.
Proof. repeat split; vm_compute; reflexivity. Qed.

Lemma failed_target_counts_one_error_witness :
  error_recorded toss_unavailable
    "Failed to fetch API: 503 Error for url: https://toss.example/503" demo_world
    (crawler.crawl_target demo_env 1 toss_unavailable demo_world)
  ∧ error_recorded toss_fail "API returned non-SUCCESS: FAIL" demo_world
      (crawler.crawl_target demo_env 1 toss_fail demo_world)
  ∧ error_recorded kakao_down "Failed to fetch API: Connection refused" demo_world
      (crawler.crawl_target demo_env 1 kakao_down demo_world)
  ∧ error_counted_only demo_world (crawler.crawl_target demo_env 1 html_down demo_world).
Proof.
  destruct failed_target_counts_one_error as (Hapi & Hhtml & _).
  split; [|split; [|split]].
  - apply Hapi.
    apply (toss_fetch_fails demo_env 1 toss_unavailable demo_world
             (Exn RequestsHTTPError "503 Error for url: https://toss.example/503"));
      reflexivity.
  - apply Hapi.
    apply (toss_not_success demo_env 1 toss_fail demo_world
             {| tp_resultType := Some "FAIL"; tp_success := None |});
      [reflexivity|reflexivity|discriminate].
  - apply Hapi.
    apply (kakao_fetch_fails demo_env 1 kakao_down demo_world
             (Exn RequestsConnectionError "Connection refused")); reflexivity.
  - apply (Hhtml demo_env 1%nat html_down demo_world
             (Exn HttpxHTTPStatusError "500 for url https://jobs.example/down")).
    + rewrite list_elem_of_In. vm_compute. intuition discriminate.
    + vm_compute. reflexivity.
Defined.

Lemma upsert_same_content_skips_witness :
  job_postings demo_world_one !! "https://jobs.example/a" = Some demo_posting
  ∧ (db.upsert_job_posting demo_env 1 "A" "" "<main>Job A</main>"
       "https://jobs.example/a" demo_world_one).1 = Return SKIP.
Proof.
  split; [reflexivity|].
  destruct (upsert_same_content_skips demo_env 1 "A" "" "<main>Job A</main>"
              "https://jobs.example/a" demo_world_one demo_posting)
    as (w' & Hrun & _); [reflexivity|reflexivity|].
  rewrite Hrun. reflexivity.
Defined.

Lemma upsert_new_url_inserts_witness :
  job_postings demo_world !! "https://jobs.example/a" = None
  ∧ (db.upsert_job_posting demo_env 1 "A" "" "<main>Job A</main>"
       "https://jobs.example/a" demo_world).1 = Return NEW.
Proof.
  split; [reflexivity|].
  destruct (upsert_new_url_inserts demo_env 1 "A" "" "<main>Job A</main>"
              "https://jobs.example/a" demo_world)
    as (w' & row & Hrun & _); [reflexivity|].
  rewrite Hrun. reflexivity.
Defined.

Lemma upsert_changed_content_updates_witness :
  job_postings demo_world_one !! "https://jobs.example/a" = Some demo_posting
  ∧ p_content_raw demo_posting ≠ "<main>Job A, remote</main>"
  ∧ (db.upsert_job_posting demo_env 1 "A (remote)" "" "<main>Job A, remote</main>"
       "https://jobs.example/a" demo_world_one).1 = Return UPDATED.
Proof.
  split; [reflexivity|]. split; [discriminate|].
  destruct (upsert_changed_content_updates demo_env 1 "A (remote)" ""
              "<main>Job A, remote</main>" "https://jobs.example/a" demo_world_one
              demo_posting)
    as (w' & row' & Hrun & _); [reflexivity|discriminate|].
  rewrite Hrun. reflexivity.
Defined.

(** C8 as stated fails: the list page of this HTML target hashes to a
    fingerprint other than the stored one (none is stored), [parse_list]
    raises, and the run ends with one ERROR without writing the fingerprint. *)
Lemma parse_failure_leaves_hash_unwritten :
  (crawler.fetch_url demo_env (t_list_url html_bad_selector) demo_world).1
    = Return demo_list_html
  ∧ t_last_list_hash html_bad_selector
    ≠ Some (crawler.compute_hash (normalize_html (demo_parser [("list_selector", "li[")])
                                    demo_list_html))
  ∧ parse_list (demo_parser [("list_selector", "li[")]) demo_list_html
    = inl (Exn OtherException "Malformed selector")
  ∧ (crawler.crawl_target demo_env 1 html_bad_selector demo_world).1
    = Return {| s_NEW := 0; s_UPDATED := 0; s_SKIP := 0; s_ERROR := 1 |}
  ∧ db_log (crawler.crawl_target demo_env 1 html_bad_selector demo_world).2 = []
  ∧ t_last_list_hash <$>
      (crawl_targets (crawler.crawl_target demo_env 1 html_bad_selector demo_world).2
         !! t_id html_bad_selector)
    = Some None.
Proof.
  split; [vm_compute; reflexivity|]. split; [discriminate|].
  repeat split; vm_compute; reflexivity.
Qed.

Lemma not_an_api_kind (kind : string) :
  bool_decide (kind ∈ crawler.API_PARSER_TYPES) = false → kind ∉ crawler.API_PARSER_TYPES.
Proof. intros H Hin. by rewrite (bool_decide_eq_true_2 _ Hin) in H. Qed.

Lemma changed_fingerprint_persisted_once_witness :
  (hash_persisted_once demo_env html_new (crawler.compute_hash demo_list_html) demo_world
     (crawler.crawl_target demo_env 1 html_new demo_world)
   ∧ persisted_after demo_env html_new (crawler.compute_hash demo_list_html)
       (crawler.fetch_url demo_env (t_list_url html_new) demo_world).2
       (for_each
          [ {| ji_title := "A"; ji_url := "https://jobs.example/a"; ji_company_name := "" |};
            {| ji_title := "B"; ji_url := "https://jobs.example/b"; ji_company_name := "" |} ]
          (crawler.process_item demo_env (demo_parser []) 1) no_stats)
       (crawler.crawl_target demo_env 1 html_new demo_world))
  ∧ hash_persisted_once demo_env toss_new
      (toss_job_groups_api._compute_list_hash (omap tg_primary_job demo_toss_groups))
      demo_world (crawler.crawl_target demo_env 1 toss_new demo_world)
  ∧ hash_persisted_once demo_env daangn_new
      (daangn_greenhouse_api._compute_list_hash demo_daangn_jobs)
      demo_world (crawler.crawl_target demo_env 1 daangn_new demo_world)
  ∧ hash_persisted_once demo_env kakao_new (kakao_api._compute_list_hash demo_kakao_jobs)
      demo_world (crawler.crawl_target demo_env 1 kakao_new demo_world)
  ∧ (crawler.process_item demo_env (demo_parser []) 1
       {| ji_title := "B"; ji_url := "https://jobs.example/b"; ji_company_name := "" |}
       no_stats demo_world).1
    = Return (incr ERROR no_stats)
  ∧ error_counted_only demo_world
      (crawler.crawl_target demo_env 1 html_bad_selector demo_world).
Proof.
  destruct changed_fingerprint_persisted_once
    as (Hhtml & Htoss & Hdaangn & Hkakao & Hitem & _ & _ & _ & _ & Hparse).
  split; [|split; [|split; [|split; [|split]]]].
  - destruct (Hhtml demo_env 1%nat html_new demo_world demo_list_html (demo_parser [])
                [ {| ji_title := "A"; ji_url := "https://jobs.example/a";
                     ji_company_name := "" |};
                  {| ji_title := "B"; ji_url := "https://jobs.example/b";
                     ji_company_name := "" |} ]) as (Honce & Hafter & _).
    + apply not_an_api_kind. vm_compute. reflexivity.
    + vm_compute. reflexivity.
    + reflexivity.
    + discriminate.
    + reflexivity.
    + split; [exact Honce|exact Hafter].
  - apply (Htoss demo_env 1%nat toss_new demo_world
             {| tp_resultType := Some "SUCCESS"; tp_success := Some demo_toss_groups |}
             demo_toss_groups);
      [reflexivity|reflexivity|reflexivity|reflexivity|discriminate|discriminate].
  - apply (Hdaangn demo_env 1%nat daangn_new demo_world
             {| dp_jobs := Some demo_daangn_jobs |} demo_daangn_jobs);
      [reflexivity|reflexivity|reflexivity|discriminate|discriminate].
  - apply (Hkakao demo_env 1%nat kakao_new demo_world demo_kakao_jobs);
      [reflexivity|reflexivity|discriminate|discriminate].
  - apply (Hitem demo_env (demo_parser []) 1 _ no_stats demo_world
             (Exn HttpxHTTPStatusError "500 for url https://jobs.example/b")).
    vm_compute. reflexivity.
  - apply (Hparse demo_env 1%nat html_bad_selector demo_world demo_list_html
             (demo_parser [("list_selector", "li[")])
             (Exn OtherException "Malformed selector")).
    + apply not_an_api_kind. vm_compute. reflexivity.
    + vm_compute. reflexivity.
    + reflexivity.
    + discriminate.
    + reflexivity.
Defined.

Lemma unchanged_fingerprint_only_checks_witness :
  only_checked demo_env html_seen demo_world
    (crawler.crawl_target demo_env 1 html_seen demo_world)
  ∧ only_checked demo_env toss_seen demo_world
      (crawler.crawl_target demo_env 1 toss_seen demo_world)
  ∧ only_checked demo_env daangn_seen demo_world
      (crawler.crawl_target demo_env 1 daangn_seen demo_world)
  ∧ only_checked demo_env kakao_seen demo_world
      (crawler.crawl_target demo_env 1 kakao_seen demo_world).
Proof.
  destruct unchanged_fingerprint_only_checks as (Hhtml & Htoss & Hdaangn & Hkakao).
  split; [|split; [|split]].
  - apply (Hhtml demo_env 1%nat html_seen demo_world demo_list_html (demo_parser [])).
    + apply not_an_api_kind. vm_compute. reflexivity.
    + vm_compute. reflexivity.
    + reflexivity.
    + reflexivity.
  - apply (Htoss demo_env 1%nat toss_seen demo_world
             {| tp_resultType := Some "SUCCESS"; tp_success := Some demo_toss_groups |}
             demo_toss_groups);
      [reflexivity|reflexivity|reflexivity|reflexivity|discriminate|reflexivity].
  - apply (Hdaangn demo_env 1%nat daangn_seen demo_world
             {| dp_jobs := Some demo_daangn_jobs |} demo_daangn_jobs);
      [reflexivity|reflexivity|reflexivity|discriminate|reflexivity].
  - apply (Hkakao demo_env 1%nat kakao_seen demo_world demo_kakao_jobs);
      [reflexivity|reflexivity|discriminate|reflexivity].
Defined.

Lemma unregistered_parser_type_counts_error_witness :
  (default "generic" (t_parser_type html_wanted) ∉ crawler.API_PARSER_TYPES)
  ∧ default "generic" (t_parser_type html_wanted) ≠ "generic"
  ∧ error_counted_only demo_world (crawler.crawl_target demo_env 1 html_wanted demo_world).
Proof.
  assert (Hkind : default "generic" (t_parser_type html_wanted) ∉ crawler.API_PARSER_TYPES).
  { apply not_an_api_kind. vm_compute. reflexivity. }
  split; [exact Hkind|]. split; [discriminate|].
  apply (unregistered_parser_type_counts_error demo_env 1%nat html_wanted demo_world
           demo_list_html); [exact Hkind|discriminate|vm_compute; reflexivity].
Defined.

(** * Further properties of the code *)

(** ** What every computation of the crawler keeps *)

Section leaves.
Context (R : World → World → Prop) `{!PreOrder R}.

Lemma leaves_ret {A} (a : A) : leaves R (mret a).
Proof. intros w. reflexivity. Qed.

Lemma leaves_raise {A} (e : exn) : leaves R (@raise A e).
Proof. intros w. reflexivity. Qed.

Lemma leaves_diverge {A} : leaves R (@diverge A).
Proof. intros w. reflexivity. Qed.

Lemma leaves_call {A} (r : exn + A) : leaves R (call r).
Proof. intros w. unfold call. destruct r; reflexivity. Qed.

Lemma leaves_bind {A B} (m : M A) (f : A → M B) :
  leaves R m → (∀ a, leaves R (f a)) → leaves R (m ≫= f).
Proof.
  intros Hm Hf w. unfold mbind, M_bind. specialize (Hm w).
  destruct (m w) as [[a|e|] w1]; cbn in *; try done.
  etrans; [exact Hm|apply Hf].
Qed.

Lemma leaves_try {A} (body : M A) (handlers : exn → option (M A)) :
  leaves R body → (∀ e h, handlers e = Some h → leaves R h) →
  leaves R (try_except body handlers).
Proof.
  intros Hbody Hh w. unfold try_except. specialize (Hbody w).
  destruct (body w) as [[a|e|] w1]; cbn in *; try done.
  destruct (handlers e) as [h|] eqn:He; [|done].
  etrans; [exact Hbody|by eapply Hh].
Qed.

Lemma leaves_for_each {A S} (items : list A) (body : A → S → M S) (s : S) :
  (∀ x s, leaves R (body x s)) → leaves R (for_each items body s).
Proof.
  intros Hbody. revert s. induction items as [|x items IH]; intros s; cbn [for_each].
  - apply leaves_ret.
  - apply leaves_bind; [apply Hbody|apply IH].
Qed.
End leaves.

Global Instance keeps_posting_preorder : PreOrder keeps_posting.
Proof.
  split.
  - intros p. by repeat split.
  - intros p1 p2 p3 (? & ? & ? & ?) (? & ? & ? & ?). repeat split; congruence.
Qed.

Global Instance keeps_target_preorder : PreOrder keeps_target.
Proof.
  split.
  - intros t. by repeat split.
  - intros t1 t2 t3 (? & ? & ? & ? & ? & ? & ?) (? & ? & ? & ? & ? & ? & ?).
    repeat split; congruence.
Qed.

Global Instance comes_after_preorder : PreOrder comes_after.
Proof.
  split.
  - intros w. split; [|split; [|split; [|split; [|split]]]].
    + intros i. by destruct (crawl_targets w !! i).
    + intros url p Hp. by exists p.
    + exists []. by rewrite app_nil_r.
    + exists []. by rewrite app_nil_r.
    + done.
    + done.
  - intros w1 w2 w3 (Ht1 & Hp1 & [r1 Hl1] & [s1 Hs1] & Hc1 & Hh1)
                    (Ht2 & Hp2 & [r2 Hl2] & [s2 Hs2] & Hc2 & Hh2).
    split; [|split; [|split; [|split; [|split]]]].
    + intros i. specialize (Ht1 i). specialize (Ht2 i).
      destruct (crawl_targets w1 !! i), (crawl_targets w2 !! i), (crawl_targets w3 !! i);
        try done. by etrans.
    + intros url p Hp. destruct (Hp1 url p Hp) as (p' & Hp' & Hk).
      destruct (Hp2 url p' Hp') as (p'' & Hp'' & Hk'). exists p''. split; [done|by etrans].
    + exists (r1 ++ r2)%list. by rewrite Hl2, Hl1, <- app_assoc.
    + exists (s1 ++ s2)%list. by rewrite Hs2, Hs1, <- app_assoc.
    + lia.
    + lia.
Qed.

Lemma comes_after_intro (w w' : World) :
  (∀ i, match crawl_targets w !! i, crawl_targets w' !! i with
        | Some t, Some t' => keeps_target t t'
        | None, None => True
        | _, _ => False
        end) →
  (∀ url p, job_postings w !! url = Some p →
     ∃ p', job_postings w' !! url = Some p' ∧ keeps_posting p p') →
  (∃ reqs, db_log w' = (db_log w ++ reqs)%list) →
  (∃ waits, sleeps w' = (sleeps w ++ waits)%list) →
  (clock_reads w ≤ clock_reads w')%nat →
  (http_calls w ≤ http_calls w')%nat →
  comes_after w w'.
Proof. intros. by repeat split. Qed.

Lemma same_targets_kept (ts : gmap Z CrawlTarget) (i : Z) :
  match ts !! i, ts !! i with
  | Some t, Some t' => keeps_target t t'
  | None, None => True
  | _, _ => False
  end.
Proof. by destruct (ts !! i). Qed.

Lemma altered_targets_kept (f : CrawlTarget → CrawlTarget) (ts : gmap Z CrawlTarget) (j i : Z) :
  (∀ t, keeps_target t (f t)) →
  match ts !! i, alter f j ts !! i with
  | Some t, Some t' => keeps_target t t'
  | None, None => True
  | _, _ => False
  end.
Proof.
  intros Hf. destruct (decide (j = i)) as [->|Hne].
  - rewrite lookup_alter_eq. destruct (ts !! i); cbn; [apply Hf|done].
  - rewrite lookup_alter_ne by done. by destruct (ts !! i).
Qed.

Lemma same_postings_kept (ps : gmap string JobPosting) url p :
  ps !! url = Some p → ∃ p', ps !! url = Some p' ∧ keeps_posting p p'.
Proof. intros Hp. by exists p. Qed.

Lemma unit_app {A} (l : list A) : ∃ r, l = (l ++ r)%list.
Proof. exists []. by rewrite app_nil_r. Qed.

Ltac after_step :=
  apply comes_after_intro; cbn;
  [ try (intros; apply same_targets_kept)
  | try (intros; eapply same_postings_kept; eassumption)
  | try (first [apply unit_app | eexists; reflexivity])
  | try (first [apply unit_app | eexists; reflexivity])
  | try lia
  | try lia ].

Lemma now_comes_after env : leaves comes_after (db.now env).
Proof.
  intros w. after_step.
Qed.

Lemma sleep_comes_after seconds : leaves comes_after (crawler.sleep seconds).
Proof.
  intros w. after_step.
Qed.

Lemma select_comes_after url : leaves comes_after (db.select_posting url).
Proof.
  intros w. after_step.
Qed.

Lemma fetch_once_comes_after env url : leaves comes_after (crawler.fetch_once env url).
Proof.
  intros w. after_step.
Qed.

Lemma requests_comes_after {P} (server : nat → requests_answer P) url :
  leaves comes_after (requests_get_json server url).
Proof.
  intros w. unfold requests_get_json.
  destruct (server (http_calls w)) as [status json|e];
    [destruct (_ && _); [|destruct json]|];
    after_step.
Qed.

Lemma execute_target_comes_after (r : db_request) :
  is_posting_request r = false → leaves comes_after (db.execute r).
Proof.
  intros Hr w. destruct r; try done; after_step;
    intros i; apply altered_targets_kept; intros t; by repeat split.
Qed.

Lemma execute_update_comes_after url title company content at_ :
  leaves comes_after (db.execute (UpdatePosting url title company content at_)).
Proof.
  intros w. after_step.
  intros url' p Hp. destruct (decide (url = url')) as [->|Hne].
  - rewrite lookup_alter_eq, Hp. cbn. eexists. split; [done|]. by repeat split.
  - rewrite lookup_alter_ne by done. by exists p.
Qed.

Lemma execute_insert_comes_after (row : JobPosting) (w : World) :
  job_postings w !! p_original_url row = None →
  comes_after w (db.execute (InsertPosting row) w).2.
Proof.
  intros Hnone. after_step.
  intros url p Hp. exists p. split; [|done].
  rewrite lookup_insert_ne; [done|]. intros <-. congruence.
Qed.

Lemma upsert_comes_after env target_id title company_name content_raw original_url :
  leaves comes_after
    (db.upsert_job_posting env target_id title company_name content_raw original_url).
Proof.
  intros w. unfold db.upsert_job_posting.
  unfold mbind, M_bind. 
  pose proof (select_comes_after original_url w) as Hsel.
  destruct (db.select_posting original_url w) as [r w1] eqn:Esel.
  assert (r = Return (job_postings w !! original_url) ∧ job_postings w1 = job_postings w)
    as [-> Hsame].
  { unfold db.select_posting in Esel. by injection Esel as <- <-. }
  cbn in Hsel.
  pose proof (now_comes_after env w1) as Hnow.
  destruct (db.now env w1) as [r2 w2] eqn:Enow.
  assert (∃ ts, r2 = Return ts ∧ job_postings w2 = job_postings w1) as (ts & -> & Hsame2).
  { unfold db.now in Enow. injection Enow as <- <-. by eexists. }
  cbn in Hnow.
  destruct (job_postings w !! original_url) as [row|] eqn:Hrow.
  - destruct (String.eqb _ _); [by etrans|].
    pose proof (execute_update_comes_after original_url title company_name content_raw ts w2).
    destruct (db.execute _ w2) as [[[]|e|] w3]; cbn in *; by repeat (etrans; [eassumption|]).
  - pose proof (execute_insert_comes_after
                  {| p_crawl_target_id := target_id; p_title := title;
                     p_company_name := company_name; p_content_raw := content_raw;
                     p_original_url := original_url; p_analysis_result := None;
                     p_created_at := ts; p_updated_at := ts |} w2) as Hins.
    cbn [p_original_url] in Hins. rewrite Hsame2, Hsame in Hins. specialize (Hins Hrow).
    destruct (db.execute _ w2) as [[[]|e|] w3]; cbn in *; by repeat (etrans; [eassumption|]).
Qed.

Ltac leaves_go tac :=
  repeat first
    [ progress intros
    | tac
    | apply leaves_ret | apply leaves_raise | apply leaves_diverge | apply leaves_call
    | apply leaves_bind | apply leaves_for_each
    | match goal with
      | |- leaves _ (try_except _ _) => apply leaves_try
      | |- leaves _ (match ?x with _ => _ end) => destruct x eqn:?
      | |- leaves _ (if ?b then _ else _) => destruct b eqn:?
      | H : (if ?b then _ else _) = Some _ |- _ => destruct b eqn:?
      | H : None = Some _ |- _ => discriminate H
      | H : Some _ = Some _ |- _ => injection H as <-
      end
    | apply _ ].

Lemma update_target_checked_comes_after env i :
  leaves comes_after (db.update_target_checked env i).
Proof.
  unfold db.update_target_checked.
  leaves_go ltac:(first [apply now_comes_after | by apply execute_target_comes_after]).
Qed.

Lemma update_target_hash_comes_after env i h :
  leaves comes_after (db.update_target_hash env i h).
Proof.
  unfold db.update_target_hash.
  leaves_go ltac:(first [apply now_comes_after | by apply execute_target_comes_after]).
Qed.

Lemma update_target_error_comes_after i msg :
  leaves comes_after (db.update_target_error i msg).
Proof. unfold db.update_target_error. by apply execute_target_comes_after. Qed.

Lemma retrying_comes_after {A} fuel attempt_number (fn : M A) :
  leaves comes_after fn → leaves comes_after (crawler.retrying fuel attempt_number fn).
Proof.
  intros Hfn. revert attempt_number.
  induction fuel as [|fuel IH]; intros attempt_number w; cbn [crawler.retrying];
    specialize (Hfn w); destruct (fn w) as [[a|e|] w1]; cbn in *; try done;
    destruct (crawler.retry_if_exception_type e); try done;
    destruct (crawler.stop_after_attempt _ _); try done.
  etrans; [exact Hfn|].
  apply (leaves_bind comes_after); [apply sleep_comes_after|intros _; apply IH].
Qed.

Lemma fetch_url_comes_after env url : leaves comes_after (crawler.fetch_url env url).
Proof. apply retrying_comes_after, fetch_once_comes_after. Qed.

Ltac store_steps :=
  first [ apply now_comes_after | apply upsert_comes_after | apply fetch_url_comes_after
        | apply requests_comes_after | apply update_target_checked_comes_after
        | apply update_target_hash_comes_after | apply update_target_error_comes_after ].

Lemma crawl_toss_comes_after env target :
  leaves comes_after (toss_job_groups_api.crawl_toss_api env target).
Proof.
  unfold toss_job_groups_api.crawl_toss_api, toss_job_groups_api.process_group.
  cbv zeta. leaves_go store_steps.
Qed.

Lemma crawl_daangn_comes_after env target :
  leaves comes_after (daangn_greenhouse_api.crawl_daangn_api env target).
Proof.
  unfold daangn_greenhouse_api.crawl_daangn_api, daangn_greenhouse_api.process_job.
  cbv zeta. leaves_go store_steps.
Qed.

Lemma fetch_pages_comes_after env fuel base_url part page all_jobs :
  leaves comes_after (kakao_api.fetch_pages env fuel base_url part page all_jobs).
Proof.
  revert page all_jobs. induction fuel as [|fuel IH]; intros page all_jobs;
    cbn [kakao_api.fetch_pages]; cbv zeta.
  - apply (leaves_diverge comes_after).
  - leaves_go ltac:(first [apply IH | store_steps]).
Qed.

Lemma crawl_kakao_comes_after env fuel target :
  leaves comes_after (kakao_api.crawl_kakao_api env fuel target).
Proof.
  unfold kakao_api.crawl_kakao_api, kakao_api.process_job, kakao_api._fetch_all_jobs.
  cbv zeta. leaves_go ltac:(first [apply fetch_pages_comes_after | store_steps]).
Qed.

Lemma crawl_html_comes_after env parser_type target :
  leaves comes_after (crawler.crawl_html env parser_type target).
Proof.
  unfold crawler.crawl_html, crawler.process_item.
  cbv zeta. leaves_go store_steps.
Qed.

Lemma crawl_target_comes_after env fuel target :
  leaves comes_after (crawler.crawl_target env fuel target).
Proof.
  unfold crawler.crawl_target. cbv zeta.
  leaves_go ltac:(first [ apply crawl_toss_comes_after | apply crawl_daangn_comes_after
                        | apply crawl_kakao_comes_after | apply crawl_html_comes_after ]).
Qed.

Lemma crawl_all_from_comes_after env fuel total targets :
  leaves comes_after (crawler.crawl_all_from env fuel total targets).
Proof.
  unfold crawler.crawl_all_from.
  leaves_go ltac:(apply crawl_target_comes_after).
Qed.

(** ** The counters against the log *)




Global Instance untallied_preorder : PreOrder untallied.
Proof.
  split.
  - intros w. split; [done|]. exists []. split; [by rewrite app_nil_r|constructor].
  - intros w1 w2 w3 (Hp1 & r1 & Hl1 & Hf1) (Hp2 & r2 & Hl2 & Hf2).
    split; [congruence|]. exists (r1 ++ r2)%list.
    split; [by rewrite Hl2, Hl1, <- app_assoc|by apply Forall_app].
Qed.














Lemma sleep_untallied seconds : leaves untallied (crawler.sleep seconds).
Proof. intros w. split; [done|]. exists []. split; [by rewrite app_nil_r|constructor]. Qed.

























(** ** Items and counters *)

Lemma counted_incr (k : stat_key) (s : Stats) : counted (incr k s) = counted s + 1.
Proof. destruct k; unfold counted; cbn; lia. Qed.

Lemma for_each_counts {A} (keeps : A → bool) (body : A → Stats → M Stats) :
  counts_when keeps body →
  ∀ items s w, ∃ s' w', for_each items body s w = (Return s', w')
    ∧ counted s' = counted s + Z.of_nat (List.length (List.filter keeps items)).
Proof.
  intros Hbody items. induction items as [|x items IH]; intros s w; cbn [for_each List.filter].
  - eexists; eexists. split; [reflexivity|cbn; lia].
  - unfold mbind, M_bind.
    destruct (Hbody x s w) as (s1 & w1 & -> & H1).
    destruct (IH s1 w1) as (s2 & w2 & -> & H2).
    eexists; eexists. split; [reflexivity|]. destruct (keeps x); cbn [List.length]; lia.
Qed.

Lemma try_upsert_counts env target_id title company_name original_url
    (content : exn + string) stats w :
  ∃ s' w',
    try_except
      (content_raw ← call content;
       result ← db.upsert_job_posting env target_id title company_name content_raw
                  original_url;
       mret (incr result stats))
      (λ e, Some (mret (incr ERROR stats))) w = (Return s', w')
    ∧ counted s' = counted stats + 1.
Proof.
  unfold try_except, call, mbind, M_bind at 1.
  destruct content as [e|content_raw].
  - eexists; eexists. split; [reflexivity|apply counted_incr].
  - unfold M_bind.
    destruct (upsert_frame env target_id title company_name content_raw original_url w)
      as (k & w' & -> & _ & _).
    eexists; eexists. split; [reflexivity|apply counted_incr].
Qed.

Lemma toss_body_counts env target_id :
  counts_when toss_has_url (toss_job_groups_api.process_group env target_id).
Proof.
  intros group stats w. unfold toss_job_groups_api.process_group, toss_has_url.
  destruct (tg_primary_job group) as [job|];
    [destruct (tj_absolute_url job) as [url|]; [destruct (nonempty url)|]|]; cbn [negb];
    try (eexists; eexists; split; [reflexivity|lia]).
  apply try_upsert_counts.
Qed.

Lemma daangn_body_counts env target_id :
  counts_when daangn_has_id (daangn_greenhouse_api.process_job env target_id).
Proof.
  intros job stats w. unfold daangn_greenhouse_api.process_job, daangn_has_id.
  destruct (dj_id job) as [job_id|]; [destruct (job_id =? 0)|]; cbn [negb];
    try (eexists; eexists; split; [reflexivity|lia]).
  apply try_upsert_counts.
Qed.

Lemma kakao_body_counts env target_id :
  counts_when kakao_has_id (kakao_api.process_job env target_id).
Proof.
  intros job stats w. unfold kakao_api.process_job, kakao_has_id.
  destruct (kj_realId job) as [real_id|]; [destruct (nonempty real_id)|]; cbn [negb];
    try (eexists; eexists; split; [reflexivity|lia]).
  apply try_upsert_counts.
Qed.

Lemma hash_exit_returns env i h (stats : Stats) w :
  ∃ w', (db.update_target_hash env i h;; mret stats) w = (Return stats, w').
Proof. unfold_db. cbn. by eexists. Qed.
Lemma pages_from_S (page : Z) (count : nat) :
  pages_from page (S count) = page :: pages_from (page + 1) count.
Proof.
  unfold pages_from. cbn [seq List.map]. f_equal; [lia|].
  rewrite <- seq_shift, List.map_map. apply List.map_ext. intros i. lia.
Qed.

Lemma fetch_pages_collects env url jobs total part (remaining : nat) :
  (∀ n page,
     kakao_get env n url part page
     = RequestsResponse 200
         (inr {| kp_jobList := Some (jobs part page);
                 kp_totalPage := Some (total part) |})) →
  ∀ fuel page all_jobs w,
    (remaining < fuel)%nat →
    Z.of_nat remaining = Z.max 0 (total part - page) →
    ∃ w', kakao_api.fetch_pages env fuel url part page all_jobs w
            = (Return (all_jobs ++ concat (List.map (jobs part) (pages_from page (S remaining))))%list,
               w')
          ∧ store_untouched w w'
          ∧ http_calls w' = (S remaining + http_calls w)%nat
          ∧ sleeps w' = sleeps w.
Proof.
  intros Hserves. induction remaining as [|remaining IH]; intros fuel page all_jobs w Hfuel Hrem;
    (destruct fuel as [|fuel]; [lia|]); cbn [kakao_api.fetch_pages];
    unfold mbind, M_bind, requests_get_json; rewrite Hserves;
    change ((400 <=? 200) && (200 <? 600)) with false;
    cbv beta iota zeta; cbn [kp_jobList kp_totalPage default from_option id].
  - assert ((total part <=? page) = true) as -> by lia.
    eexists. split.
    { unfold mret, M_ret. apply f_equal2; [|reflexivity].
      unfold pages_from. cbn. rewrite app_nil_r. do 3 f_equal. lia. }
    by repeat split.
  - assert ((total part <=? page) = false) as -> by lia.
    destruct (IH fuel (page + 1) (all_jobs ++ jobs part page)%list
                {| crawl_targets := crawl_targets w; job_postings := job_postings w;
                   db_log := db_log w; clock_reads := clock_reads w;
                   http_calls := S (http_calls w); sleeps := sleeps w |})
      as (w' & -> & Hw' & Hcalls & Hsleeps); [lia|lia|].
    exists w'. split; [|split; [|split]].
    + f_equal. f_equal. rewrite (pages_from_S page (S remaining)).
      cbn [List.map concat]. by rewrite <- app_assoc.
    + destruct Hw' as (? & ? & ? & ?). by repeat split.
    + cbn in Hcalls. lia.
    + exact Hsleeps.
Qed.
Lemma pages_of_length (total_page : Z) :
  List.length (pages_of total_page) = Z.to_nat (Z.max 1 total_page).
Proof. unfold pages_of, pages_from. by rewrite List.length_map, List.length_seq. Qed.

Lemma fetch_parts_collects env url jobs total fuel (parts : list string) :
  kakao_serves env url jobs total →
  (0 < fuel)%nat →
  (∀ part, part ∈ parts → total part ≤ Z.of_nat fuel) →
  ∀ all_jobs w,
    ∃ w', for_each parts (λ part all_jobs, kakao_api.fetch_pages env fuel url part 1 all_jobs)
            all_jobs w
          = (Return (all_jobs ++ concat (List.map (λ part, concat (List.map (jobs part)
                                                                  (pages_of (total part))))
                                           parts))%list, w')
        ∧ store_untouched w w'
        ∧ http_calls w'
          = (list_sum (List.map (λ part, List.length (pages_of (total part))) parts)
             + http_calls w)%nat
        ∧ sleeps w' = sleeps w.
Proof.
  intros Hserves Hfuel. induction parts as [|part parts IH]; intros Hparts all_jobs w;
    cbn [for_each List.map concat list_sum].
  - exists w. rewrite app_nil_r. by repeat split.
  - unfold mbind, M_bind.
    destruct (fetch_pages_collects env url jobs total part
                (Z.to_nat (Z.max 0 (total part - 1))) (λ n page, Hserves n part page)
                fuel 1 all_jobs w)
      as (w1 & -> & Hw1 & Hc1 & Hs1).
    { assert (total part ≤ Z.of_nat fuel) by (apply Hparts; left). lia. }
    { lia. }
    destruct (IH (λ p Hp, Hparts p (list_elem_of_further _ _ _ Hp))
                (all_jobs ++ concat (List.map (jobs part)
                   (pages_from 1 (S (Z.to_nat (Z.max 0 (total part - 1)))))))%list w1)
      as (w2 & -> & Hw2 & Hc2 & Hs2).
    assert (S (Z.to_nat (Z.max 0 (total part - 1))) = Z.to_nat (Z.max 1 (total part)))
      as Hpages by lia.
    exists w2. split; [|split; [|split]].
    + f_equal. f_equal. unfold pages_of. rewrite <- Hpages. by rewrite <- app_assoc.
    + by eapply store_untouched_trans.
    + rewrite Hc2, Hc1, pages_of_length. unfold list_sum. cbn [fold_right]. lia.
    + congruence.
Qed.

Lemma fetch_pages_never_ends env url :
  kakao_never_ends env url →
  ∀ fuel page all_jobs w,
    (kakao_api.fetch_pages env fuel url "TECHNOLOGY" page all_jobs w).1 = Diverge.
Proof.
  intros Hmore. induction fuel as [|fuel IH]; intros page all_jobs w; [reflexivity|].
  cbn [kakao_api.fetch_pages]. unfold mbind, M_bind, requests_get_json.
  destruct (Hmore (http_calls w) page) as (job_list & total_page & -> & Hlt).
  change ((400 <=? 200) && (200 <? 600)) with false. cbv beta iota zeta.
  cbn [kp_jobList kp_totalPage default from_option id].
  assert ((total_page <=? page) = false) as -> by lia.
  apply IH.
Qed.
Lemma meta_fold_lookup (entries : list MetaEntry) (acc : gmap string (option string))
    (name : string) :
  fold_left
    (λ result m,
       match me_name m with
       | Some name => if nonempty name then <[name := me_value m]> result else result
       | None => result
       end) entries acc !! name
  = if nonempty name
    then match last (List.filter (named name) entries) with
         | Some m => Some (me_value m)
         | None => acc !! name
         end
    else acc !! name.
Proof.
  revert acc. induction entries as [|m entries IH]; intros acc; cbn [fold_left List.filter].
  - by destruct (nonempty name).
  - rewrite IH. unfold named at 2.
    destruct (nonempty name) eqn:Hname.
    + destruct (me_name m) as [name'|] eqn:Hm.
      * destruct (decide (name' = name)) as [->|Hne].
        -- rewrite bool_decide_eq_true_2 by done. rewrite Hname, last_cons.
           destruct (last (List.filter (named name) entries)); [done|].
           by rewrite lookup_insert_eq.
        -- rewrite bool_decide_eq_false_2 by congruence.
           destruct (last (List.filter (named name) entries)); [done|].
           destruct (nonempty name'); [|done]. by rewrite lookup_insert_ne.
      * rewrite bool_decide_eq_false_2 by done. done.
    + destruct (me_name m) as [name'|] eqn:Hm; [|done].
      destruct (nonempty name') eqn:Hname'; [|done].
      rewrite lookup_insert_ne; [done|]. intros ->. congruence.
Qed.
(** ** The network *)

Lemma leaves_mono {A} (R R' : World → World → Prop) (m : M A) :
  (∀ w w', R w w' → R' w w') → leaves R m → leaves R' m.
Proof. intros Hsub Hm w. apply Hsub, Hm. Qed.

Global Instance offline_preorder : PreOrder offline.
Proof.
  split.
  - intros w. by split.
  - intros w1 w2 w3 [? ?] [? ?]. split; congruence.
Qed.

Global Instance unslept_preorder : PreOrder unslept.
Proof.
  split.
  - intros w. reflexivity.
  - intros w1 w2 w3. unfold unslept. congruence.
Qed.

Global Instance paced_preorder : PreOrder paced.
Proof.
  split.
  - intros w. exists []. rewrite app_nil_r. split; [done|]. split; [constructor|cbn; lia].
  - intros w1 w2 w3 (s1 & Hs1 & Hf1 & Hc1) (s2 & Hs2 & Hf2 & Hc2).
    exists (s1 ++ s2)%list. split; [by rewrite Hs2, Hs1, <- app_assoc|].
    split; [by apply Forall_app|]. rewrite List.length_app. lia.
Qed.

Lemma offline_paced w w' : offline w w' → paced w w'.
Proof.
  intros [Hc Hs]. exists []. rewrite app_nil_r. split; [done|].
  split; [constructor|cbn; lia].
Qed.

Lemma offline_unslept w w' : offline w w' → unslept w w'.
Proof. by intros [_ Hs]. Qed.

Lemma now_offline env : leaves offline (db.now env).
Proof. intros w. by split. Qed.

Lemma select_offline url : leaves offline (db.select_posting url).
Proof. intros w. by split. Qed.

Lemma execute_offline r : leaves offline (db.execute r).
Proof. intros w. by split. Qed.

Ltac offline_steps :=
  first [ apply now_offline | apply select_offline | apply execute_offline ].

Lemma upsert_offline env target_id title company_name content_raw original_url :
  leaves offline
    (db.upsert_job_posting env target_id title company_name content_raw original_url).
Proof. unfold db.upsert_job_posting. cbv zeta. leaves_go offline_steps. Qed.

Lemma update_target_checked_offline env i : leaves offline (db.update_target_checked env i).
Proof. unfold db.update_target_checked. leaves_go offline_steps. Qed.

Lemma update_target_hash_offline env i h : leaves offline (db.update_target_hash env i h).
Proof. unfold db.update_target_hash. leaves_go offline_steps. Qed.

Lemma update_target_error_offline i msg : leaves offline (db.update_target_error i msg).
Proof. unfold db.update_target_error. apply execute_offline. Qed.

Ltac store_offline :=
  first [ apply upsert_offline | apply update_target_checked_offline
        | apply update_target_hash_offline | apply update_target_error_offline ].

Lemma fetch_url_paced env url : leaves paced (crawler.fetch_url env url).
Proof.
  intros w. rewrite fetch_url_unrolled. cbv zeta.
  destruct (retried _); [destruct (retried _)|]; cbn [snd]; unfold after_calls.
  - exists [2; 4]. cbn. split; [done|]. split; [|lia].
    repeat (constructor; [lia|]). constructor.
  - exists [2]. cbn. split; [done|]. split; [|lia].
    repeat (constructor; [lia|]). constructor.
  - exists []. cbn. split; [done|]. split; [constructor|lia].
Qed.

Lemma requests_one_call {P} (server : nat → requests_answer P) url w :
  http_calls (requests_get_json server url w).2 = S (http_calls w)
  ∧ sleeps (requests_get_json server url w).2 = sleeps w.
Proof.
  unfold requests_get_json.
  destruct (server (http_calls w)) as [status json|e];
    [destruct (_ && _); [|destruct json]|]; by split.
Qed.

Lemma requests_paced {P} (server : nat → requests_answer P) url :
  leaves paced (requests_get_json server url).
Proof.
  intros w. destruct (requests_one_call server url w) as [Hc Hs].
  exists []. rewrite app_nil_r. split; [done|]. split; [constructor|cbn; lia].
Qed.

Lemma requests_unslept {P} (server : nat → requests_answer P) url :
  leaves unslept (requests_get_json server url).
Proof. intros w. by destruct (requests_one_call server url w) as [_ Hs]. Qed.

Ltac paced_steps :=
  first [ apply fetch_url_paced | apply requests_paced
        | apply (leaves_mono offline paced _ offline_paced); store_offline ].

Ltac unslept_steps :=
  first [ apply requests_unslept
        | apply (leaves_mono offline unslept _ offline_unslept); store_offline ].

Lemma fetch_pages_paced env fuel base_url part page all_jobs :
  leaves paced (kakao_api.fetch_pages env fuel base_url part page all_jobs).
Proof.
  revert page all_jobs. induction fuel as [|fuel IH]; intros page all_jobs;
    cbn [kakao_api.fetch_pages]; cbv zeta.
  - apply (leaves_diverge paced).
  - leaves_go ltac:(first [apply IH | paced_steps]).
Qed.

Lemma fetch_pages_unslept env fuel base_url part page all_jobs :
  leaves unslept (kakao_api.fetch_pages env fuel base_url part page all_jobs).
Proof.
  revert page all_jobs. induction fuel as [|fuel IH]; intros page all_jobs;
    cbn [kakao_api.fetch_pages]; cbv zeta.
  - apply (leaves_diverge unslept).
  - leaves_go ltac:(first [apply IH | unslept_steps]).
Qed.

Lemma crawl_toss_paced env target :
  leaves paced (toss_job_groups_api.crawl_toss_api env target).
Proof.
  unfold toss_job_groups_api.crawl_toss_api, toss_job_groups_api.process_group.
  cbv zeta. leaves_go paced_steps.
Qed.

Lemma crawl_daangn_paced env target :
  leaves paced (daangn_greenhouse_api.crawl_daangn_api env target).
Proof.
  unfold daangn_greenhouse_api.crawl_daangn_api, daangn_greenhouse_api.process_job.
  cbv zeta. leaves_go paced_steps.
Qed.

Lemma crawl_kakao_paced env fuel target :
  leaves paced (kakao_api.crawl_kakao_api env fuel target).
Proof.
  unfold kakao_api.crawl_kakao_api, kakao_api.process_job, kakao_api._fetch_all_jobs.
  cbv zeta. leaves_go ltac:(first [apply fetch_pages_paced | paced_steps]).
Qed.

Lemma crawl_kakao_unslept env fuel target :
  leaves unslept (kakao_api.crawl_kakao_api env fuel target).
Proof.
  unfold kakao_api.crawl_kakao_api, kakao_api.process_job, kakao_api._fetch_all_jobs.
  cbv zeta. leaves_go ltac:(first [apply fetch_pages_unslept | unslept_steps]).
Qed.

Lemma crawl_html_paced env parser_type target :
  leaves paced (crawler.crawl_html env parser_type target).
Proof.
  unfold crawler.crawl_html, crawler.process_item.
  cbv zeta. leaves_go paced_steps.
Qed.

Lemma crawl_target_paced env fuel target :
  leaves paced (crawler.crawl_target env fuel target).
Proof.
  unfold crawler.crawl_target. cbv zeta.
  leaves_go ltac:(first [ apply crawl_toss_paced | apply crawl_daangn_paced
                        | apply crawl_kakao_paced | apply crawl_html_paced ]).
Qed.

Lemma crawl_all_from_paced env fuel total targets :
  leaves paced (crawler.crawl_all_from env fuel total targets).
Proof.
  unfold crawler.crawl_all_from.
  leaves_go ltac:(apply crawl_target_paced).
Qed.

(** A fetch under the handlers of an API adapter, then steps that stay
    offline: one HTTP call in all, whatever comes of it. *)
Lemma one_request_run {P A B} (server : nat → requests_answer P) url
    (handlers : exn → option (M (A + P))) (rest : A + P → M B) w :
  (∀ e h, handlers e = Some h → leaves offline h) →
  (∀ fetched, leaves offline (rest fetched)) →
  let w' := ((try_except (payload ← requests_get_json server url; mret (inr payload))
                handlers ≫= rest) w).2 in
  http_calls w' = S (http_calls w) ∧ sleeps w' = sleeps w.
Proof.
  intros Hh Hrest. cbv zeta.
  destruct (requests_one_call server url w) as [Hc Hs].
  unfold try_except, mbind, M_bind, mret, M_ret.
  destruct (requests_get_json server url w) as [[payload|e|] w1]; cbn in Hc, Hs.
  - pose proof (Hrest (inr payload) w1) as [Hc' Hs']. split; congruence.
  - destruct (handlers e) as [h|] eqn:He; [|by split].
    pose proof (Hh e h He w1) as [Hc1 Hs1].
    destruct (h w1) as [[fetched|e'|] w2]; cbn in *; try (split; congruence).
    pose proof (Hrest fetched w2) as [Hc' Hs']. split; congruence.
  - by split.
Qed.
(** ** One run, then another *)






(** ** The marks on the targets *)

Global Instance keeps_marks_preorder : PreOrder keeps_marks.
Proof.
  split.
  - intros t. by repeat split.
  - intros t1 t2 t3 (? & ? & ?) (? & ? & ?). repeat split; auto.
Qed.

Global Instance marks_stay_preorder : PreOrder marks_stay.
Proof.
  split.
  - intros w i t Ht. by exists t.
  - intros w1 w2 w3 H1 H2 i t Ht.
    destruct (H1 i t Ht) as (t' & Ht' & Hk). destruct (H2 i t' Ht') as (t'' & Ht'' & Hk').
    exists t''. split; [done|by etrans].
Qed.

Lemma same_targets_marks_stay w w' : crawl_targets w' = crawl_targets w → marks_stay w w'.
Proof. intros Hsame i t Ht. exists t. by rewrite Hsame. Qed.

Lemma store_untouched_marks_stay w w' : store_untouched w w' → marks_stay w w'.
Proof. intros (Ht & _). by apply same_targets_marks_stay. Qed.

Lemma altered_marks_stay (f : CrawlTarget → CrawlTarget) (j : Z) w w' :
  (∀ t, keeps_marks t (f t)) →
  crawl_targets w' = alter f j (crawl_targets w) → marks_stay w w'.
Proof.
  intros Hf Hrows i t Ht. rewrite Hrows. destruct (decide (j = i)) as [->|Hne].
  - rewrite lookup_alter_eq, Ht. by eexists.
  - rewrite lookup_alter_ne by done. by exists t.
Qed.

Lemma now_marks_stay env : leaves marks_stay (db.now env).
Proof. intros w. by apply same_targets_marks_stay. Qed.

Lemma select_marks_stay url : leaves marks_stay (db.select_posting url).
Proof. intros w. by apply same_targets_marks_stay. Qed.

Lemma execute_marks_stay r : leaves marks_stay (db.execute r).
Proof.
  intros w. destruct r; try by apply same_targets_marks_stay.
  all: eapply altered_marks_stay; [|reflexivity]; intros t; repeat split; try done;
    intros _; by eexists.
Qed.

Lemma fetch_url_marks_stay env url : leaves marks_stay (crawler.fetch_url env url).
Proof.
  intros w. destruct (fetch_url_frame env url w) as (r & w' & -> & _ & Hw).
  by apply store_untouched_marks_stay.
Qed.

Lemma requests_marks_stay {P} (server : nat → requests_answer P) url :
  leaves marks_stay (requests_get_json server url).
Proof.
  intros w. destruct (requests_get_json_frame server url w) as (r & w' & -> & _ & Hw).
  by apply store_untouched_marks_stay.
Qed.

Lemma fetch_all_jobs_marks_stay env fuel url :
  leaves marks_stay (kakao_api._fetch_all_jobs env fuel url).
Proof.
  intros w. destruct (fetch_all_jobs_frame env fuel url w) as (r & w' & -> & Hw).
  by apply store_untouched_marks_stay.
Qed.

Ltac marks_steps :=
  first [ apply now_marks_stay | apply select_marks_stay | apply execute_marks_stay
        | apply fetch_url_marks_stay | apply requests_marks_stay
        | apply fetch_all_jobs_marks_stay ].

Lemma crawl_target_marks_stay env fuel target :
  leaves marks_stay (crawler.crawl_target env fuel target).
Proof.
  unfold crawler.crawl_target, crawler.crawl_html, crawler.process_item,
    toss_job_groups_api.crawl_toss_api, toss_job_groups_api.process_group,
    daangn_greenhouse_api.crawl_daangn_api, daangn_greenhouse_api.process_job,
    kakao_api.crawl_kakao_api, kakao_api.process_job,
    db.upsert_job_posting, db.update_target_checked, db.update_target_hash,
    db.update_target_error.
  cbv zeta. leaves_go marks_steps.
Qed.

Lemma crawl_all_from_marks_stay env fuel total targets :
  leaves marks_stay (crawler.crawl_all_from env fuel total targets).
Proof.
  unfold crawler.crawl_all_from.
  leaves_go ltac:(apply crawl_target_marks_stay).
Qed.
(** ** A Kakao page that fails *)

Lemma fetch_pages_fails env url jobs total bad_part bad_page e (before : nat) :
  kakao_fails_at env url jobs total bad_part bad_page e →
  bad_page ≤ Z.max 1 (total bad_part) →
  ∀ fuel page all_jobs w,
    (before < fuel)%nat → 1 ≤ page → Z.of_nat before = bad_page - page →
    ∃ w', kakao_api.fetch_pages env fuel url bad_part page all_jobs w = (Raise e, w')
          ∧ store_untouched w w'.
Proof.
  intros Hserver Hbad. induction before as [|before IH]; intros fuel page all_jobs w Hfuel Hpage Hgap;
    (destruct fuel as [|fuel]; [lia|]); cbn [kakao_api.fetch_pages];
    unfold mbind, M_bind, requests_get_json; rewrite Hserver.
  - rewrite bool_decide_eq_true_2 by (split; [done|lia]).
    eexists. split; [reflexivity|by repeat split].
  - rewrite bool_decide_eq_false_2 by (intros [_ ?]; lia).
    change ((400 <=? 200) && (200 <? 600)) with false. cbv beta iota zeta.
    cbn [kp_jobList kp_totalPage default from_option id].
    assert ((total bad_part <=? page) = false) as -> by lia.
    destruct (IH fuel (page + 1) (all_jobs ++ jobs bad_part page)%list
                {| crawl_targets := crawl_targets w; job_postings := job_postings w;
                   db_log := db_log w; clock_reads := clock_reads w;
                   http_calls := S (http_calls w); sleeps := sleeps w |})
      as (w' & -> & Hw'); [lia|lia|lia|].
    exists w'. split; [reflexivity|]. destruct Hw' as (? & ? & ? & ?). by repeat split.
Qed.

Lemma fetch_parts_fails env url jobs total bad_part bad_page e fuel (parts : list string) :
  kakao_fails_at env url jobs total bad_part bad_page e →
  1 ≤ bad_page ≤ Z.max 1 (total bad_part) →
  (0 < fuel)%nat →
  (∀ part, part ∈ parts → total part ≤ Z.of_nat fuel) →
  bad_part ∈ parts →
  ∀ all_jobs w,
    ∃ w', for_each parts (λ part all_jobs, kakao_api.fetch_pages env fuel url part 1 all_jobs)
            all_jobs w = (Raise e, w')
          ∧ store_untouched w w'.
Proof.
  intros Hserver Hbad Hfuel. induction parts as [|part parts IH]; intros Htotal Hin all_jobs w.
  { by apply elem_of_nil in Hin. }
  cbn [for_each]. unfold mbind, M_bind.
  destruct (decide (part = bad_part)) as [->|Hne].
  - destruct (fetch_pages_fails env url jobs total bad_part bad_page e
                (Z.to_nat (bad_page - 1)) Hserver (proj2 Hbad) fuel 1 all_jobs w)
      as (w' & -> & Hw'); [|lia|lia|by exists w'].
    assert (total bad_part ≤ Z.of_nat fuel) by (apply Htotal; left). lia.
  - destruct (fetch_pages_collects env url jobs total part
                (Z.to_nat (Z.max 0 (total part - 1)))) with (fuel := fuel) (page := 1)
      (all_jobs := all_jobs) (w := w) as (w1 & -> & Hw1 & _).
    { intros n page. rewrite Hserver. by rewrite bool_decide_eq_false_2 by (intros [? _]; done). }
    { assert (total part ≤ Z.of_nat fuel) by (apply Htotal; left). lia. }
    { lia. }
    apply elem_of_cons in Hin as [Heq|Hin]; [done|].
    destruct (IH (λ p Hp, Htotal p (list_elem_of_further _ _ _ Hp)) Hin
                (all_jobs ++ concat (List.map (jobs part)
                   (pages_from 1 (S (Z.to_nat (Z.max 0 (total part - 1)))))))%list w1)
      as (w2 & -> & Hw2).
    exists w2. split; [reflexivity|by eapply store_untouched_trans].
Qed.
(** ** The totals of a pass *)

Lemma add_stats_assoc (a b c : Stats) :
  add_stats (add_stats a b) c = add_stats a (add_stats b c).
Proof. unfold add_stats. cbn. f_equal; lia. Qed.

Lemma add_stats_none_l (s : Stats) : add_stats no_stats s = s.
Proof. destruct s. unfold add_stats. cbn. f_equal. Qed.

Lemma add_stats_none_r (s : Stats) : add_stats s no_stats = s.
Proof. destruct s. unfold add_stats. cbn. f_equal; lia. Qed.

Lemma for_each_app {A S} (items1 items2 : list A) (body : A → S → M S) (s : S) w :
  for_each (items1 ++ items2) body s w
  = match for_each items1 body s w with
    | (Return s1, w1) => for_each items2 body s1 w1
    | other => other
    end.
Proof.
  revert s w. induction items1 as [|x items1 IH]; intros s w; [reflexivity|].
  cbn [for_each app]. unfold mbind, M_bind.
  destruct (body x s w) as [[s1|e|] w1]; [apply IH|reflexivity|reflexivity].
Qed.

Lemma crawl_all_from_shift env fuel targets total w :
  crawler.crawl_all_from env fuel total targets w
  = match crawler.crawl_all_from env fuel no_stats targets w with
    | (Return stats, w') => (Return (add_stats total stats), w')
    | other => other
    end.
Proof.
  unfold crawler.crawl_all_from. revert total w.
  induction targets as [|target targets IH]; intros total w; cbn [for_each].
  - unfold mret, M_ret. by rewrite add_stats_none_r.
  - unfold mbind, M_bind, mret, M_ret.
    destruct (crawler.crawl_target env fuel target w) as [[s|e|] w1]; [|done|done].
    rewrite (IH (add_stats total s)), (IH (add_stats no_stats s)).
    destruct (for_each targets _ no_stats w1) as [[r|e|] w2]; [|done|done].
    by rewrite add_stats_none_l, add_stats_assoc.
Qed.

(** * Further properties: the theorems *)

(** X1. A second upsert of the same content under the same URL, whatever its
    title, company name and target id, answers SKIP and writes nothing: after
    any upsert the posting under the URL holds the content that came in. *)
Theorem upsert_again_skips env target_id title company_name content_raw original_url
    target_id' title' company_name' (w : World) :
  let w1 := (db.upsert_job_posting env target_id title company_name content_raw
               original_url w).2 in
  let again := db.upsert_job_posting env target_id' title' company_name' content_raw
                 original_url w1 in
  p_content_raw <$> (job_postings w1 !! original_url) = Some content_raw
  ∧ again.1 = Return SKIP
  ∧ job_postings again.2 = job_postings w1
  ∧ db_log again.2 = (db_log w1 ++ [SelectPosting original_url])%list.
Proof.
  cbv zeta. unfold_db. cbn.
  destruct (job_postings w !! original_url) as [row|] eqn:Hrow; cbn;
    [destruct (String.eqb (p_content_raw row) content_raw) eqn:Heq; cbn|].
  - rewrite Hrow. cbn. rewrite Heq. apply String.eqb_eq in Heq. by rewrite Heq.
  - rewrite lookup_alter_eq, Hrow. cbn. by rewrite String.eqb_refl.
  - rewrite lookup_insert_eq. cbn. by rewrite String.eqb_refl.
Qed.

(** X2. Whatever comes of a pass, it removes no target and no posting, leaves
    the configuration of every target and the owner, URL, analysis result and
    creation time of every posting as they were, and only appends to the
    log. *)
Theorem crawl_all_keeps_rows env fuel targets (w : World) :
  comes_after w (crawler.crawl_all env fuel targets w).2.
Proof. apply crawl_all_from_comes_after. Qed.




(** X4. In a run of an API adapter that finds a new fingerprint, every item
    the loop does not pass over is counted exactly once, as NEW, UPDATED, SKIP
    or ERROR, and the items it passes over (no primary job or no URL for Toss,
    no id for Daangn and Kakao) are counted nowhere. *)
Theorem api_items_counted_once :
  (∀ env fuel target w payload groups,
     t_parser_type target = Some "toss_job_groups_api" →
     (requests_get_json (λ n, toss_get env n (t_list_url target)) (t_list_url target) w).1
       = Return payload →
     tp_resultType payload = Some "SUCCESS" →
     tp_success payload = Some groups → groups ≠ [] →
     t_last_list_hash target
       ≠ Some (toss_job_groups_api._compute_list_hash (omap tg_primary_job groups)) →
     ∃ stats w', crawler.crawl_target env fuel target w = (Return stats, w')
       ∧ counted stats = Z.of_nat (List.length (List.filter toss_has_url groups)))
  ∧ (∀ env fuel target w payload jobs,
       t_parser_type target = Some "daangn_greenhouse_api" →
       (requests_get_json (λ n, daangn_get env n (t_list_url target)) (t_list_url target) w).1
         = Return payload →
       dp_jobs payload = Some jobs → jobs ≠ [] →
       t_last_list_hash target ≠ Some (daangn_greenhouse_api._compute_list_hash jobs) →
       ∃ stats w', crawler.crawl_target env fuel target w = (Return stats, w')
         ∧ counted stats = Z.of_nat (List.length (List.filter daangn_has_id jobs)))
  ∧ (∀ env fuel target w all_jobs,
       t_parser_type target = Some "kakao_api" →
       (kakao_api._fetch_all_jobs env fuel (t_list_url target) w).1 = Return all_jobs →
       all_jobs ≠ [] →
       t_last_list_hash target ≠ Some (kakao_api._compute_list_hash all_jobs) →
       ∃ stats w', crawler.crawl_target env fuel target w = (Return stats, w')
         ∧ counted stats = Z.of_nat (List.length (List.filter kakao_has_id all_jobs))).
Proof.
  split; [|split].
  - intros env fuel target w payload groups Hkind Hfetch Hok Hgroups Hne Hhash.
    rewrite crawl_target_toss by done.
    destruct (requests_get_json (λ n, toss_get env n (t_list_url target))
                (t_list_url target) w) as [r w1] eqn:Hrun.
    cbn in Hfetch. subst r.
    unfold toss_job_groups_api.crawl_toss_api, try_except, mbind, M_bind, mret, M_ret.
    run_with Hrun. rewrite Hok, Hgroups. cbn [default from_option id negb].
    rewrite bool_decide_eq_true_2 by done. cbn [negb].
    rewrite bool_decide_eq_false_2 by (intros Heq; apply Hhash; by rewrite Heq).
    destruct groups as [|group groups]; [done|].
    destruct (for_each_counts toss_has_url _ (toss_body_counts env (t_id target))
                (group :: groups) no_stats w1) as (stats & w2 & Hloop & Hcount).
    rewrite Hloop.
    destruct (hash_exit_returns env (t_id target)
                (toss_job_groups_api._compute_list_hash (omap tg_primary_job (group :: groups)))
                stats w2) as (w3 & Hexit).
    exists stats, w3. split; [exact Hexit|exact Hcount].
  - intros env fuel target w payload jobs Hkind Hfetch Hjobs Hne Hhash.
    rewrite crawl_target_daangn by done.
    destruct (requests_get_json (λ n, daangn_get env n (t_list_url target))
                (t_list_url target) w) as [r w1] eqn:Hrun.
    cbn in Hfetch. subst r.
    unfold daangn_greenhouse_api.crawl_daangn_api, try_except, mbind, M_bind, mret, M_ret.
    run_with Hrun. rewrite Hjobs. cbn [default from_option id].
    rewrite bool_decide_eq_false_2 by (intros Heq; apply Hhash; by rewrite Heq).
    destruct jobs as [|job jobs]; [done|].
    destruct (for_each_counts daangn_has_id _ (daangn_body_counts env (t_id target))
                (job :: jobs) no_stats w1) as (stats & w2 & Hloop & Hcount).
    rewrite Hloop.
    destruct (hash_exit_returns env (t_id target)
                (daangn_greenhouse_api._compute_list_hash (job :: jobs)) stats w2)
      as (w3 & Hexit).
    exists stats, w3. split; [exact Hexit|exact Hcount].
  - intros env fuel target w all_jobs Hkind Hfetch Hne Hhash.
    rewrite crawl_target_kakao by done.
    destruct (kakao_api._fetch_all_jobs env fuel (t_list_url target) w) as [r w1] eqn:Hrun.
    cbn in Hfetch. subst r.
    unfold kakao_api.crawl_kakao_api, try_except, mbind, M_bind, mret, M_ret.
    run_with Hrun.
    rewrite bool_decide_eq_false_2 by (intros Heq; apply Hhash; by rewrite Heq).
    destruct all_jobs as [|job all_jobs]; [done|].
    destruct (for_each_counts kakao_has_id _ (kakao_body_counts env (t_id target))
                (job :: all_jobs) no_stats w1) as (stats & w2 & Hloop & Hcount).
    rewrite Hloop.
    destruct (hash_exit_returns env (t_id target)
                (kakao_api._compute_list_hash (job :: all_jobs)) stats w2) as (w3 & Hexit).
    exists stats, w3. split; [exact Hexit|exact Hcount].
Qed.

Lemma api_items_counted_once_witness :
  List.length demo_toss_groups = 2%nat
  ∧ counted (match (crawler.crawl_target demo_env 1 toss_new demo_world).1 with
             | Return stats => stats
             | _ => no_stats
             end) = 1.
Proof.
  split; [reflexivity|].
  destruct api_items_counted_once as (Htoss & _).
  destruct (Htoss demo_env 1%nat toss_new demo_world
              {| tp_resultType := Some "SUCCESS"; tp_success := Some demo_toss_groups |}
              demo_toss_groups) as (stats & w' & Hrun & Hcount);
    [reflexivity|reflexivity|reflexivity|reflexivity|discriminate|discriminate|].
  rewrite Hrun. cbn [fst]. rewrite Hcount. reflexivity.
Defined.


(** X5. Against a Kakao server that answers every page request with status
    200 and reports, for each part, one page total, [_fetch_all_jobs] asks
    part by part, in the order of [JOB_PARTS], for the pages 1 to
    max(1, total), each once; it returns their job lists in that order, makes
    one request per page, never sleeps and leaves both tables alone. A part
    whose reported total is 0 or less is still asked for its page 1. The loop
    needs as many steps as the largest total. *)
Theorem kakao_fetch_reads_every_page env url jobs total fuel w :
  kakao_serves env url jobs total →
  (0 < fuel)%nat →
  (∀ part, part ∈ kakao_api.JOB_PARTS → total part ≤ Z.of_nat fuel) →
  ∃ w',
    kakao_api._fetch_all_jobs env fuel url w
    = (Return (concat (List.map (λ part, concat (List.map (jobs part) (pages_of (total part))))
                         kakao_api.JOB_PARTS)), w')
    ∧ store_untouched w w'
    ∧ http_calls w'
      = (list_sum (List.map (λ part, List.length (pages_of (total part))) kakao_api.JOB_PARTS)
         + http_calls w)%nat
    ∧ sleeps w' = sleeps w.
Proof.
  intros Hserves Hfuel Htotal.
  exact (fetch_parts_collects env url jobs total fuel kakao_api.JOB_PARTS
           Hserves Hfuel Htotal [] w).
Qed.

Lemma kakao_fetch_reads_every_page_witness :
  ∃ w',
    kakao_api._fetch_all_jobs paged_env 3 "https://kakao.example/jobs" demo_world
    = (Return [kakao_job ("P-1", "t1"); kakao_job ("P-2", "t1"); kakao_job ("P-3", "t1")], w')
    ∧ http_calls w' = (6 + http_calls demo_world)%nat.
Proof.
  destruct (kakao_fetch_reads_every_page paged_env "https://kakao.example/jobs"
              (λ part page,
                 if String.eqb part "TECHNOLOGY"
                 then [kakao_job ("P-" +:+ pretty page, "t1")] else [])
              (λ part, if String.eqb part "TECHNOLOGY" then 3 else 0)
              3%nat demo_world) as (w' & Hrun & _ & Hcalls & _).
  - intros n part page. reflexivity.
  - lia.
  - intros part _. destruct (String.eqb part "TECHNOLOGY"); lia.
  - exists w'. split; [exact Hrun|exact Hcalls].
Defined.


(** X6. Nothing in [_fetch_all_jobs] bounds the number of pages but the total
    the server reports. Against a server that, for the first part, always
    reports a total beyond the page asked for, the loop does not end within
    any number of steps, and neither does [crawl_target] on a Kakao target
    with that URL: the handlers around the fetch catch exceptions only. *)
Theorem kakao_endless_pages_never_return env url :
  kakao_never_ends env url →
  ∀ fuel w,
    (kakao_api._fetch_all_jobs env fuel url w).1 = Diverge
    ∧ ∀ target,
        t_parser_type target = Some "kakao_api" → t_list_url target = url →
        (crawler.crawl_target env fuel target w).1 = Diverge.
Proof.
  intros Hmore fuel w.
  assert ((kakao_api._fetch_all_jobs env fuel url w).1 = Diverge) as Hfetch.
  { unfold kakao_api._fetch_all_jobs, kakao_api.JOB_PARTS. cbn [for_each].
    unfold mbind, M_bind.
    pose proof (fetch_pages_never_ends env url Hmore fuel 1 [] w) as Hpages.
    destruct (kakao_api.fetch_pages env fuel url "TECHNOLOGY" 1 [] w) as [r w1].
    cbn in Hpages. subst r. reflexivity. }
  split; [exact Hfetch|].
  intros target Hkind Hurl. rewrite crawl_target_kakao by done.
  unfold kakao_api.crawl_kakao_api, try_except, mbind, M_bind, mret, M_ret.
  cbv beta zeta. rewrite Hurl.
  destruct (kakao_api._fetch_all_jobs env fuel url w) as [r w1].
  cbn in Hfetch. subst r. reflexivity.
Qed.

Lemma kakao_endless_pages_never_return_witness :
  (crawler.crawl_target endless_env 50 kakao_new demo_world).1 = Diverge.
Proof.
  destruct (kakao_endless_pages_never_return endless_env (t_list_url kakao_new))
    with (fuel := 50%nat) (w := demo_world) as (_ & Htarget).
  - intros n page. exists (Some []), (page + 1). split; [reflexivity|lia].
  - apply Htarget; reflexivity.
Defined.


(** X7. [_meta_to_dict] keeps, for every non-empty name, the value of the
    last entry of the list that carries it, and nothing under the empty name;
    entries without a name are passed over. So the company name of a Toss job
    is "Toss / s" when the last entry named after the subsidiary question has
    a non-empty value s and "Toss" otherwise, and that of a Daangn job is
    "당근 / c" when the last entry named Corporate has a non-empty value c
    other than "당근마켓" and "당근" otherwise: an earlier entry of the same
    name never shows. *)
Theorem meta_dict_last_entry_wins metadata :
  (∀ name,
     _meta_to_dict metadata !! name
     = if nonempty name then me_value <$> last_named name metadata else None)
  ∧ toss_job_groups_api._build_company_name (_meta_to_dict metadata)
    = match last_named "포지션의 소속 자회사를 선택해 주세요." metadata ≫= me_value with
      | Some subsidiary => if nonempty subsidiary then "Toss / " +:+ subsidiary else "Toss"
      | None => "Toss"
      end
  ∧ daangn_greenhouse_api._build_company_name (_meta_to_dict metadata)
    = match last_named "Corporate" metadata ≫= me_value with
      | Some corporate =>
          if nonempty corporate && negb (String.eqb corporate "당근마켓")
          then "당근 / " +:+ corporate else "당근"
      | None => "당근"
      end.
Proof.
  assert (∀ name,
            _meta_to_dict metadata !! name
            = if nonempty name then me_value <$> last_named name metadata else None)
    as Hlookup.
  { intros name. unfold _meta_to_dict, last_named. rewrite meta_fold_lookup.
    rewrite lookup_empty. by destruct (last _). }
  split; [exact Hlookup|split].
  - unfold toss_job_groups_api._build_company_name. rewrite Hlookup.
    change (nonempty "포지션의 소속 자회사를 선택해 주세요.") with true. cbv iota.
    by destruct (last_named _ metadata) as [[? [?|]]|].
  - unfold daangn_greenhouse_api._build_company_name. rewrite Hlookup.
    change (nonempty "Corporate") with true. cbv iota.
    by destruct (last_named _ metadata) as [[? [?|]]|].
Qed.


(** X8. The waits of a pass are those between the attempts of [fetch_url]:
    whatever comes of [crawl_all], every wait it added is of 2 or of 4
    seconds, so that the ceiling of 10 and the floor of 1 given to
    [wait_exponential] never come into play, and it made no more waits than
    HTTP calls. *)
Theorem pass_waits_only_between_attempts env fuel targets w :
  paced w (crawler.crawl_all env fuel targets w).2.
Proof. apply crawl_all_from_paced. Qed.


(** X9. The fetch of an API adapter is not retried. A run over a Toss or a
    Daangn target makes one HTTP call, whatever the server answers and
    whatever comes of the run, and never waits; a run over a Kakao target
    never waits either. *)
Theorem api_fetch_is_not_retried env fuel target w :
  (t_parser_type target = Some "toss_job_groups_api"
   ∨ t_parser_type target = Some "daangn_greenhouse_api" →
   http_calls (crawler.crawl_target env fuel target w).2 = S (http_calls w)
   ∧ sleeps (crawler.crawl_target env fuel target w).2 = sleeps w)
  ∧ (t_parser_type target = Some "kakao_api" →
     sleeps (crawler.crawl_target env fuel target w).2 = sleeps w).
Proof.
  split.
  - intros [Hkind|Hkind].
    + rewrite crawl_target_toss by done.
      unfold toss_job_groups_api.crawl_toss_api, toss_job_groups_api.process_group.
      cbv zeta. apply one_request_run; leaves_go store_offline.
    + rewrite crawl_target_daangn by done.
      unfold daangn_greenhouse_api.crawl_daangn_api, daangn_greenhouse_api.process_job.
      cbv zeta. apply one_request_run; leaves_go store_offline.
  - intros Hkind. rewrite crawl_target_kakao by done. apply crawl_kakao_unslept.
Qed.

Lemma api_fetch_is_not_retried_witness :
  http_calls (crawler.crawl_target demo_env 1 toss_fail demo_world).2
  = S (http_calls demo_world)
  ∧ sleeps (crawler.crawl_target demo_env 1 kakao_down demo_world).2 = sleeps demo_world.
Proof.
  split.
  - destruct (api_fetch_is_not_retried demo_env 1%nat toss_fail demo_world) as [Hone _].
    apply Hone. left. reflexivity.
  - destruct (api_fetch_is_not_retried demo_env 1%nat kakao_down demo_world) as [_ Hnone].
    apply Hnone. reflexivity.
Defined.


(** X10. An exception of the fetch that the handlers of an API adapter do
    not take ends the pass. When the fetch of a Toss, Daangn or Kakao target
    raises an exception that is no [RequestException] and no JSON decoding
    error, [crawl_target] raises that exception and the store has seen no
    request, a [last_error] included; [crawl_all] on a list that starts with
    the target raises it too, in the same world: the targets after this one
    are not visited and the totals so far are not returned. *)
Theorem uncaught_fetch_error_ends_pass :
  (∀ env fuel target w e total rest,
     t_parser_type target = Some "toss_job_groups_api" →
     (requests_get_json (λ n, toss_get env n (t_list_url target)) (t_list_url target) w).1
       = Raise e →
     api_error_msg e = None →
     ∃ w', crawler.crawl_target env fuel target w = (Raise e, w')
           ∧ store_untouched w w'
           ∧ crawler.crawl_all_from env fuel total (target :: rest) w = (Raise e, w'))
  ∧ (∀ env fuel target w e total rest,
       t_parser_type target = Some "daangn_greenhouse_api" →
       (requests_get_json (λ n, daangn_get env n (t_list_url target)) (t_list_url target) w).1
         = Raise e →
       api_error_msg e = None →
       ∃ w', crawler.crawl_target env fuel target w = (Raise e, w')
             ∧ store_untouched w w'
             ∧ crawler.crawl_all_from env fuel total (target :: rest) w = (Raise e, w'))
  ∧ (∀ env fuel target w e total rest,
       t_parser_type target = Some "kakao_api" →
       (kakao_api._fetch_all_jobs env fuel (t_list_url target) w).1 = Raise e →
       api_error_msg e = None →
       ∃ w', crawler.crawl_target env fuel target w = (Raise e, w')
             ∧ store_untouched w w'
             ∧ crawler.crawl_all_from env fuel total (target :: rest) w = (Raise e, w')).
Proof.
  assert (∀ env fuel target w e w' total rest,
            crawler.crawl_target env fuel target w = (Raise e, w') →
            crawler.crawl_all_from env fuel total (target :: rest) w = (Raise e, w'))
    as Hpass.
  { intros env fuel target w e w' total rest Hrun.
    unfold crawler.crawl_all_from. cbn [for_each]. unfold mbind, M_bind. by rewrite Hrun. }
  assert (∀ e, api_error_msg e = None →
               is_RequestException e = false ∧ is_JSONDecodeError e = false) as Hmsg.
  { intros e. unfold api_error_msg.
    by destruct (is_RequestException e), (is_JSONDecodeError e). }
  split; [|split].
  - intros env fuel target w e total rest Hkind Hfetch Hnone.
    destruct (Hmsg e Hnone) as [Hreq Hjson].
    destruct (requests_get_json_frame (λ n, toss_get env n (t_list_url target))
                (t_list_url target) w) as (r & w1 & Hrun & _ & Hw1).
    rewrite Hrun in Hfetch. cbn in Hfetch. subst r.
    assert (crawler.crawl_target env fuel target w = (Raise e, w1)) as Hraise.
    { rewrite crawl_target_toss by done.
      unfold toss_job_groups_api.crawl_toss_api, try_except, mbind, M_bind, mret, M_ret.
      run_with Hrun. by rewrite Hreq, Hjson. }
    exists w1. split; [done|]. split; [done|by apply Hpass].
  - intros env fuel target w e total rest Hkind Hfetch Hnone.
    destruct (Hmsg e Hnone) as [Hreq Hjson].
    destruct (requests_get_json_frame (λ n, daangn_get env n (t_list_url target))
                (t_list_url target) w) as (r & w1 & Hrun & _ & Hw1).
    rewrite Hrun in Hfetch. cbn in Hfetch. subst r.
    assert (crawler.crawl_target env fuel target w = (Raise e, w1)) as Hraise.
    { rewrite crawl_target_daangn by done.
      unfold daangn_greenhouse_api.crawl_daangn_api, try_except, mbind, M_bind, mret, M_ret.
      run_with Hrun. by rewrite Hreq, Hjson. }
    exists w1. split; [done|]. split; [done|by apply Hpass].
  - intros env fuel target w e total rest Hkind Hfetch Hnone.
    destruct (Hmsg e Hnone) as [Hreq Hjson].
    destruct (fetch_all_jobs_frame env fuel (t_list_url target) w) as (r & w1 & Hrun & Hw1).
    rewrite Hrun in Hfetch. cbn in Hfetch. subst r.
    assert (crawler.crawl_target env fuel target w = (Raise e, w1)) as Hraise.
    { rewrite crawl_target_kakao by done.
      unfold kakao_api.crawl_kakao_api, try_except, mbind, M_bind, mret, M_ret.
      run_with Hrun. by rewrite Hreq, Hjson. }
    exists w1. split; [done|]. split; [done|by apply Hpass].
Qed.

Lemma uncaught_fetch_error_ends_pass_witness :
  (crawler.crawl_all interrupted_env 1 [toss_new; html_new] demo_world).1
  = Raise (Exn OtherException "interrupted")
  ∧ db_log (crawler.crawl_all interrupted_env 1 [toss_new; html_new] demo_world).2 = [].
Proof.
  destruct uncaught_fetch_error_ends_pass as (Htoss & _).
  destruct (Htoss interrupted_env 1%nat toss_new demo_world
              (Exn OtherException "interrupted") no_stats [html_new])
    as (w' & _ & (_ & _ & Hlog & _) & Hpass); [reflexivity|reflexivity|reflexivity|].
  unfold crawler.crawl_all. rewrite Hpass. cbn [fst snd]. split; [reflexivity|exact Hlog].
Defined.


(** X11. An API feed with nothing in it is not compared with the stored
    fingerprint at all. When the Toss payload says SUCCESS and has no groups
    (the key missing or the list empty), when the Daangn payload has no jobs,
    or when the Kakao pages together hold no job, the run counts nothing and
    sends one request, the update of the checked time: the stored fingerprint
    stays what it was, whatever it was. *)
Theorem empty_feed_only_checks :
  (∀ env fuel target w payload,
     t_parser_type target = Some "toss_job_groups_api" →
     (requests_get_json (λ n, toss_get env n (t_list_url target)) (t_list_url target) w).1
       = Return payload →
     tp_resultType payload = Some "SUCCESS" →
     default [] (tp_success payload) = [] →
     only_checked env target w (crawler.crawl_target env fuel target w))
  ∧ (∀ env fuel target w payload,
       t_parser_type target = Some "daangn_greenhouse_api" →
       (requests_get_json (λ n, daangn_get env n (t_list_url target)) (t_list_url target) w).1
         = Return payload →
       default [] (dp_jobs payload) = [] →
       only_checked env target w (crawler.crawl_target env fuel target w))
  ∧ (∀ env fuel target w,
       t_parser_type target = Some "kakao_api" →
       (kakao_api._fetch_all_jobs env fuel (t_list_url target) w).1 = Return [] →
       only_checked env target w (crawler.crawl_target env fuel target w)).
Proof.
  split; [|split].
  - intros env fuel target w payload Hkind Hfetch Hok Hnone.
    rewrite crawl_target_toss by done.
    destruct (requests_get_json_frame (λ n, toss_get env n (t_list_url target))
                (t_list_url target) w) as (r & w1 & Hrun & _ & Hw1).
    rewrite Hrun in Hfetch. cbn in Hfetch. subst r.
    unfold toss_job_groups_api.crawl_toss_api, try_except, mbind, M_bind, mret, M_ret.
    run_with Hrun. rewrite Hok, Hnone.
    rewrite bool_decide_eq_true_2 by done. cbn [negb].
    by apply checked_exit.
  - intros env fuel target w payload Hkind Hfetch Hnone.
    rewrite crawl_target_daangn by done.
    destruct (requests_get_json_frame (λ n, daangn_get env n (t_list_url target))
                (t_list_url target) w) as (r & w1 & Hrun & _ & Hw1).
    rewrite Hrun in Hfetch. cbn in Hfetch. subst r.
    unfold daangn_greenhouse_api.crawl_daangn_api, try_except, mbind, M_bind, mret, M_ret.
    run_with Hrun. rewrite Hnone.
    by apply checked_exit.
  - intros env fuel target w Hkind Hfetch.
    rewrite crawl_target_kakao by done.
    destruct (fetch_all_jobs_frame env fuel (t_list_url target) w) as (r & w1 & Hrun & Hw1).
    rewrite Hrun in Hfetch. cbn in Hfetch. subst r.
    unfold kakao_api.crawl_kakao_api, try_except, mbind, M_bind, mret, M_ret.
    run_with Hrun.
    by apply checked_exit.
Qed.

Lemma empty_feed_only_checks_witness :
  t_last_list_hash toss_seen ≠ Some (toss_job_groups_api._compute_list_hash [])
  ∧ only_checked empty_env toss_seen demo_world
      (crawler.crawl_target empty_env 1 toss_seen demo_world).
Proof.
  split; [vm_compute; discriminate|].
  destruct empty_feed_only_checks as (Htoss & _).
  apply (Htoss empty_env 1%nat toss_seen demo_world
           {| tp_resultType := Some "SUCCESS"; tp_success := None |}); reflexivity.
Defined.





(** X13. No request of a pass takes a mark off a target. Whatever comes of
    [crawl_all], every row of the table of targets is still there, and a
    [last_error], a [last_list_hash] or a [last_checked_at] that was set is
    still set. In particular [update_target_checked] and
    [update_target_hash] leave the [last_error] of the row they write as it
    was: the message of an earlier failure outlives the runs that succeed. *)
Theorem pass_never_clears_marks env fuel targets w :
  marks_stay w (crawler.crawl_all env fuel targets w).2
  ∧ ∀ i t new_hash,
      crawl_targets w !! i = Some t →
      t_last_error <$> crawl_targets (db.update_target_checked env i w).2 !! i
        = Some (t_last_error t)
      ∧ t_last_error <$> crawl_targets (db.update_target_hash env i new_hash w).2 !! i
        = Some (t_last_error t).
Proof.
  split; [apply crawl_all_from_marks_stay|].
  intros i t new_hash Hrow. unfold_db. cbn.
  by rewrite !lookup_alter_eq, Hrow.
Qed.

Lemma pass_never_clears_marks_witness :
  t_last_error
  <$> crawl_targets (db.update_target_hash demo_env 9 "h"
                       (crawler.crawl_target demo_env 1 toss_fail demo_world).2).2 !! 9
  = Some (Some "API returned non-SUCCESS: FAIL").
Proof.
  destruct (pass_never_clears_marks demo_env 1%nat []
              (crawler.crawl_target demo_env 1 toss_fail demo_world).2) as [_ Hkeeps].
  destruct (Hkeeps 9 (db.set_error "API returned non-SUCCESS: FAIL" toss_fail) "h")
    as [_ Hhash].
  - vm_compute. reflexivity.
  - exact Hhash.
Defined.


(** X14. One page that fails costs the whole Kakao list. Let the server
    answer every page request but one, a page of one of the parts within the
    total it reports for that part, and let the request for that page fail.
    Then [_fetch_all_jobs] raises that failure, whatever it read before; and
    when the failure is a [RequestException], the run over a Kakao target
    with that URL counts one ERROR, writes the message to [last_error] and
    sends no request about postings: the jobs of the pages that were read are
    not stored. *)
Theorem kakao_one_bad_page_fails_all env url jobs total bad_part bad_page e fuel target w :
  kakao_fails_at env url jobs total bad_part bad_page e →
  bad_part ∈ kakao_api.JOB_PARTS →
  1 ≤ bad_page ≤ Z.max 1 (total bad_part) →
  (0 < fuel)%nat →
  (∀ part, part ∈ kakao_api.JOB_PARTS → total part ≤ Z.of_nat fuel) →
  (kakao_api._fetch_all_jobs env fuel url w).1 = Raise e
  ∧ (t_parser_type target = Some "kakao_api" → t_list_url target = url →
     is_RequestException e = true →
     error_recorded target ("Failed to fetch API: " +:+ exn_str e) w
       (crawler.crawl_target env fuel target w)).
Proof.
  intros Hserver Hpart Hpage Hfuel Htotal.
  destruct (fetch_parts_fails env url jobs total bad_part bad_page e fuel
              kakao_api.JOB_PARTS Hserver Hpage Hfuel Htotal Hpart [] w)
    as (w1 & Hrun & Hw1).
  fold (kakao_api._fetch_all_jobs env fuel url) in Hrun.
  split; [by rewrite Hrun|].
  intros Hkind Hurl Hreq. rewrite crawl_target_kakao by done.
  unfold kakao_api.crawl_kakao_api, try_except, mbind, M_bind, mret, M_ret.
  cbv beta zeta. rewrite Hurl, Hrun. cbv beta iota zeta. rewrite Hreq.
  by apply error_exit.
Qed.

Lemma kakao_one_bad_page_fails_all_witness :
  error_recorded kakao_new "Failed to fetch API: Read timed out" demo_world
    (crawler.crawl_target flaky_env 3 kakao_new demo_world).
Proof.
  destruct (kakao_one_bad_page_fails_all flaky_env (t_list_url kakao_new)
              (λ part page,
                 if String.eqb part "TECHNOLOGY"
                 then [kakao_job ("P-" +:+ pretty page, "t1")] else [])
              (λ part, if String.eqb part "TECHNOLOGY" then 3 else 1)
              "DESIGN" 1 (Exn RequestsTimeout "Read timed out") 3%nat kakao_new demo_world)
    as [_ Hrun].
  - intros n part page. reflexivity.
  - vm_compute. repeat constructor.
  - lia.
  - lia.
  - intros part _. destruct (String.eqb part "TECHNOLOGY"); lia.
  - apply Hrun; reflexivity.
Defined.


(** X15. The totals of a pass are the sums of its parts. A pass over two
    lists of targets one after the other is the pass over the first followed,
    in the world that one leaves, by the pass over the second, with the
    counters of the two added key by key; when one of them does not return,
    the whole pass ends there in the same way. A pass over one target
    returns the counters of that target, and a pass over no target returns
    zeros and touches nothing. *)
Theorem crawl_all_adds_up env fuel targets1 targets2 target w :
  crawler.crawl_all env fuel (targets1 ++ targets2)%list w
  = match crawler.crawl_all env fuel targets1 w with
    | (Return stats1, w1) =>
        match crawler.crawl_all env fuel targets2 w1 with
        | (Return stats2, w2) => (Return (add_stats stats1 stats2), w2)
        | other => other
        end
    | other => other
    end
  ∧ crawler.crawl_all env fuel [target] w = crawler.crawl_target env fuel target w
  ∧ crawler.crawl_all env fuel [] w = (Return no_stats, w).
Proof.
  split; [|split].
  - unfold crawler.crawl_all, crawler.crawl_all_from at 1 2. rewrite for_each_app.
    destruct (for_each targets1 _ no_stats w) as [[stats1|e|] w1]; [|done|done].
    apply (crawl_all_from_shift env fuel targets2 stats1 w1).
  - unfold crawler.crawl_all, crawler.crawl_all_from. cbn [for_each].
    unfold mbind, M_bind, mret, M_ret.
    destruct (crawler.crawl_target env fuel target w) as [[s|e|] w1]; [|done|done].
    by rewrite add_stats_none_l.
  - reflexivity.
Qed.


(** X16. A posting stays with the target that stored it first. After the
    upsert that inserts a URL, an upsert of other content under that URL,
    from whatever target, answers UPDATED and leaves one row: it carries the
    new title, company name and content and the time of the second call as
    its update time, and still the target id and the creation time of the
    first call and no analysis result. *)
Theorem upsert_then_change_keeps_origin env target_id title company_name content_raw
    target_id' title' company_name' content_raw' original_url (w : World) :
  job_postings w !! original_url = None →
  content_raw ≠ content_raw' →
  let w1 := (db.upsert_job_posting env target_id title company_name content_raw
               original_url w).2 in
  let again := db.upsert_job_posting env target_id' title' company_name' content_raw'
                 original_url w1 in
  again.1 = Return UPDATED
  ∧ job_postings again.2 !! original_url
    = Some {| p_crawl_target_id := target_id;
              p_title := title';
              p_company_name := company_name';
              p_content_raw := content_raw';
              p_original_url := original_url;
              p_analysis_result := None;
              p_created_at := utc_now_isoformat env (clock_reads w);
              p_updated_at := utc_now_isoformat env (S (clock_reads w)) |}
  ∧ size (job_postings again.2) = S (size (job_postings w)).
Proof.
  intros Hnew Hother. cbv zeta. unfold_db. cbn. rewrite Hnew. cbn.
  rewrite lookup_insert_eq. cbn.
  rewrite (proj2 (String.eqb_neq content_raw content_raw')) by done. cbn.
  split; [done|]. split.
  - rewrite lookup_alter_eq, lookup_insert_eq. reflexivity.
  - rewrite <- size_dom, dom_alter_L, size_dom. by apply map_size_insert_None.
Qed.

Lemma upsert_then_change_keeps_origin_witness :
  p_crawl_target_id
  <$> job_postings
        (db.upsert_job_posting demo_env 2 "B" "Co" "<main>new</main>" "https://jobs.example/x"
           (db.upsert_job_posting demo_env 1 "A" "Co" "<main>old</main>"
              "https://jobs.example/x" demo_world).2).2
      !! "https://jobs.example/x"
  = Some 1.
Proof.
  destruct (upsert_then_change_keeps_origin demo_env 1 "A" "Co" "<main>old</main>"
              2 "B" "Co" "<main>new</main>" "https://jobs.example/x" demo_world)
    as (_ & Hrow & _).
  - reflexivity.
  - discriminate.
  - cbv zeta in Hrow. by rewrite Hrow.
Defined.
